(** * The data normalisation and scoring pipeline of ai_impact_data_collection

    A shallow embedding of the Python functions that clean, deduplicate,
    score and analyse the collected posts, followed by the properties the
    specification states about them.

    Conventions of the embedding.
    - A Python [str] is the list of its code points ([list N]); literals are
      written [utf8 "..."], the decoding of the UTF-8 bytes of the source
      text.
    - A record read with [d.get(key, default)] is a Rocq record whose
      fields are [option]s: [None] stands for an absent key.
    - A Python [float] is modelled by the rational number it approximates
      ([Q]); [round(x, k)] is rounding to the nearest multiple of [10^-k],
      ties to even.  Binary rounding error is outside the model.
    - The tables of the Python runtime behind [str.lower], the regex class
      [\d] and [int(s)] are not part of the repository; they are the
      fields of the class [PyLib], and every theorem holds for all
      instances.
    - The built-in [hash] of a string differs from one run of the
      interpreter to the next; the functions that call it take it as a
      parameter.
    - Code that can raise returns [option] or [result]; objects that are
      mutated (the statistics of a [DataCleaner], a [Post]) are passed
      explicitly as state.  The cleaner updates the dictionaries of the
      batch in place and returns a list of those same dictionaries; the
      model returns the updated records. *)

From Stdlib Require Import ZArith NArith QArith Qround Qminmax Lia Lqa List String Ascii Bool.
From Stdlib Require Import DecimalString.
From stdpp Require Import base gmap list.
From Equations Require Import Equations.
Import ListNotations.

Set Default Proof Using "Type".

(** ** Python strings *)

Abbreviation char := N (only parsing).
Abbreviation str := (list N) (only parsing).

Fixpoint utf8_decode (bs : list N) : str :=
  match bs with
  | [] => []
  | b :: r =>
    if (b <? 128)%N then b :: utf8_decode r
    else if (b <? 224)%N then
      match r with
      | b1 :: r' => ((b mod 32) * 64 + b1 mod 64)%N :: utf8_decode r'
      | _ => []
      end
    else if (b <? 240)%N then
      match r with
      | b1 :: b2 :: r' =>
        ((b mod 16) * 4096 + (b1 mod 64) * 64 + b2 mod 64)%N :: utf8_decode r'
      | _ => []
      end
    else
      match r with
      | b1 :: b2 :: b3 :: r' =>
        ((b mod 8) * 262144 + (b1 mod 64) * 4096 + (b2 mod 64) * 64
         + b3 mod 64)%N :: utf8_decode r'
      | _ => []
      end
  end.

Definition utf8 (s : string) : str :=
  utf8_decode (map N_of_ascii (list_ascii_of_string s)).

(** [sub in s] on strings: [sub] occurs in [s] as a contiguous run. *)
Fixpoint startswith (s p : str) : bool :=
  match p, s with
  | [], _ => true
  | _ :: _, [] => false
  | a :: p', b :: s' => (a =? b)%N && startswith s' p'
  end.

Fixpoint str_in (sub s : str) : bool :=
  startswith s sub ||
  match s with
  | [] => false
  | _ :: s' => str_in sub s'
  end.

(** [sep.join(items)] *)
Fixpoint join (sep : str) (items : list str) : str :=
  match items with
  | [] => []
  | [x] => x
  | x :: rest => x ++ sep ++ join sep rest
  end.

(** Truthiness of a string: [if s] / [not s]. *)
Definition truthy (s : str) : bool :=
  match s with [] => false | _ => true end.

(** [d.get(key, '')] for a string-valued key. *)
Definition get_str (field : option str) : str := default [] field.

(** [s[:k]]: the first [k] characters; for a negative [k], all but the
    last [-k]. *)
Definition slice_to (s : str) (k : Z) : str :=
  if (k <? 0)%Z then take (length s - Z.to_nat (- k)) s
  else take (Z.to_nat k) s.

(** [str.isspace] on one code point; this is also the regex class [\s]
    of a [str] pattern. *)
Definition isspace (c : char) : bool :=
  ((9 <=? c) && (c <=? 13) || (28 <=? c) && (c <=? 32)
   || (c =? 133) || (c =? 160) || (c =? 5760)
   || (8192 <=? c) && (c <=? 8202)
   || (c =? 8232) || (c =? 8233) || (c =? 8239) || (c =? 8287)
   || (c =? 12288))%N.

(** ** Python numbers *)

(** [min(a, b)]: the second argument is returned only when it is
    smaller. *)
Definition py_min (a b : Q) : Q :=
  match (b ?= a)%Q with
  | Lt => b
  | _ => a
  end.

(** The integer nearest to [x], ties to the even one. *)
Definition round_half_even (x : Q) : Z :=
  let f := Qfloor x in
  match (x - inject_Z f ?= 1 # 2)%Q with
  | Lt => f
  | Gt => (f + 1)%Z
  | Eq => if Z.even f then f else (f + 1)%Z
  end.

(** [round(x, ndigits)] *)
Definition py_round (x : Q) (ndigits : nat) : Q :=
  let scale := inject_Z (10 ^ Z.of_nat ndigits) in
  (inject_Z (round_half_even (x * scale)) / scale)%Q.

(** A count as a number. *)
Definition Qnat (n : nat) : Q := inject_Z (Z.of_nat n).

(** [sum(1 for x in l if f(x))] *)
Definition count_if {A} (f : A -> bool) (l : list A) : nat :=
  length (filter (fun x => f x = true) l).

(** Values that a loosely typed field (a vote count or a date read from
    JSON) can hold: [null], an integer, a string. *)
Inductive pyval :=
| PyNone
| PyInt (z : Z)
| PyStr (s : str).

(** [str(v)], as an f-string prints a value. *)
Definition py_str (v : pyval) : str :=
  match v with
  | PyNone => utf8 "None"
  | PyInt z => utf8 (NilZero.string_of_int (Z.to_int z))
  | PyStr s => s
  end.

(** The functions of the Python runtime that the code reaches and whose
    tables lie outside the repository: [str.lower], the regex class [\d],
    and [int(s)] on a string ([None] stands for [ValueError]). *)
Class PyLib := {
  lower : str -> str;
  isdecimal : char -> bool;
  int_of_str : str -> option Z
}.

(** The restriction of the tables to ASCII, to run the definitions. *)
Definition lower_ascii_char (c : char) : char :=
  if ((65 <=? c) && (c <=? 90))%N then (c + 32)%N else c.

Definition isdigit_ascii (c : char) : bool := ((48 <=? c) && (c <=? 57))%N.

Fixpoint digits_value (acc : Z) (s : str) : option Z :=
  match s with
  | [] => Some acc
  | c :: s' =>
    if isdigit_ascii c then digits_value (acc * 10 + Z.of_N (c - 48)) s'
    else None
  end.

Definition int_of_str_ascii (s : str) : option Z :=
  match s with
  | [] => None
  | c :: s' =>
    if (c =? 45)%N then
      match s' with [] => None | _ => Z.opp <$> digits_value 0 s' end
    else digits_value 0 s
  end.

Definition ascii_lib : PyLib := {|
  lower := map lower_ascii_char;
  isdecimal := isdigit_ascii;
  int_of_str := int_of_str_ascii
|}.

(** ** The records the pipeline passes around

    Posts and comments are dictionaries loaded from JSON; the fields below
    are the keys the modelled functions read or write. *)

Record comment := mk_comment {
  c_author : option str;
  c_content : option str;
  c_upvotes : option pyval;
  c_downvotes : option pyval
}.

Record post := mk_post {
  url : option str;
  platform : option str;
  title : option str;
  content : option str;
  author : option str;
  created_at : option str;
  comments : option (list comment)
}.

Definition set_title (p : post) (v : str) : post :=
  mk_post (url p) (platform p) (Some v) (content p) (author p)
          (created_at p) (comments p).

Definition set_content (p : post) (v : str) : post :=
  mk_post (url p) (platform p) (title p) (Some v) (author p)
          (created_at p) (comments p).

Definition set_comments (p : post) (v : list comment) : post :=
  mk_post (url p) (platform p) (title p) (content p) (author p)
          (created_at p) (Some v).

Definition set_c_content (c : comment) (v : str) : comment :=
  mk_comment (c_author c) (Some v) (c_upvotes c) (c_downvotes c).

(** [len(post.get('comments', []))] *)
Definition get_comments (p : post) : list comment := default [] (comments p).

(** ** utils/helpers.py *)

Module helpers.

Definition LT : char := 60%N.
Definition GT : char := 62%N.
Definition SPACE : char := 32%N.

(** The text after the first ['>'] of [s], if there is one. *)
Fixpoint after_gt (s : str) : option str :=
  match s with
  | [] => None
  | c :: s' => if (c =? GT)%N then Some s' else after_gt s'
  end.

(** A match of [<[^>]+>] that starts at the character [c] followed by
    [s]: [c] is ['<'], the next character is not ['>'], and a ['>']
    follows later; the result is the text after the match. *)
Definition tag_match (c : char) (s : str) : option str :=
  if (c =? LT)%N then
    match s with
    | d :: s' => if (d =? GT)%N then None else after_gt s'
    | [] => None
    end
  else None.

Definition inspect {A} (a : A) : {b | a = b} := exist _ a eq_refl.

(** [re.sub(r'<[^>]+>', '', text)]: scan from the left; where the pattern
    matches, skip the match, otherwise keep the character. *)
Equations? sub_tags (s : str) : str by wf (length s) lt :=
  sub_tags [] := [];
  sub_tags (c :: s) with inspect (tag_match c s) := {
    | exist _ (Some r) _ := sub_tags r;
    | exist _ None _ := c :: sub_tags s }.
Proof.
  assert (Hgt : forall t u, after_gt t = Some u -> length u < length t).
  { induction t as [|x t IH]; intros u; simpl; [discriminate|].
    destruct (x =? GT)%N; [intros [= <-]; lia|].
    intros H. apply IH in H. lia. }
  unfold tag_match in e. destruct (c =? LT)%N; [|discriminate].
  destruct s as [|d s']; [discriminate|].
  destruct (d =? GT)%N; [discriminate|].
  apply Hgt in e. simpl. lia.
Qed.

(** [re.sub(r'\s+', ' ', text)]; [in_run] tells that the previous
    character belonged to the run of white space being replaced. *)
Fixpoint sub_spaces (in_run : bool) (s : str) : str :=
  match s with
  | [] => []
  | c :: s' =>
    if isspace c then
      if in_run then sub_spaces true s' else SPACE :: sub_spaces true s'
    else c :: sub_spaces false s'
  end.

Fixpoint lstrip (s : str) : str :=
  match s with
  | [] => []
  | c :: s' => if isspace c then lstrip s' else s
  end.

Definition rstrip (s : str) : str := rev (lstrip (rev s)).

Definition strip (s : str) : str := rstrip (lstrip s).

(** [clean_text(text)] with the default [remove_newlines=False]. *)
Definition clean_text (text : str) : str :=
  if negb (truthy text) then []
  else strip (sub_spaces false (sub_tags text)).

(** [s.replace(old, new)] for a one-character [old]. *)
Definition replace_char (old : char) (new : str) (s : str) : str :=
  flat_map (fun c => if (c =? old)%N then new else [c]) s.

(** [clean_text(text, remove_newlines)] *)
Definition clean_text_remove_newlines (text : str) (remove_newlines : bool)
  : str :=
  if negb (truthy text) then []
  else
    let text1 := sub_tags text in
    let text2 := sub_spaces false text1 in
    let text3 :=
      if remove_newlines
      then replace_char 13 [] (replace_char 10 [SPACE] text2)
      else text2 in
    strip text3.

(** [truncate_text(text, max_length, suffix)] *)
Definition truncate_text (text : str) (max_length : Z) (suffix : str) : str :=
  if negb (truthy text) || (Z.of_nat (length text) <=? max_length)%Z then text
  else slice_to text (max_length - Z.of_nat (length suffix)) ++ suffix.

End helpers.

(** ** analytics/data_cleaner.py *)

Module data_cleaner.
Import helpers.

Section DataCleaner.
Context `{PyLib}.

(** [self.stats] *)
Record stats := mk_stats {
  total_posts : nat;
  removed_duplicates : nat;
  cleaned_comments : nat;
  invalid_removed : nat
}.

(** [DataCleaner.__init__] *)
Definition __init__ : stats := mk_stats 0 0 0 0.

Definition set_total_posts (st : stats) (n : nat) : stats :=
  mk_stats n (removed_duplicates st) (cleaned_comments st) (invalid_removed st).

Definition set_removed_duplicates (st : stats) (n : nat) : stats :=
  mk_stats (total_posts st) n (cleaned_comments st) (invalid_removed st).

Definition set_cleaned_comments (st : stats) (n : nat) : stats :=
  mk_stats (total_posts st) (removed_duplicates st) n (invalid_removed st).

Definition set_invalid_removed (st : stats) (n : nat) : stats :=
  mk_stats (total_posts st) (removed_duplicates st) (cleaned_comments st) n.

(** [try: comment[field] = int(comment[field])
     except (ValueError, TypeError): comment[field] = 0] *)
Definition int_or_zero (v : pyval) : pyval :=
  match v with
  | PyInt z => PyInt z
  | PyStr s => PyInt (default 0%Z (int_of_str s))
  | PyNone => PyInt 0
  end.

(** The body of the loop of [_clean_comments]: [None] when the comment is
    skipped by [continue]. *)
Definition clean_comment (c : comment) : option comment :=
  let c1 := match c_content c with
            | Some t => set_c_content c (clean_text t)
            | None => c
            end in
  if negb (truthy (get_str (c_content c1))) then None
  else Some (mk_comment (c_author c1) (c_content c1)
                        (int_or_zero <$> c_upvotes c1)
                        (int_or_zero <$> c_downvotes c1)).

Definition _clean_comments (cs : list comment) : list comment :=
  omap clean_comment cs.

(** [if 'comments' in post and post['comments']: ...], shared by the two
    cleaning paths. *)
Definition clean_post_comments (p : post) (st : stats) : post * stats :=
  match comments p with
  | Some (c :: cs) =>
    let cleaned := _clean_comments (c :: cs) in
    (set_comments p cleaned,
     set_cleaned_comments st (cleaned_comments st + length cleaned))
  | _ => (p, st)
  end.

(** First loop of [_clean_with_python]; the state is
    [(seen_urls, unique_posts, stats)]. *)
Definition dedup_step (acc : gset (list N) * list post * stats) (p : post)
  : gset (list N) * list post * stats :=
  let '(seen_urls, unique_posts, st) := acc in
  let u := get_str (url p) in
  if truthy u && bool_decide (u ∉ seen_urls)
  then ({[u]} ∪ seen_urls, unique_posts ++ [p], st)
  else (seen_urls, unique_posts,
        set_removed_duplicates st (removed_duplicates st + 1)).

(** Second loop of [_clean_with_python]: the cleaning of the text
    fields, the test of the required fields, and the body of the loop on
    the state [(cleaned_posts, stats)]. *)
Definition clean_fields (p : post) : post :=
  let p1 := match title p with
            | Some t => set_title p (clean_text t)
            | None => p
            end in
  match content p1 with
  | Some t => set_content p1 (clean_text t)
  | None => p1
  end.

Definition missing_required (p : post) : bool :=
  negb (truthy (get_str (title p))) || negb (truthy (get_str (url p))).

Definition clean_step (acc : list post * stats) (p : post)
  : list post * stats :=
  let '(cleaned_posts, st) := acc in
  let p2 := clean_fields p in
  if missing_required p2
  then (cleaned_posts, set_invalid_removed st (invalid_removed st + 1))
  else
    let '(p3, st3) := clean_post_comments p2 st in
    (cleaned_posts ++ [p3], st3).

Definition _clean_with_python (posts : list post) (st : stats)
  : list post * stats :=
  let '(_, unique_posts, st1) := fold_left dedup_step posts (∅, [], st) in
  fold_left clean_step unique_posts ([], st1).

(** The rows of the data frame; the other columns ([platform], [author],
    [created_at]) do not influence the result. *)
Record row := mk_row {
  r_url : str;
  r_title : str;
  r_content : str
}.

Definition basic_fields (posts : list post) : list row :=
  map (fun p => mk_row (get_str (url p)) (get_str (title p))
                       (get_str (content p))) posts.

(** [df.unique(subset=['url'], keep='first')]: for every url the first
    row that carries it.  Polars does not promise the order of the rows
    that remain; the code only uses their number and their urls. *)
Fixpoint unique_first (seen : list (list N)) (df : list row) : list row :=
  match df with
  | [] => []
  | r :: df' =>
    if bool_decide (r_url r ∈ seen) then unique_first seen df'
    else r :: unique_first (r_url r :: seen) df'
  end.

(** [lambda x: clean_text(str(x)) if x else ''] *)
Definition clean_cell (x : str) : str :=
  if truthy x then clean_text x else [].

Definition with_cleaned_columns (df : list row) : list row :=
  map (fun r => mk_row (r_url r) (clean_cell (r_title r))
                       (clean_cell (r_content r))) df.

Definition filter_valid (df : list row) : list row :=
  filter (fun r => (0 <? length (r_title r)) && (0 <? length (r_url r))) df.

(** The loop that turns the frame back into posts; the state is
    [(cleaned_posts, stats)]. *)
Definition collect_step (cleaned_urls : list (list N))
  (acc : list post * stats) (p : post) : list post * stats :=
  let '(cleaned_posts, st) := acc in
  match url p with
  | Some u =>
    if bool_decide (u ∈ cleaned_urls) then
      let '(p1, st1) := clean_post_comments p st in
      (cleaned_posts ++ [p1], st1)
    else (cleaned_posts, st)
  | None => (cleaned_posts, st)
  end.

(** [_clean_with_polars].  The frame is modelled by the list of its
    rows.  [pl.DataFrame([])] has no columns, so that on an empty batch
    the operations on the columns ['url'] and ['title'] raise
    [ColumnNotFoundError]: the result is [None]. *)
Definition _clean_with_polars (posts : list post) (st : stats)
  : option (list post * stats) :=
  match posts with
  | [] => None
  | _ =>
    let df := basic_fields posts in
    let df1 := unique_first [] df in
    let st1 := set_removed_duplicates st (length df - length df1) in
    let df2 := with_cleaned_columns df1 in
    let df3 := filter_valid df2 in
    let st2 := set_invalid_removed st1 (length df2 - length df3) in
    let cleaned_urls := map r_url df3 in
    Some (fold_left (collect_step cleaned_urls) posts ([], st2))
  end.

(** [clean_posts]; [POLARS_AVAILABLE] is the module-level flag set when
    the import of polars succeeds. *)
Definition clean_posts (POLARS_AVAILABLE : bool) (posts : list post)
  (st : stats) : option (list post * stats) :=
  let st0 := set_total_posts st (length posts) in
  if POLARS_AVAILABLE then _clean_with_polars posts st0
  else Some (_clean_with_python posts st0).

End DataCleaner.
End data_cleaner.

(** ** config/config.py *)

Module config.

Definition MIN_COMMENTS_PER_POST : nat := 50.
Definition MIN_POSTS_REQUIRED : nat := 18.

Definition KEYWORDS_primary : list (list N) := map utf8
  ["ChatGPT"; "GPT"; "大模型"; "大语言模型"; "AI"; "人工智能";
   "文心一言"; "通义千问"; "讯飞星火"; "Claude"; "Gemini"]%string.

Definition KEYWORDS_secondary : list (list N) := map utf8
  ["程序员"; "开发"; "工程师"; "IT"; "技术"; "编程";
   "就业"; "失业"; "岗位"; "职位"; "工作"; "求职";
   "技能"; "能力"; "学习"; "转型"]%string.

Definition KEYWORDS_exclude : list (list N) := map utf8
  ["招聘广告"; "售卖"; "推广"; "课程售卖"]%string.

End config.

(** ** ai_search/relevance_evaluator.py *)

Module relevance_evaluator.

Record RelevanceScore := mk_RelevanceScore {
  rs_url : list N;
  score : Q;
  is_relevant : bool;
  reasons : list (list N);
  confidence : Q
}.

(** [self.evaluation_criteria] *)
Record evaluation_criteria := mk_criteria {
  primary_keywords : list (list N);
  secondary_keywords : list (list N);
  exclude_keywords : list (list N)
}.

(** [RelevanceEvaluator.__init__] *)
Definition __init__ : evaluation_criteria :=
  mk_criteria config.KEYWORDS_primary config.KEYWORDS_secondary
              config.KEYWORDS_exclude.

Section RelevanceEvaluator.
Context `{PyLib}.

(** [title + ' ' + content], both lowered. *)
Definition full_text (post_data : post) : list N :=
  lower (get_str (title post_data)) ++ [helpers.SPACE]
  ++ lower (get_str (content post_data)).

(** [kw.lower() in full_text] *)
Definition kw_in (text : list N) (kw : list N) : bool := str_in (lower kw) text.

(** The body of the two matching loops, on the state [(matches, score)]:
    [if kw.lower() in full_text: matches.append(kw); score += weight]. *)
Definition match_step (weight : Q) (text : list N)
  (acc : list (list N) * Q) (kw : list N) : list (list N) * Q :=
  if kw_in text kw then (acc.1 ++ [kw], (acc.2 + weight)%Q) else acc.

Definition evaluate_post_simple (self : evaluation_criteria)
  (post_data : post) : RelevanceScore :=
  let text := full_text post_data in
  match find (kw_in text) (exclude_keywords self) with
  | Some exclude_kw =>
    mk_RelevanceScore (get_str (url post_data)) 0 false
      [utf8 "包含排除关键词: " ++ exclude_kw] 0.9
  | None =>
    let '(primary_matches, score1) :=
      fold_left (match_step 0.4 text) (primary_keywords self) ([], 0%Q) in
    let reasons1 :=
      match primary_matches with
      | [] => []
      | _ => [utf8 "匹配主关键词: " ++ join (utf8 ", ") primary_matches]
      end in
    let '(secondary_matches, score2) :=
      fold_left (match_step 0.1 text) (secondary_keywords self) ([], score1) in
    let reasons2 :=
      match secondary_matches with
      | [] => reasons1
      | _ => reasons1 ++ [utf8 "匹配次关键词: "
                          ++ join (utf8 ", ") (take 5 secondary_matches)]
      end in
    let score3 := py_min score2 1 in
    let relevant := Qle_bool 0.5 score3 in
    let reasons3 :=
      match reasons2 with
      | [] => [utf8 "未找到相关关键词"]
      | _ => reasons2
      end in
    mk_RelevanceScore (get_str (url post_data)) score3 relevant reasons3 0.7
  end.

(** [helpers.calculate_relevance_score], the second keyword scorer of the
    repository (no caller uses it). *)
Definition calculate_relevance_score (text : list N)
  (primary secondary : list (list N)) (exclude : option (list (list N))) : Q :=
  if negb (truthy text) then 0%Q
  else
    let text_lower := lower text in
    if existsb (kw_in text_lower) (default [] exclude) then 0%Q
    else
      let primary_matches := count_if (kw_in text_lower) primary in
      let score1 :=
        if (0 <? primary_matches)%nat
        then (py_min (Qnat primary_matches / Qnat (length primary)) 1 * 0.6)%Q
        else 0%Q in
      let secondary_matches := count_if (kw_in text_lower) secondary in
      let score2 :=
        if (0 <? secondary_matches)%nat
        then (score1
              + py_min (Qnat secondary_matches / Qnat (length secondary)) 1
                * 0.4)%Q
        else score1 in
      py_min score2 1.

(** The characters that a Rocq string literal cannot hold. *)
Definition QUOTE : list N := [34%N].
Definition NEWLINE : list N := [10%N].

(** [_generate_evaluation_prompt]: the f-string, line by line. *)
Definition _generate_evaluation_prompt (post_data : post) : list N :=
  let v_title := get_str (title post_data) in
  let v_content := slice_to (get_str (content post_data)) 500 in
  NEWLINE
  ++ utf8 "请评估以下帖子是否与" ++ QUOTE ++ utf8 "大模型对IT行业就业岗位和职业技能的影响" ++ QUOTE ++ utf8 "这个主题相关。" ++ NEWLINE
  ++ NEWLINE
  ++ utf8 "【帖子信息】" ++ NEWLINE
  ++ utf8 "- 标题: " ++ v_title ++ NEWLINE
  ++ utf8 "- 内容摘要: " ++ v_content ++ NEWLINE
  ++ NEWLINE
  ++ utf8 "【评估标准】" ++ NEWLINE
  ++ utf8 "1. 是否明确讨论大模型/AI（如ChatGPT、GPT、Claude等）？" ++ NEWLINE
  ++ utf8 "2. 是否涉及IT行业从业者（程序员、开发者、工程师）？" ++ NEWLINE
  ++ utf8 "3. 是否讨论了岗位变化、就业影响或技能要求？" ++ NEWLINE
  ++ NEWLINE
  ++ utf8 "【输出格式】" ++ NEWLINE
  ++ utf8 "请以JSON格式输出评估结果：" ++ NEWLINE
  ++ utf8 "{" ++ NEWLINE
  ++ utf8 "  " ++ QUOTE ++ utf8 "is_relevant" ++ QUOTE ++ utf8 ": true/false," ++ NEWLINE
  ++ utf8 "  " ++ QUOTE ++ utf8 "score" ++ QUOTE ++ utf8 ": 0.0-1.0," ++ NEWLINE
  ++ utf8 "  " ++ QUOTE ++ utf8 "reasons" ++ QUOTE ++ utf8 ": [" ++ QUOTE
     ++ utf8 "原因1" ++ QUOTE ++ utf8 ", " ++ QUOTE ++ utf8 "原因2" ++ QUOTE
     ++ utf8 "]," ++ NEWLINE
  ++ utf8 "  " ++ QUOTE ++ utf8 "confidence" ++ QUOTE ++ utf8 ": 0.0-1.0" ++ NEWLINE
  ++ utf8 "}" ++ NEWLINE
  ++ NEWLINE
  ++ utf8 "注意：如果帖子只是广告、推广或课程售卖，应标记为不相关。" ++ NEWLINE.

(** The dictionary that [evaluate_post_ai_assisted] returns in place of a
    score. *)
Record ai_request := mk_ai_request {
  needs_ai_evaluation : bool;
  prompt : list N;
  ai_post_data : post
}.

Definition evaluate_post_ai_assisted (post_data : post) : ai_request :=
  mk_ai_request true (_generate_evaluation_prompt post_data) post_data.

(** [batch_evaluate]: the body of the loop over the posts appends to
    [results] for the two known methods and does nothing for any other
    value of [method]. *)
Definition batch_step (self : evaluation_criteria) (method : list N)
  (results : list (RelevanceScore + ai_request)) (post : post)
  : list (RelevanceScore + ai_request) :=
  if bool_decide (method = utf8 "simple")
  then results ++ [inl (evaluate_post_simple self post)]
  else if bool_decide (method = utf8 "ai_assisted")
  then results ++ [inr (evaluate_post_ai_assisted post)]
  else results.

Definition batch_evaluate (self : evaluation_criteria) (posts : list post)
  (method : list N) : list (RelevanceScore + ai_request) :=
  fold_left (batch_step self method) posts [].

End RelevanceEvaluator.
End relevance_evaluator.

(** ** analytics/quality_analyzer.py *)

Module quality_analyzer.
Import config.

Record checks := mk_checks {
  meets_min_posts : bool;
  meets_min_comments : bool;
  has_time_info : Q;
  has_author_info : Q;
  avg_content_length : Q;
  overall_quality_score : Q
}.

(** [sum(1 for p in posts if cond(p)) / len(posts) * 100 if posts else 0] *)
Definition percentage (cond : post -> bool) (posts : list post) : Q :=
  match posts with
  | [] => 0%Q
  | _ => (Qnat (count_if cond posts) / Qnat (length posts) * 100)%Q
  end.

Definition has_created_at (p : post) : bool := truthy (get_str (created_at p)).
Definition has_author (p : post) : bool := truthy (get_str (author p)).
Definition enough_comments (p : post) : bool :=
  (MIN_COMMENTS_PER_POST <=? length (get_comments p))%nat.

Definition _perform_quality_checks (posts : list post) : checks :=
  let c_posts := (MIN_POSTS_REQUIRED <=? length posts)%nat in
  let c_comments :=
    (MIN_POSTS_REQUIRED <=? count_if enough_comments posts)%nat in
  let c_time := percentage has_created_at posts in
  let c_author := percentage has_author posts in
  let c_length :=
    match posts with
    | [] => 0%Q
    | _ => (Qnat (list_sum (map (fun p => length (get_str (content p))) posts))
            / Qnat (length posts))%Q
    end in
  let score0 := 0%Q in
  let score1 := if c_posts then (score0 + 30)%Q else score0 in
  let score2 := if c_comments then (score1 + 30)%Q else score1 in
  let score3 := (score2 + py_min (c_time * 0.2) 20)%Q in
  let score4 := (score3 + py_min (c_author * 0.2) 20)%Q in
  mk_checks c_posts c_comments c_time c_author c_length (py_round score4 2).

(** [_analyze_basic_stats] *)
Record basic_stats := mk_basic_stats {
  total_posts : nat;
  valid_posts : nat;
  total_comments : nat;
  avg_comments_per_post : Q;
  min_comments : nat;
  max_comments : nat
}.

(** [len(post.get('comments', []))] *)
Definition n_comments (p : post) : nat := length (get_comments p).

(** [min(xs, default=0)] and [max(xs, default=0)] *)
Definition min_default (xs : list nat) : nat :=
  match xs with
  | [] => 0
  | x :: r => fold_left Nat.min r x
  end.

Definition max_default (xs : list nat) : nat :=
  match xs with
  | [] => 0
  | x :: r => fold_left Nat.max r x
  end.

Definition _analyze_basic_stats (posts : list post) : basic_stats :=
  let n_posts := length posts in
  let n_total := list_sum (map n_comments posts) in
  let valid := filter (fun p => enough_comments p = true) posts in
  mk_basic_stats n_posts (length valid) n_total
    (if (0 <? n_posts)%nat then (Qnat n_total / Qnat n_posts)%Q else 0%Q)
    (min_default (map n_comments posts))
    (max_default (map n_comments posts)).

(** [Counter(keys)]: a dictionary from keys to counts, in the order in
    which the keys first appear. *)
Fixpoint counter_add (k : list N) (c : list (list N * nat))
  : list (list N * nat) :=
  match c with
  | [] => [(k, 1)]
  | (k', n) :: r =>
    if bool_decide (k' = k) then (k', S n) :: r else (k', n) :: counter_add k r
  end.

Definition Counter (keys : list (list N)) : list (list N * nat) :=
  fold_left (fun c k => counter_add k c) keys [].

(** [_analyze_platform_distribution] *)
Record platform_distribution := mk_platform_distribution {
  platforms : list (list N * nat);
  platform_percentages : list (list N * Q)
}.

Definition _analyze_platform_distribution (posts : list post)
  : platform_distribution :=
  let platform_counts :=
    Counter (map (fun p => default (utf8 "unknown") (platform p)) posts) in
  mk_platform_distribution platform_counts
    match posts with
    | [] => []
    | _ => map (fun '(pl, count) =>
                  (pl, (Qnat count / Qnat (length posts) * 100)%Q))
               platform_counts
    end.

(** [_analyze_comment_stats].  The keys [min_length], [max_length] and
    [high_quality_percentage] are absent from the result for a corpus
    without comments. *)
Record comment_stats := mk_comment_stats {
  cs_total_comments : nat;
  avg_length : Q;
  min_length : option nat;
  max_length : option nat;
  high_quality_count : nat;
  high_quality_percentage : option Q
}.

(** [c.get('upvotes', 0) > 10 and len(c.get('content', '')) > 50];
    [None] stands for the [TypeError] of comparing a string or [None]
    with a number. *)
Definition high_quality (c : comment) : option bool :=
  match default (PyInt 0) (c_upvotes c) with
  | PyInt z => Some ((10 <? z)%Z && (50 <? length (get_str (c_content c)))%nat)
  | _ => None
  end.

(** [len([c for c in all_comments if ...])] *)
Fixpoint count_high_quality (all_comments : list comment) : option nat :=
  match all_comments with
  | [] => Some 0
  | c :: r =>
    hq ← high_quality c;
    n ← count_high_quality r;
    Some (if hq : bool then S n else n)
  end.

Definition _analyze_comment_stats (posts : list post) : option comment_stats :=
  let all_comments := flat_map get_comments posts in
  match all_comments with
  | [] => Some (mk_comment_stats 0 0 None None 0 None)
  | c0 :: rest =>
    let comment_lengths :=
      map (fun c => length (get_str (c_content c))) all_comments in
    n_high ← count_high_quality all_comments;
    Some (mk_comment_stats
            (length all_comments)
            (Qnat (list_sum comment_lengths) / Qnat (length comment_lengths))
            (Some (min_default comment_lengths))
            (Some (max_default comment_lengths))
            n_high
            (Some (Qnat n_high / Qnat (length all_comments) * 100)%Q))
  end.

Section KeywordCoverage.
Context `{PyLib}.

(** [d[kw] += 1] on a dictionary of counts *)
Fixpoint incr (kw : list N) (d : list (list N * nat)) : list (list N * nat) :=
  match d with
  | [] => []
  | (k, n) :: r =>
    if bool_decide (k = kw) then (k, S n) :: r else (k, n) :: incr kw r
  end.

(** The loop over one list of keywords for one text:
    [if kw.lower() in text: matches[kw] += 1]. *)
Definition count_matches (text : list N) (kws : list (list N))
  (matches : list (list N * nat)) : list (list N * nat) :=
  fold_left (fun m kw => if str_in (lower kw) text then incr kw m else m)
            kws matches.

(** [(post.get('title', '') + ' ' + post.get('content', '')).lower()] *)
Definition post_text (p : post) : list N :=
  lower (get_str (title p) ++ [helpers.SPACE] ++ get_str (content p)).

Record keyword_coverage := mk_keyword_coverage {
  primary_keyword_matches : list (list N * nat);
  secondary_keyword_matches : list (list N * nat);
  posts_with_primary : nat;
  posts_with_secondary : nat
}.

Definition _analyze_keyword_coverage (posts : list post) : keyword_coverage :=
  let primary0 := map (fun kw => (kw, 0)) KEYWORDS_primary in
  let secondary0 := map (fun kw => (kw, 0)) KEYWORDS_secondary in
  let '(primary_matches, secondary_matches) :=
    fold_left (fun '(pm, sm) p =>
                 (count_matches (post_text p) KEYWORDS_primary pm,
                  count_matches (post_text p) KEYWORDS_secondary sm))
              posts (primary0, secondary0) in
  mk_keyword_coverage primary_matches secondary_matches
    (count_if (fun kv => (0 <? kv.2)%nat) primary_matches)
    (count_if (fun kv => (0 <? kv.2)%nat) secondary_matches).

End KeywordCoverage.

End quality_analyzer.

(** ** scripts/text_analysis.py *)

Module text_analysis.

Definition SENTIMENT_WORDS_positive_en : list (list N) := map utf8
  ["good"; "great"; "excellent"; "amazing"; "awesome"; "fantastic";
   "wonderful"; "helpful"; "useful"; "beneficial"; "opportunity";
   "opportunities"; "advantage"; "improve"; "better"; "best"; "love";
   "like"; "enjoy"; "happy"; "excited"; "optimistic"; "positive"; "hope";
   "hopeful"; "promising"; "success"; "successful"; "efficient";
   "productivity"; "innovative"; "creative"; "smart"; "intelligent";
   "powerful"; "capable"; "effective"; "valuable"; "progress"; "advance";
   "growth"; "assist"; "assistance"; "support"; "enhance"; "boost";
   "augment"; "empower"]%string.

Definition SENTIMENT_WORDS_positive_zh : list (list N) := map utf8
  ["好"; "很好"; "非常好"; "优秀"; "出色"; "棒"; "厉害"; "有用"; "有帮助"; "有益"; "机会"; "优势";
   "改善"; "提升"; "进步"; "喜欢"; "开心"; "兴奋"; "乐观"; "积极"; "希望"; "有前途"; "成功"; "高效";
   "创新"; "创造"; "强大"; "有效"; "有价值"; "辅助"; "支持"; "增强"; "赋能"; "解放";
   "效率"]%string.

Definition SENTIMENT_WORDS_negative_en : list (list N) := map utf8
  ["bad"; "terrible"; "awful"; "horrible"; "worst"; "hate"; "dislike";
   "angry"; "sad"; "worried"; "worry"; "concern"; "concerned"; "fear";
   "afraid"; "scary"; "threat"; "threaten"; "threatening"; "danger";
   "dangerous"; "risk"; "risky"; "replace"; "replacement"; "obsolete";
   "useless"; "worthless"; "unemployed"; "unemployment"; "layoff";
   "layoffs"; "fired"; "lose"; "lost"; "losing"; "pessimistic"; "negative";
   "doom"; "doomed"; "fail"; "failure"; "difficult"; "hard"; "struggle";
   "struggling"; "crisis"; "problem"; "problems"; "issue"; "issues";
   "decline"; "decrease"; "drop"; "fall"; "crash"; "collapse"]%string.

Definition SENTIMENT_WORDS_negative_zh : list (list N) := map utf8
  ["差"; "糟糕"; "可怕"; "恐怖"; "最差"; "讨厌"; "生气"; "难过"; "担心"; "担忧"; "焦虑"; "恐惧";
   "害怕"; "威胁"; "危险"; "风险"; "取代"; "替代"; "淘汰"; "过时"; "无用"; "失业"; "裁员"; "被裁";
   "失去"; "悲观"; "消极"; "末日"; "失败"; "困难"; "艰难"; "挣扎"; "危机"; "问题"; "下降"; "减少";
   "崩溃"; "内卷"; "卷"]%string.

(** [SENTIMENT_WORDS]: for each polarity, the word list of each
    language. *)
Definition SENTIMENT_WORDS_positive : list (list N * list (list N)) :=
  [(utf8 "en", SENTIMENT_WORDS_positive_en);
   (utf8 "zh", SENTIMENT_WORDS_positive_zh)].

Definition SENTIMENT_WORDS_negative : list (list N * list (list N)) :=
  [(utf8 "en", SENTIMENT_WORDS_negative_en);
   (utf8 "zh", SENTIMENT_WORDS_negative_zh)].

(** [d.get(key, [])] on a dictionary with string keys. *)
Fixpoint dict_get (d : list (list N * list (list N))) (key : list N)
  : list (list N) :=
  match d with
  | [] => []
  | (k, v) :: d' => if bool_decide (k = key) then v else dict_get d' key
  end.

Inductive sentiment_label := positive | negative | neutral.

Record sentiment := mk_sentiment {
  s_score : Q;
  s_label : sentiment_label;
  positive_count : nat;
  negative_count : nat
}.

(** [extract_topics]: the keywords of the six topics, in the order of the
    dictionary [topics], for English and for every other language. *)
Definition topic_keywords_en : list (list N * list (list N)) :=
  [(utf8 "job_replacement",
    map utf8 ["replace"; "replacement"; "obsolete"; "automate"; "automation";
              "layoff"; "unemployed"]%string);
   (utf8 "skill_requirements",
    map utf8 ["skill"; "skills"; "learn"; "learning"; "adapt"; "knowledge";
              "experience"]%string);
   (utf8 "career_development",
    map utf8 ["career"; "job"; "hire"; "hiring"; "junior"; "senior"; "entry";
              "promotion"]%string);
   (utf8 "ai_tools",
    map utf8 ["chatgpt"; "gpt"; "copilot"; "claude"; "cursor"; "tool";
              "assistant"; "llm"]%string);
   (utf8 "industry_impact",
    map utf8 ["industry"; "market"; "company"; "tech"; "software";
              "developer"; "programmer"]%string);
   (utf8 "emotional_response",
    map utf8 ["worry"; "fear"; "concern"; "hope"; "optimistic";
              "pessimistic"; "anxious"]%string)].

Definition topic_keywords_zh : list (list N * list (list N)) :=
  [(utf8 "job_replacement",
    map utf8 ["取代"; "替代"; "淘汰"; "自动化"; "裁员"; "失业"]%string);
   (utf8 "skill_requirements",
    map utf8 ["技能"; "学习"; "适应"; "知识"; "经验"; "能力"]%string);
   (utf8 "career_development",
    map utf8 ["职业"; "工作"; "招聘"; "初级"; "高级"; "晋升"; "发展"]%string);
   (utf8 "ai_tools",
    map utf8 ["chatgpt"; "gpt"; "copilot"; "claude"; "工具"; "助手"; "大模型"]%string);
   (utf8 "industry_impact",
    map utf8 ["行业"; "市场"; "公司"; "技术"; "软件"; "开发"; "程序员"]%string);
   (utf8 "emotional_response",
    map utf8 ["担心"; "焦虑"; "恐惧"; "希望"; "乐观"; "悲观"]%string)].

(** An entry of [topics]: [{'keywords': ..., 'count': ...}]. *)
Record topic := mk_topic {
  keywords : list (list N);
  count : nat
}.

Section TextAnalysis.
Context `{PyLib}.

(** [sum(1 for word in words if word in text_lower)] *)
Definition hits (words : list (list N)) (text_lower : list N) : nat :=
  count_if (fun word => str_in word text_lower) words.

Definition analyze_sentiment (text language : list N) : sentiment :=
  let text_lower := lower text in
  let positive_words := dict_get SENTIMENT_WORDS_positive language in
  let negative_words := dict_get SENTIMENT_WORDS_negative language in
  let positive_count := hits positive_words text_lower in
  let negative_count := hits negative_words text_lower in
  let total := (positive_count + negative_count)%nat in
  let '(sentiment_score, sentiment_label) :=
    if (total =? 0)%nat then (0%Q, neutral)
    else
      let sc := ((Qnat positive_count - Qnat negative_count) / Qnat total)%Q in
      if Qlt_le_dec 0.2 sc then (sc, positive)
      else if Qlt_le_dec sc (-0.2) then (sc, negative)
      else (sc, neutral) in
  mk_sentiment (py_round sentiment_score 3) sentiment_label
               positive_count negative_count.

(** The dictionary [topics] before the loop over the texts. *)
Definition initial_topics (language : list N) : list (list N * topic) :=
  map (fun '(name, kws) => (name, mk_topic kws 0))
      (if bool_decide (language = utf8 "en") then topic_keywords_en
       else topic_keywords_zh).

(** The loop over the topics for one text: the count of a topic goes up
    by one at its first keyword found in the text ([break]). *)
Definition count_topics (text_lower : list N) (topics : list (list N * topic))
  : list (list N * topic) :=
  map (fun '(name, data) =>
         (name,
          if existsb (fun keyword => str_in keyword text_lower) (keywords data)
          then mk_topic (keywords data) (count data + 1)
          else data))
      topics.

Definition extract_topics (texts : list (list N)) (language : list N)
  : list (list N * topic) :=
  fold_left (fun topics text => count_topics (lower text) topics) texts
            (initial_topics language).

End TextAnalysis.
End text_analysis.

(** ** analytics/text_analyzer.py *)

Module text_analyzer.




Section TextAnalyzer.
Context `{PyLib}.




End TextAnalyzer.
End text_analyzer.

(** ** models/comment.py and models/post.py

    The Pydantic models; the timestamps are kept as the ISO strings they
    are built from. *)

Module models.

Record Comment := mk_Comment {
  content : list N;
  author : list N;
  author_url : option (list N);
  comment_url : option (list N);
  upvotes : Z;
  downvotes : Z;
  created_at : option (list N);
  created_at_text : option (list N);
  is_author_reply : bool;
  reply_to : option (list N);
  sentiment_score : option Q;
  contains_keywords : option bool
}.

Record PostMetadata := mk_PostMetadata {
  view_count : Z;
  follow_count : Z;
  upvote_count : Z;
  comment_count : Z
}.

Record Post := mk_Post {
  platform : list N;
  post_type : list N;
  url : list N;
  title : list N;
  post_content : option (list N);
  post_author : option (list N);
  post_author_url : option (list N);
  post_created_at : option (list N);
  scraped_at : list N;
  metadata : PostMetadata;
  comments : list Comment;
  is_relevant : option bool;
  relevance_note : option (list N)
}.

(** [PostMetadata()], the [default_factory] of [Post.metadata]. *)
Definition default_metadata : PostMetadata := mk_PostMetadata 0 0 0 0.

Section Post.
Context `{PyLib}.

Definition allowed_platforms : list (list N) :=
  map utf8 ["zhihu"; "v2ex"; "xiaohongshu"; "bilibili"]%string.

Definition allowed_post_types : list (list N) :=
  map utf8 ["question"; "article"; "topic"; "video"]%string.

(** [validate_platform] and [validate_post_type]; [None] stands for the
    [ValueError] that makes the construction fail. *)
Definition validate_platform (v : list N) : option (list N) :=
  if bool_decide (lower v ∈ allowed_platforms) then Some (lower v) else None.

Definition validate_post_type (v : list N) : option (list N) :=
  if bool_decide (lower v ∈ allowed_post_types) then Some (lower v) else None.

(** [Post(platform=..., post_type=..., url=..., title=..., comments=...)]
    with every other field left to its default; [now] is the value of
    [datetime.now()]. *)
Definition new_Post (now v_platform v_post_type v_url v_title : list N)
  (v_comments : list Comment) : option Post :=
  pl ← validate_platform v_platform;
  ty ← validate_post_type v_post_type;
  if (1 <=? length v_title)%nat
  then Some (mk_Post pl ty v_url v_title None None None None now
                     default_metadata v_comments None None)
  else None.

Definition get_comment_count (self : Post) : nat := length (comments self).

Definition set_comment_count (m : PostMetadata) (n : Z) : PostMetadata :=
  mk_PostMetadata (view_count m) (follow_count m) (upvote_count m) n.

Definition set_metadata (self : Post) (m : PostMetadata) : Post :=
  mk_Post (platform self) (post_type self) (url self) (title self)
          (post_content self) (post_author self) (post_author_url self)
          (post_created_at self) (scraped_at self) m (comments self)
          (is_relevant self) (relevance_note self).

(** [self.metadata.comment_count = self.get_comment_count()] *)
Definition update_metadata (self : Post) : Post :=
  set_metadata self
    (set_comment_count (metadata self) (Z.of_nat (get_comment_count self))).

(** [self.comments.append(c)], the mutation of the list of comments. *)
Definition append_comment (self : Post) (c : Comment) : Post :=
  mk_Post (platform self) (post_type self) (url self) (title self)
          (post_content self) (post_author self) (post_author_url self)
          (post_created_at self) (scraped_at self) (metadata self)
          (comments self ++ [c]) (is_relevant self) (relevance_note self).

Definition is_valid_for_analysis (self : Post) (min_comments : nat) : bool :=
  (min_comments <=? get_comment_count self)%nat
  && negb (bool_decide (is_relevant self = Some false)).

End Post.

(** [Comment.validate_content]: the content is stripped, and a content
    that is empty then is refused; [None] stands for the [ValueError]. *)
Definition validate_content (v : list N) : option (list N) :=
  let v := helpers.strip v in
  if (length v =? 0)%nat then None else Some v.

End models.

(** ** scripts/data_merge_and_clean_v3.py *)

Module data_merge_and_clean_v3.

Inductive pyexn := ValueError | TypeError.

(** The outcome of a call that can raise. *)
Inductive result (A : Type) :=
| Returned (a : A)
| Raised (e : pyexn).
Arguments Returned {A} a.
Arguments Raised {A} e.

(** Sequencing of calls that can raise. *)
Definition bind {A B} (r : result A) (f : A -> result B) : result B :=
  match r with
  | Returned a => f a
  | Raised e => Raised e
  end.

(** A loop that appends [f(x)] for every [x] of [l], and stops at the
    first call that raises. *)
Fixpoint map_result {A B} (f : A -> result B) (l : list A) : result (list B) :=
  match l with
  | [] => Returned []
  | x :: r =>
    bind (f x) (fun y => bind (map_result f r) (fun ys => Returned (y :: ys)))
  end.

(** The class [[\x00-\x08\x0b\x0c\x0e-\x1f\x7f]]. *)
Definition is_control (c : N) : bool :=
  ((c <=? 8) || (c =? 11) || (c =? 12) || (14 <=? c) && (c <=? 31)
   || (c =? 127))%N.

(** [clean_text] of this script: white-space runs become one space, the
    control characters are deleted, the ends are stripped. *)
Definition clean_text (text : list N) : list N :=
  if negb (truthy text) then []
  else
    let text1 := helpers.sub_spaces false text in
    let text2 := filter (fun c => is_control c = false) text1 in
    helpers.strip text2.

(** [datetime.strptime] on strings ([None] stands for [ValueError]) and
    [datetime.strftime], from the standard library of Python. *)
Class DateLib := {
  datetime : Type;
  strptime_str : list N -> list N -> option datetime;
  strftime : datetime -> list N -> list N
}.

Section ParseDate.
Context `{PyLib} `{DateLib}.

(** [bool(v)] *)
Definition py_truthy (v : pyval) : bool :=
  match v with
  | PyNone => false
  | PyInt z => negb (z =? 0)%Z
  | PyStr s => truthy s
  end.

(** [datetime.strptime(date_string, format)]: an argument that is not a
    string raises [TypeError]. *)
Definition strptime (date_string : pyval) (format : list N) : result datetime :=
  match date_string with
  | PyStr s =>
    match strptime_str s format with
    | Some dt => Returned dt
    | None => Raised ValueError
    end
  | _ => Raised TypeError
  end.

Definition formats : list (list N) := map utf8
  ["%Y-%m-%dT%H:%M:%S.%fZ"; "%Y-%m-%dT%H:%M:%SZ"; "%Y-%m-%d %H:%M:%S";
   "%Y-%m-%d"; "%Y/%m/%d"]%string.

(** The loop over the formats: [except ValueError: continue] catches only
    [ValueError]; [Returned None] means that the loop ran to its end. *)
Fixpoint try_formats (date_str : pyval) (fmts : list (list N))
  : result (option (list N)) :=
  match fmts with
  | [] => Returned None
  | fmt :: rest =>
    match strptime date_str fmt with
    | Returned dt => Returned (Some (strftime dt (utf8 "%Y-%m-%d")))
    | Raised ValueError => try_formats date_str rest
    | Raised e => Raised e
    end
  end.

(** The class [[-/]]. *)
Definition is_date_sep (c : N) : bool := ((c =? 45) || (c =? 47))%N.

(** [\d{1,2}] at the start of [s]: the group and the rest, for each way
    to match, in the order the regex engine tries them (two digits
    first). *)
Definition one_or_two_digits (s : list N) : list (list N * list N) :=
  match s with
  | a :: b :: r =>
    if isdecimal a
    then if isdecimal b then [([a; b], r); ([a], b :: r)] else [([a], b :: r)]
    else []
  | [a] => if isdecimal a then [([a], [])] else []
  | [] => []
  end.

(** The first element of [l] on which [f] succeeds. *)
Fixpoint first_some {A B} (f : A -> option B) (l : list A) : option B :=
  match l with
  | [] => None
  | x :: l' => match f x with Some y => Some y | None => first_some f l' end
  end.

(** A match of [(\d{4})[-/](\d{1,2})[-/](\d{1,2})] at the start of [s]:
    its three groups. *)
Definition match_ymd (s : list N) : option (list N * list N * list N) :=
  match s with
  | y1 :: y2 :: y3 :: y4 :: sep :: r =>
    if isdecimal y1 && isdecimal y2 && isdecimal y3 && isdecimal y4
       && is_date_sep sep
    then
      first_some (fun '(m, r1) =>
        match r1 with
        | sep2 :: r2 =>
          if is_date_sep sep2
          then match one_or_two_digits r2 with
               | (d, _) :: _ => Some ([y1; y2; y3; y4], m, d)
               | [] => None
               end
          else None
        | [] => None
        end) (one_or_two_digits r)
    else None
  | _ => None
  end.

(** [re.search]: the match at the leftmost position that has one. *)
Fixpoint search_ymd (s : list N) : option (list N * list N * list N) :=
  match match_ymd s with
  | Some g => Some g
  | None => match s with
            | [] => None
            | _ :: s' => search_ymd s'
            end
  end.

(** [g.zfill(width)] for a group of digits. *)
Definition zfill (g : list N) (width : nat) : list N :=
  repeat 48%N (width - length g) ++ g.

Definition parse_date (date_str : pyval) : result (list N) :=
  if negb (py_truthy date_str) then Returned []
  else
    match try_formats date_str formats with
    | Raised e => Raised e
    | Returned (Some out) => Returned out
    | Returned None =>
      match date_str with
      | PyStr s =>
        match search_ymd s with
        | Some (y, m, d) =>
          Returned (y ++ utf8 "-" ++ zfill m 2 ++ utf8 "-" ++ zfill d 2)
        | None => Returned s
        end
      | _ => Raised TypeError
      end
    end.

(** The dictionaries read from the raw files: the keys that the two
    [standardize] functions read.  The values that are only copied are
    kept as they are. *)
Record raw_comment := mk_raw_comment {
  rc_author : option pyval;
  rc_content : option (list N);
  rc_upvotes : option pyval;
  rc_created_at : option pyval
}.

Record raw_post := mk_raw_post {
  rp_id : option pyval;
  rp_url : option (list N);
  rp_title : option (list N);
  rp_content : option (list N);
  rp_author : option pyval;
  rp_created_at : option pyval;
  rp_subreddit : option pyval;
  rp_node : option pyval;
  rp_upvotes : option pyval;
  rp_comments : option (list raw_comment)
}.

(** The dictionaries the two functions build; [sp_subreddit] is the key
    of a Reddit post only, [sp_node] that of a V2EX post only. *)
Record std_comment := mk_std_comment {
  sc_author : pyval;
  sc_content : list N;
  sc_upvotes : pyval;
  sc_created_at : list N;
  sc_platform : list N
}.

Record std_post := mk_std_post {
  sp_id : list N;
  sp_platform : list N;
  sp_title : list N;
  sp_content : list N;
  sp_author : pyval;
  sp_url : list N;
  sp_created_at : list N;
  sp_subreddit : option pyval;
  sp_node : option pyval;
  sp_upvotes : pyval;
  sp_comment_count : nat;
  sp_comments : list std_comment;
  sp_language : list N
}.

(** The built-in [hash] on strings: its values change from one run of
    the interpreter to the next. *)
Context (hash : list N -> Z).

(** The dictionary appended for one comment. *)
Definition standardize_comment (platform : list N) (c : raw_comment)
  : result std_comment :=
  let v_author := default (PyStr []) (rc_author c) in
  let v_content := clean_text (get_str (rc_content c)) in
  let v_upvotes := default (PyInt 0) (rc_upvotes c) in
  bind (parse_date (default (PyStr []) (rc_created_at c))) (fun v_created_at =>
  Returned (mk_std_comment v_author v_content v_upvotes v_created_at platform)).

Definition standardize_reddit_post (post : raw_post) : result std_post :=
  bind (map_result (standardize_comment (utf8 "reddit"))
                   (default [] (rp_comments post))) (fun comments =>
  let v_id :=
    utf8 "reddit_"
    ++ py_str (PyInt (hash (get_str (rp_url post)) mod 100000)) in
  let v_title := clean_text (get_str (rp_title post)) in
  let v_content := clean_text (get_str (rp_content post)) in
  bind (parse_date (default (PyStr []) (rp_created_at post))) (fun v_created_at =>
  Returned (mk_std_post v_id (utf8 "reddit") v_title v_content
              (default (PyStr []) (rp_author post))
              (get_str (rp_url post)) v_created_at
              (Some (default (PyStr []) (rp_subreddit post))) None
              (default (PyInt 0) (rp_upvotes post))
              (length comments) comments (utf8 "en")))).

Definition standardize_v2ex_post (post : raw_post) : result std_post :=
  bind (map_result (standardize_comment (utf8 "v2ex"))
                   (default [] (rp_comments post))) (fun comments =>
  let v_id :=
    utf8 "v2ex_"
    ++ py_str (default (PyInt (hash (get_str (rp_url post)) mod 100000))
                       (rp_id post)) in
  let v_title := clean_text (get_str (rp_title post)) in
  let v_content := clean_text (get_str (rp_content post)) in
  bind (parse_date (default (PyStr []) (rp_created_at post))) (fun v_created_at =>
  Returned (mk_std_post v_id (utf8 "v2ex") v_title v_content
              (default (PyStr []) (rp_author post))
              (get_str (rp_url post)) v_created_at
              None (Some (default (PyStr []) (rp_node post)))
              (default (PyInt 0) (rp_upvotes post))
              (length comments) comments (utf8 "zh")))).

End ParseDate.

(** *** [strptime] and [strftime] on ASCII text, to run the definitions

    The regular expression that [strptime] builds from a format, matched
    with the backtracking of the regex engine, then the checks of the
    [datetime] constructor. *)

Inductive directive :=
| DY | Dm | Dd | DH | DM | DS | Df
| DLit (c : N)
| DSpace.

Fixpoint compile (fmt : list N) : option (list directive) :=
  match fmt with
  | [] => Some []
  | c :: r =>
    if (c =? 37)%N then
      match r with
      | k :: r' =>
        d ← (if (k =? 89)%N then Some DY else if (k =? 109)%N then Some Dm
             else if (k =? 100)%N then Some Dd else if (k =? 72)%N then Some DH
             else if (k =? 77)%N then Some DM else if (k =? 83)%N then Some DS
             else if (k =? 102)%N then Some Df else None);
        ds ← compile r';
        Some (d :: ds)
      | [] => None
      end
    else
      ds ← compile r;
      Some (if isspace c
            then match ds with DSpace :: _ => ds | _ => DSpace :: ds end
            else DLit c :: ds)
  end.

Record date_fields := mk_fields {
  f_year : Z; f_month : Z; f_day : Z; f_hour : Z; f_minute : Z; f_second : Z
}.

Definition digit_val (c : N) : option Z :=
  if isdigit_ascii c then Some (Z.of_N (c - 48)) else None.

(** The number read from [w] digits at the start of [s] when it lies in
    [lo..hi], with the rest of [s]. *)
Fixpoint read_digits (w : nat) (acc : Z) (s : list N) : option (Z * list N) :=
  match w with
  | O => Some (acc, s)
  | S w' =>
    match s with
    | c :: r => v ← digit_val c; read_digits w' (acc * 10 + v) r
    | [] => None
    end
  end.

Definition number (w : nat) (lo hi : Z) (s : list N) : list (Z * list N) :=
  match read_digits w 0 s with
  | Some (v, r) => if ((lo <=? v) && (v <=? hi))%Z then [(v, r)] else []
  | None => []
  end.

(** The rests of [s] after one or more white-space characters, longest
    run first. *)
Fixpoint after_spaces (s : list N) : list (list N) :=
  match s with
  | c :: r => if isspace c then after_spaces r ++ [r] else []
  | [] => []
  end.

Fixpoint match_directives (ds : list directive) (s : list N) (acc : date_fields)
  : option date_fields :=
  match ds with
  | [] => match s with [] => Some acc | _ => None end
  | d :: ds' =>
    let continue_with (set : Z -> date_fields) :=
      first_some (fun '(v, r) => match_directives ds' r (set v)) in
    match d with
    | DY => continue_with
              (fun v => mk_fields v (f_month acc) (f_day acc) (f_hour acc)
                                  (f_minute acc) (f_second acc))
              (number 4 0 9999 s)
    | Dm => continue_with
              (fun v => mk_fields (f_year acc) v (f_day acc) (f_hour acc)
                                  (f_minute acc) (f_second acc))
              (number 2 1 12 s ++ number 1 1 9 s)
    | Dd => continue_with
              (fun v => mk_fields (f_year acc) (f_month acc) v (f_hour acc)
                                  (f_minute acc) (f_second acc))
              (number 2 1 31 s ++ number 1 1 9 s
               ++ match s with
                  | c :: r => if (c =? 32)%N then number 1 1 9 r else []
                  | [] => []
                  end)
    | DH => continue_with
              (fun v => mk_fields (f_year acc) (f_month acc) (f_day acc) v
                                  (f_minute acc) (f_second acc))
              (number 2 0 23 s ++ number 1 0 9 s)
    | DM => continue_with
              (fun v => mk_fields (f_year acc) (f_month acc) (f_day acc)
                                  (f_hour acc) v (f_second acc))
              (number 2 0 59 s ++ number 1 0 9 s)
    | DS => continue_with
              (fun v => mk_fields (f_year acc) (f_month acc) (f_day acc)
                                  (f_hour acc) (f_minute acc) v)
              (number 2 0 61 s ++ number 1 0 9 s)
    | Df => continue_with (fun _ => acc)
              (number 6 0 999999 s ++ number 5 0 99999 s ++ number 4 0 9999 s
               ++ number 3 0 999 s ++ number 2 0 99 s ++ number 1 0 9 s)
    | DLit c =>
      match s with
      | a :: r => if (lower_ascii_char a =? lower_ascii_char c)%N
                  then match_directives ds' r acc else None
      | [] => None
      end
    | DSpace => first_some (fun r => match_directives ds' r acc) (after_spaces s)
    end
  end.

Definition days_in_month (y m : Z) : Z :=
  if (m =? 2)%Z then
    if ((y mod 4 =? 0) && negb (y mod 100 =? 0) || (y mod 400 =? 0))%Z
    then 29 else 28
  else if ((m =? 4) || (m =? 6) || (m =? 9) || (m =? 11))%Z then 30 else 31.

Definition strptime_ascii (s fmt : list N) : option date_fields :=
  ds ← compile fmt;
  f ← match_directives ds s (mk_fields 1900 1 1 0 0 0);
  if ((1 <=? f_year f) && (f_day f <=? days_in_month (f_year f) (f_month f))
      && (f_second f <=? 59))%Z
  then Some f else None.

Definition digit_char (v : Z) : N := (48 + Z.to_N v)%N.

Definition two_digits (v : Z) : list N :=
  [digit_char (v / 10); digit_char (v mod 10)].

(** The year as the C library prints it: without leading zeros. *)
Definition year_digits (y : Z) : list N :=
  (if (1000 <=? y)%Z then [digit_char (y / 1000)] else [])
  ++ (if (100 <=? y)%Z then [digit_char (y / 100 mod 10)] else [])
  ++ (if (10 <=? y)%Z then [digit_char (y / 10 mod 10)] else [])
  ++ [digit_char (y mod 10)].

(** [strftime] for the one format the code asks for. *)
Definition strftime_ascii (dt : date_fields) (fmt : list N) : list N :=
  if bool_decide (fmt = utf8 "%Y-%m-%d")
  then year_digits (f_year dt) ++ utf8 "-" ++ two_digits (f_month dt)
       ++ utf8 "-" ++ two_digits (f_day dt)
  else fmt.

Definition ascii_dates : DateLib := {|
  datetime := date_fields;
  strptime_str := strptime_ascii;
  strftime := strftime_ascii
|}.

End data_merge_and_clean_v3.

(** ** Notions used to state the properties *)

Module props.
Import helpers data_cleaner data_merge_and_clean_v3.

(** No position of [s] starts a match of [<[^>]+>]. *)
Fixpoint tagfree (s : str) : Prop :=
  match s with
  | [] => True
  | c :: s' => tag_match c s' = None /\ tagfree s'
  end.

(** The first character of [s], if any, is not white space. *)
Definition starts_solid (s : str) : Prop :=
  match s with
  | [] => True
  | d :: _ => isspace d = false
  end.

(** Every white-space character of [s] is a single space standing between
    other characters or at an end. *)
Fixpoint ws_normal (s : str) : Prop :=
  match s with
  | [] => True
  | c :: s' => (isspace c = true -> c = SPACE /\ starts_solid s') /\ ws_normal s'
  end.

(** The url a record is deduplicated on: [post.get('url', '')]. *)
Definition url_of (p : post) : str := get_str (url p).

(** The record at position [i] of the batch has a url and no earlier
    record of the batch has the same url. *)
Definition first_occurrence (posts : list post) (i : nat) (p : post) : bool :=
  truthy (url_of p) && bool_decide (url_of p ∉ map url_of (take i posts)).

Definition first_occurrences (posts : list post) : list post :=
  concat (imap (fun i p => if first_occurrence posts i p then [p] else [])
               posts).

(** The deduplication key in the words of the specification: the url
    trimmed, with its scheme and host (the text before the third ['/'])
    in lower case. *)
Fixpoint lower_scheme_host (slashes : nat) (u : list N) : list N :=
  match u with
  | [] => []
  | c :: r =>
    if (c =? 47)%N then
      match slashes with
      | S (S _) => u
      | _ => c :: lower_scheme_host (S slashes) r
      end
    else lower_ascii_char c :: lower_scheme_host slashes r
  end.

Definition spec_dedup_key (u : list N) : list N :=
  lower_scheme_host 0 (strip u).

(** The first loop of [_clean_with_python] as a recursive function of the
    set of urls seen so far. *)
Fixpoint dedup_rec (seen : gset (list N)) (l : list post) : list post :=
  match l with
  | [] => []
  | p :: r =>
    if truthy (url_of p) && bool_decide (url_of p ∉ seen)
    then p :: dedup_rec ({[url_of p]} ∪ seen) r
    else dedup_rec seen r
  end.

(** [post.get('comments')] after [clean_post_comments]. *)
Definition cleaned_comment_list `{PyLib} (cm : option (list comment))
  : option (list comment) :=
  match cm with
  | Some (c :: cs) => Some (_clean_comments (c :: cs))
  | _ => cm
  end.

(** The urls of the rows that survive the frame operations of
    [_clean_with_polars]. *)
Definition cleaned_urls (posts : list post) : list (list N) :=
  map r_url (filter_valid (with_cleaned_columns
                             (unique_first [] (basic_fields posts)))).

(** What the last loop of [_clean_with_polars] makes of one record. *)
Definition collected `{PyLib} (urls : list (list N)) (p : post) : option post :=
  match url p with
  | Some u =>
    if bool_decide (u ∈ urls) then Some (fst (clean_post_comments p __init__))
    else None
  | None => None
  end.

(** The first record of the batch that carries the url [u]. *)
Definition first_with_url (u : list N) (posts : list post) : option post :=
  find (fun p => bool_decide (url_of p = u)) posts.

(** What the second loop of the pure-Python path makes of one record:
    [None] when the record is counted as invalid. *)
Definition cleaned_post `{PyLib} (p : post) : option post :=
  let p2 := clean_fields p in
  if missing_required p2 then None
  else Some (fst (clean_post_comments p2 __init__)).

(** The canonical date of a string that is not empty: the first format
    that parses decides; failing that, the first substring shaped like a
    date; failing that, the string itself. *)
Definition normalized `{PyLib} `{DateLib} (s : list N) : list N :=
  match first_some (strptime_str s) formats with
  | Some dt => strftime dt (utf8 "%Y-%m-%d")
  | None =>
    match search_ymd s with
    | Some (y, m, d) => y ++ utf8 "-" ++ zfill m 2 ++ utf8 "-" ++ zfill d 2
    | None => s
    end
  end.

(** The number of comments that a list of records holds. *)
Definition comments_total (l : list post) : nat :=
  list_sum (map (fun q => length (get_comments q)) l).

(** [d.get(k, 0)] on a dictionary of counts. *)
Fixpoint counter_get (d : list (list N * nat)) (k : list N) : nat :=
  match d with
  | [] => 0
  | (k', n) :: r => if bool_decide (k' = k) then n else counter_get r k
  end.

(** The platform a record is counted under:
    [post.get('platform', 'unknown')]. *)
Definition platform_of (p : post) : list N :=
  default (utf8 "unknown") (platform p).

(** Text without control character and without white space other than
    the plain space. *)
Definition plain_text (s : list N) : Prop :=
  Forall (fun c => is_control c = false /\ (isspace c = true -> c = SPACE)) s.

(** A word: characters that are neither white space nor control
    characters, at least one of them. *)
Definition word (s : list N) : Prop :=
  s <> [] /\ Forall (fun c => isspace c = false /\ is_control c = false) s.

(** A value of the key [created_at] that is a number other than zero:
    what [strptime] refuses with a [TypeError]. *)
Definition numeric_date (v : option pyval) : Prop :=
  exists z, v = Some (PyInt z) /\ z <> 0%Z.

(** [a < b] on rationals, as a boolean. *)
Definition Qltb (a b : Q) : bool :=
  match (a ?= b)%Q with
  | Lt => true
  | _ => false
  end.

(** For [p] positive and [n] negative hits, comparing the quotient with
    the two thresholds gives the same answers before and after rounding
    it to three decimals. *)
Definition rounding_keeps_label (p n : nat) : bool :=
  let q := ((Qnat p - Qnat n) / Qnat (p + n))%Q in
  (p + n =? 0)%nat
  || (Bool.eqb (Qltb 0.2 q) (Qltb 0.2 (py_round q 3))
      && Bool.eqb (Qltb q (-0.2)) (Qltb (py_round q 3) (-0.2))).

End props.

(** ** Sample inputs *)

Module samples.

(** A post that advertises a course and names three primary keywords. *)
Definition advert : post :=
  mk_post (Some (utf8 "https://www.v2ex.com/t/1001")) (Some (utf8 "v2ex"))
          (Some (utf8 "ChatGPT GPT Claude 课程售卖"))
          (Some (utf8 "AI")) None None None.

(** A post with two primary matches (ChatGPT, GPT) and one secondary
    match (IT, inside "it"). *)
Definition on_topic : post :=
  mk_post (Some (utf8 "https://www.v2ex.com/t/1002")) (Some (utf8 "v2ex"))
          (Some (utf8 "ChatGPT is replacing programmer jobs"))
          (Some (utf8 "but it is also a promotion")) None None None.





(** Twenty posts with an author and without date, nineteen of them with
    fifty comments. *)
Definition signed (n : nat) : post :=
  mk_post (Some (utf8 "https://www.v2ex.com/t/1011")) (Some (utf8 "v2ex"))
          (Some (utf8 "AI")) None (Some (utf8 "alice")) None
          (Some (repeat (mk_comment None (Some (utf8 "ok")) None None) n)).

Definition twenty_posts : list post := repeat (signed 50) 19 ++ [signed 3].

(** Two positive words and one negative word of the English lexicon. *)
Definition mixed_feelings : list N := utf8 "Good idea, great tool, bad timing".





(** Two records of one thread, a third that differs from the first in the
    case of the host and in a trailing space only, and a record whose
    title is white space. *)
Definition thread_a : post :=
  mk_post (Some (utf8 "https://www.v2ex.com/t/1009")) (Some (utf8 "v2ex"))
          (Some (utf8 "A")) None None None None.

Definition thread_b : post :=
  mk_post (Some (utf8 "https://www.v2ex.com/t/1009")) (Some (utf8 "v2ex"))
          (Some (utf8 "B")) None None None None.

Definition thread_shouted : post :=
  mk_post (Some (utf8 "HTTPS://WWW.V2EX.COM/t/1009 ")) (Some (utf8 "v2ex"))
          (Some (utf8 "C")) None None None None.

Definition untitled : post :=
  mk_post (Some (utf8 "https://www.v2ex.com/t/1010")) (Some (utf8 "v2ex"))
          (Some (utf8 "  ")) None None None None.

(** A record whose title and content carry markup and padding, with two
    comments, one of them blank; and the same record once its comments
    are cleaned. *)
Definition marked_up : post :=
  mk_post (Some (utf8 "https://www.v2ex.com/t/1012")) (Some (utf8 "v2ex"))
          (Some (utf8 " <b>AI</b>  and jobs ")) (Some (utf8 "<p>text</p>"))
          None None
          (Some [mk_comment None (Some (utf8 " agreed ")) (Some (PyStr (utf8 "12")))
                            None;
                 mk_comment None (Some (utf8 "  ")) None None]).

Definition marked_up_kept : post :=
  mk_post (Some (utf8 "https://www.v2ex.com/t/1012")) (Some (utf8 "v2ex"))
          (Some (utf8 " <b>AI</b>  and jobs ")) (Some (utf8 "<p>text</p>"))
          None None
          (Some [mk_comment None (Some (utf8 "agreed")) (Some (PyInt 12)) None]).

End samples.

(** * Properties *)

(** ** Text cleaning *)

Section CleanText.
Import helpers props.

Lemma sub_tags_cons c s :
  sub_tags (c :: s) =
  match tag_match c s with
  | Some r => sub_tags r
  | None => c :: sub_tags s
  end.
Proof.
  simp sub_tags. unfold inspect.
  enough (Hgen : forall o (e : tag_match c s = o),
    sub_tags_unfold_clause_2 c s (exist _ o e) =
    match o with Some r => sub_tags r | None => c :: sub_tags s end)
    by apply Hgen.
  intros [r|] e; reflexivity.
Qed.

Lemma after_gt_length s r : after_gt s = Some r -> length r < length s.
Proof.
  revert r. induction s as [|c s IH]; intros r; simpl; [discriminate|].
  destruct (c =? GT)%N.
  - intros [= <-]. lia.
  - intros Hr. apply IH in Hr. lia.
Qed.

Lemma tag_match_length c s r : tag_match c s = Some r -> length r < length s.
Proof.
  unfold tag_match. destruct (c =? LT)%N; [|discriminate].
  destruct s as [|d s']; [discriminate|].
  destruct (d =? GT)%N; [discriminate|].
  intros Hr. apply after_gt_length in Hr. simpl. lia.
Qed.

Lemma after_gt_none_app s w : after_gt (s ++ w) = None -> after_gt s = None.
Proof.
  induction s as [|c s IH]; simpl; [reflexivity|].
  destruct (c =? GT)%N; [discriminate | exact IH].
Qed.

Lemma after_gt_none_sub_spaces s b :
  after_gt s = None -> after_gt (sub_spaces b s) = None.
Proof.
  revert b. induction s as [|c s IH]; intros b; simpl; [reflexivity|].
  destruct (c =? GT)%N eqn:Ec; [discriminate|]. intros Hs.
  destruct (isspace c).
  - destruct b; simpl; auto.
  - simpl. rewrite Ec. auto.
Qed.

Lemma isspace_GT c : (c =? GT)%N = true -> isspace c = false.
Proof. intros ->%N.eqb_eq. reflexivity. Qed.

(** Text without ['>'] holds no tag. *)
Lemma sub_tags_no_gt s : after_gt s = None -> sub_tags s = s.
Proof.
  induction s as [|c s IH]; [reflexivity|]. simpl.
  destruct (c =? GT)%N eqn:Ec; [discriminate|]. intros Hs.
  rewrite sub_tags_cons.
  assert (Hm : tag_match c s = None).
  { unfold tag_match. destruct (c =? LT)%N; [|reflexivity].
    destruct s as [|d s']; [reflexivity|]. simpl in Hs.
    destruct (d =? GT)%N; [discriminate | exact Hs]. }
  rewrite Hm, IH by exact Hs. reflexivity.
Qed.

Lemma tag_match_none_sub_tags c s :
  tag_match c s = None -> tag_match c (sub_tags s) = None.
Proof.
  unfold tag_match. destruct (c =? LT)%N; [|reflexivity].
  destruct s as [|d s']; [reflexivity|].
  destruct (d =? GT)%N eqn:Ed.
  - intros _. rewrite sub_tags_cons.
    assert (Hd : tag_match d s' = None).
    { unfold tag_match. apply N.eqb_eq in Ed. subst d. reflexivity. }
    rewrite Hd, Ed. reflexivity.
  - intros Hs. rewrite sub_tags_no_gt by (simpl; rewrite Ed; exact Hs).
    rewrite Ed. exact Hs.
Qed.

Lemma tagfree_sub_tags s : tagfree (sub_tags s).
Proof.
  remember (length s) as n eqn:Hn.
  revert s Hn. induction n as [n IH] using lt_wf_ind. intros s ->.
  destruct s as [|c s]; [exact I|].
  rewrite sub_tags_cons. destruct (tag_match c s) as [r|] eqn:Hm.
  - apply tag_match_length in Hm. apply (IH (length r)); simpl; [lia | reflexivity].
  - split.
    + apply tag_match_none_sub_tags, Hm.
    + apply (IH (length s)); simpl; [lia | reflexivity].
Qed.

Lemma sub_tags_tagfree s : tagfree s -> sub_tags s = s.
Proof.
  induction s as [|c s IH]; [reflexivity|]. intros [Hm Hs].
  rewrite sub_tags_cons, Hm, IH by exact Hs. reflexivity.
Qed.

Lemma tagfree_sub_spaces s b : tagfree s -> tagfree (sub_spaces b s).
Proof.
  revert b. induction s as [|c s IH]; intros b; [intros _; exact I|].
  intros [Hm Hs]. simpl. destruct (isspace c) eqn:Ec.
  - destruct b; [apply IH, Hs|]. split; [reflexivity | apply IH, Hs].
  - split; [|apply IH, Hs].
    revert Hm. unfold tag_match. destruct (c =? LT)%N; [|reflexivity].
    destruct s as [|d s']; [reflexivity|]. simpl.
    destruct (d =? GT)%N eqn:Ed.
    + intros _. rewrite (isspace_GT d Ed), Ed. reflexivity.
    + intros Hgt. destruct (isspace d).
      * apply (after_gt_none_sub_spaces s' true Hgt).
      * rewrite Ed. apply (after_gt_none_sub_spaces s' false Hgt).
Qed.

Lemma lstrip_suffix s : exists w, s = w ++ lstrip s.
Proof.
  induction s as [|c s [w Hw]]; [exists []; reflexivity|]. simpl.
  destruct (isspace c).
  - exists (c :: w). simpl. f_equal. exact Hw.
  - exists []. reflexivity.
Qed.

Lemma rstrip_prefix s : exists w, s = rstrip s ++ w.
Proof.
  destruct (lstrip_suffix (rev s)) as [w Hw].
  exists (rev w). unfold rstrip. rewrite <- rev_app_distr, <- Hw.
  symmetry. apply rev_involutive.
Qed.

Lemma tagfree_app_r w s : tagfree (w ++ s) -> tagfree s.
Proof. induction w as [|c w IH]; [auto|]. intros [_ Hs]. auto. Qed.

Lemma tagfree_app_l s w : tagfree (s ++ w) -> tagfree s.
Proof.
  induction s as [|c s IH]; [intros _; exact I|]. simpl.
  intros [Hm Hs]. split; [|auto].
  revert Hm. unfold tag_match. destruct (c =? LT)%N; [|reflexivity].
  destruct s as [|d s']; [reflexivity|]. simpl.
  destruct (d =? GT)%N; [reflexivity|]. apply after_gt_none_app.
Qed.

Lemma tagfree_strip s : tagfree s -> tagfree (strip s).
Proof.
  intros Hs. unfold strip.
  destruct (lstrip_suffix s) as [w Hw]. rewrite Hw in Hs.
  apply tagfree_app_r in Hs.
  destruct (rstrip_prefix (lstrip s)) as [w' Hw']. rewrite Hw' in Hs.
  apply tagfree_app_l in Hs. exact Hs.
Qed.

Lemma sub_spaces_normal s b :
  ws_normal (sub_spaces b s) /\ (b = true -> starts_solid (sub_spaces b s)).
Proof.
  revert b. induction s as [|c s IH]; intros b; [split; intros; exact I|].
  simpl. destruct (isspace c) eqn:Ec.
  - destruct b.
    + apply IH.
    + split; [|discriminate]. destruct (IH true) as [Hn Hh].
      split; [|exact Hn]. intros _. split; [reflexivity | auto].
  - split; [|intros _; exact Ec]. split; [|apply IH].
    rewrite Ec. discriminate.
Qed.

Lemma sub_spaces_ws_normal s : ws_normal s -> sub_spaces false s = s.
Proof.
  induction s as [|c s IH]; [reflexivity|]. intros [Hc Hs]. simpl.
  specialize (IH Hs). destruct (isspace c).
  - destruct (Hc eq_refl) as [-> Hh]. f_equal.
    destruct s as [|d s']; [reflexivity|]. simpl in *.
    rewrite Hh in *. exact IH.
  - f_equal. exact IH.
Qed.

Lemma ws_normal_app_r w s : ws_normal (w ++ s) -> ws_normal s.
Proof. induction w as [|c w IH]; [auto|]. intros [_ Hs]. auto. Qed.

Lemma ws_normal_app_l s w : ws_normal (s ++ w) -> ws_normal s.
Proof.
  induction s as [|c s IH]; [intros _; exact I|]. simpl.
  intros [Hc Hs]. split; [|auto].
  intros Hsp. destruct (Hc Hsp) as [-> Hh]. split; [reflexivity|].
  destruct s; [exact I | exact Hh].
Qed.

Lemma ws_normal_strip s : ws_normal s -> ws_normal (strip s).
Proof.
  intros Hs. unfold strip.
  destruct (lstrip_suffix s) as [w Hw]. rewrite Hw in Hs.
  apply ws_normal_app_r in Hs.
  destruct (rstrip_prefix (lstrip s)) as [w' Hw']. rewrite Hw' in Hs.
  apply ws_normal_app_l in Hs. exact Hs.
Qed.

Lemma lstrip_solid s : starts_solid (lstrip s).
Proof.
  induction s as [|c s IH]; [exact I|]. simpl.
  destruct (isspace c) eqn:Ec; [exact IH | exact Ec].
Qed.

Lemma lstrip_starts_solid s : starts_solid s -> lstrip s = s.
Proof. destruct s as [|c s]; [reflexivity|]. simpl. intros ->. reflexivity. Qed.

Lemma strip_idempotent s : strip (strip s) = strip s.
Proof.
  unfold strip. set (l := lstrip s).
  assert (Hl : lstrip (rstrip l) = rstrip l).
  { apply lstrip_starts_solid.
    destruct (rstrip_prefix l) as [w Hw].
    pose proof (lstrip_solid s) as Hsolid. fold l in Hsolid.
    rewrite Hw in Hsolid. destruct (rstrip l); [exact I | exact Hsolid]. }
  rewrite Hl. unfold rstrip at 1. unfold rstrip at 1.
  rewrite rev_involutive.
  rewrite (lstrip_starts_solid _ (lstrip_solid (rev l))).
  reflexivity.
Qed.

(** Cleaning a cleaned text changes nothing. *)
Lemma clean_text_idempotent t : clean_text (clean_text t) = clean_text t.
Proof.
  destruct (negb (truthy t)) eqn:Ht.
  { destruct t; [reflexivity | discriminate]. }
  set (T := strip (sub_spaces false (sub_tags t))).
  assert (Hct : clean_text t = T) by (unfold clean_text; rewrite Ht; reflexivity).
  rewrite Hct. unfold clean_text. destruct (negb (truthy T)) eqn:HT.
  - destruct T; [reflexivity | discriminate].
  - assert (Hfree : tagfree T)
      by apply tagfree_strip, tagfree_sub_spaces, tagfree_sub_tags.
    assert (Hnorm : ws_normal T)
      by apply ws_normal_strip, sub_spaces_normal.
    rewrite (sub_tags_tagfree T Hfree), (sub_spaces_ws_normal T Hnorm).
    apply strip_idempotent.
Qed.

End CleanText.

(** ** The cleaner: deduplication, validation, accounting *)

Section Cleaner.
Context `{PyLib}.
Import helpers data_cleaner props.

Lemma dedup_rec_length seen l : length (dedup_rec seen l) <= length l.
Proof.
  revert seen. induction l as [|p l IH]; intros seen; simpl; [lia|].
  destruct (truthy (url_of p) && bool_decide (url_of p ∉ seen)); simpl.
  - specialize (IH ({[url_of p]} ∪ seen)). lia.
  - specialize (IH seen). lia.
Qed.

(** The first loop computes [dedup_rec] and counts what it drops. *)
Lemma fold_dedup_step l seen acc st :
  let r := fold_left dedup_step l (seen, acc, st) in
  r.1.2 = acc ++ dedup_rec seen l
  /\ removed_duplicates r.2 + length (dedup_rec seen l)
     = removed_duplicates st + length l
  /\ total_posts r.2 = total_posts st
  /\ invalid_removed r.2 = invalid_removed st
  /\ cleaned_comments r.2 = cleaned_comments st.
Proof.
  revert seen acc st. induction l as [|p l IH]; intros seen acc st.
  - simpl. rewrite app_nil_r. repeat split; reflexivity.
  - cbn [fold_left dedup_rec].
    assert (Hstep : dedup_step (seen, acc, st) p =
      if truthy (url_of p) && bool_decide (url_of p ∉ seen)
      then ({[url_of p]} ∪ seen, acc ++ [p], st)
      else (seen, acc, set_removed_duplicates st (removed_duplicates st + 1)))
      by reflexivity.
    rewrite Hstep. clear Hstep.
    destruct (truthy (url_of p) && bool_decide (url_of p ∉ seen)).
    + destruct (IH ({[url_of p]} ∪ seen) (acc ++ [p]) st)
        as (Hl & Hr & Ht & Hi & Hc).
      cbv zeta. rewrite Hl, <- app_assoc. simpl. repeat split; auto; lia.
    + destruct (IH seen acc
                  (set_removed_duplicates st (removed_duplicates st + 1)))
        as (Hl & Hr & Ht & Hi & Hc).
      cbv zeta. rewrite Hl. simpl in *. repeat split; auto; lia.
Qed.

Lemma clean_post_comments_post p st st' :
  (clean_post_comments p st).1 = (clean_post_comments p st').1.
Proof. unfold clean_post_comments. destruct (comments p) as [[|c cs]|]; reflexivity. Qed.

Lemma clean_post_comments_stats p st :
  total_posts (clean_post_comments p st).2 = total_posts st
  /\ removed_duplicates (clean_post_comments p st).2 = removed_duplicates st
  /\ invalid_removed (clean_post_comments p st).2 = invalid_removed st.
Proof.
  unfold clean_post_comments.
  destruct (comments p) as [[|c cs]|]; repeat split; reflexivity.
Qed.

Lemma clean_step_eq acc st p :
  clean_step (acc, st) p =
  match cleaned_post p with
  | None => (acc, set_invalid_removed st (invalid_removed st + 1))
  | Some q => (acc ++ [q], (clean_post_comments (clean_fields p) st).2)
  end.
Proof.
  unfold clean_step, cleaned_post.
  destruct (missing_required (clean_fields p)); [reflexivity|].
  rewrite (clean_post_comments_post _ __init__ st).
  destruct (clean_post_comments (clean_fields p) st); reflexivity.
Qed.

Lemma omap_cons {A B} (f : A -> option B) x l :
  omap f (x :: l) =
  match f x with Some y => y :: omap f l | None => omap f l end.
Proof. reflexivity. Qed.

Lemma omap_length_le {A B} (f : A -> option B) (l : list A) : length (omap f l) <= length l.
Proof.
  induction l as [|x l IH]; [reflexivity|].
  rewrite omap_cons. destruct (f x); simpl; lia.
Qed.

(** The second loop keeps the records [cleaned_post] accepts and counts
    the others. *)
Lemma fold_clean_step l acc st :
  let r := fold_left clean_step l (acc, st) in
  r.1 = acc ++ omap cleaned_post l
  /\ invalid_removed r.2 + length (omap cleaned_post l)
     = invalid_removed st + length l
  /\ removed_duplicates r.2 = removed_duplicates st
  /\ total_posts r.2 = total_posts st.
Proof.
  revert acc st. induction l as [|p l IH]; intros acc st.
  - simpl. rewrite app_nil_r. repeat split; reflexivity.
  - cbn [fold_left]. rewrite omap_cons, clean_step_eq.
    destruct (cleaned_post p) as [q|].
    + destruct (IH (acc ++ [q]) (clean_post_comments (clean_fields p) st).2)
        as (Hl & Hi & Hr & Ht).
      destruct (clean_post_comments_stats (clean_fields p) st) as (Ht' & Hr' & Hi').
      cbv zeta. rewrite Hl, <- app_assoc. simpl. repeat split; auto; lia.
    + destruct (IH acc (set_invalid_removed st (invalid_removed st + 1)))
        as (Hl & Hi & Hr & Ht).
      cbv zeta. rewrite Hl. simpl in *. repeat split; auto; lia.
Qed.

(** The pure-Python path as a whole. *)
Lemma clean_with_python_spec posts st :
  let r := _clean_with_python posts st in
  r.1 = omap cleaned_post (dedup_rec ∅ posts)
  /\ total_posts r.2 = total_posts st
  /\ removed_duplicates r.2 + length (dedup_rec ∅ posts)
     = removed_duplicates st + length posts
  /\ invalid_removed r.2 + length r.1
     = invalid_removed st + length (dedup_rec ∅ posts).
Proof.
  unfold _clean_with_python.
  pose proof (fold_dedup_step posts ∅ [] st) as Hd. cbv zeta in Hd.
  destruct (fold_left dedup_step posts (∅, [], st)) as [[seen' unique] st1].
  simpl in Hd. destruct Hd as (-> & Hr & Ht & Hi & _).
  pose proof (fold_clean_step (dedup_rec ∅ posts) [] st1) as Hc. cbv zeta in Hc.
  destruct Hc as (Hl & Hi' & Hr' & Ht'). simpl in Hl.
  cbv zeta. rewrite Hl. repeat split; lia.
Qed.

Lemma elem_of_list_map {A B} (f : A -> B) (l : list A) (y : B) :
  y ∈ map f l <-> exists x, y = f x /\ x ∈ l.
Proof.
  rewrite list_elem_of_In, in_map_iff. split.
  - intros (x & <- & Hx). exists x. split; [reflexivity|].
    apply list_elem_of_In, Hx.
  - intros (x & -> & Hx). exists x. split; [reflexivity|].
    apply list_elem_of_In, Hx.
Qed.

(** The set of seen urls makes the first loop keep the first occurrence of
    every url: position by position, a record is kept when its url is not
    empty, is not in the initial set, and is carried by no earlier
    record. *)
Lemma dedup_rec_closed_form seen l :
  dedup_rec seen l =
  concat (imap (fun i p =>
    if truthy (url_of p) && bool_decide (url_of p ∉ seen)
       && bool_decide (url_of p ∉ map url_of (take i l))
    then [p] else []) l).
Proof.
  revert seen. induction l as [|p l IH]; intros seen; [reflexivity|].
  rewrite imap_cons. cbn [dedup_rec concat take map].
  rewrite (bool_decide_true (url_of p ∉ [])) by apply not_elem_of_nil.
  rewrite andb_true_r.
  destruct (truthy (url_of p) && bool_decide (url_of p ∉ seen)) eqn:Hk.
  - cbn [app]. f_equal. rewrite IH. f_equal. apply imap_ext.
    intros i q _. cbn [compose take map].
    destruct (truthy (url_of q)); [|reflexivity]. cbn [andb].
    rewrite <- !bool_decide_and.
    rewrite (bool_decide_ext _ ((url_of q ∉ seen) ∧
               (url_of q ∉ (url_of p :: map url_of (take i l)))));
      [reflexivity|].
    rewrite not_elem_of_cons, not_elem_of_union, not_elem_of_singleton. tauto.
  - cbn [app]. rewrite IH. f_equal. apply imap_ext.
    intros i q _. cbn [compose take map].
    destruct (truthy (url_of q)) eqn:Hq; [|reflexivity]. cbn [andb].
    rewrite <- !bool_decide_and.
    rewrite (bool_decide_ext
               ((url_of q ∉ seen) ∧
                (url_of q ∉ (url_of p :: map url_of (take i l))))
               ((url_of q ∉ seen) ∧ (url_of q ∉ map url_of (take i l))));
      [reflexivity|].
    rewrite not_elem_of_cons.
    apply andb_false_iff in Hk. destruct Hk as [Hk|Hk].
    + assert (url_of q ≠ url_of p) by (intros E; rewrite E in Hq; congruence).
      tauto.
    + apply bool_decide_eq_false in Hk.
      assert (url_of q ∉ seen -> url_of q ≠ url_of p).
      { intros Hn E. rewrite E in Hn. tauto. }
      tauto.
Qed.

Lemma dedup_rec_first_occurrences posts :
  dedup_rec ∅ posts = first_occurrences posts.
Proof.
  rewrite dedup_rec_closed_form. unfold first_occurrences. f_equal.
  apply imap_ext. intros i p _. unfold first_occurrence.
  rewrite (bool_decide_true (url_of p ∉ (∅ : gset (list N))))
    by apply not_elem_of_empty.
  rewrite andb_true_r. reflexivity.
Qed.

Lemma int_or_zero_idempotent v : int_or_zero (int_or_zero v) = int_or_zero v.
Proof. destruct v; reflexivity. Qed.

Lemma truthy_negb_false (s : list N) : negb (truthy s) = false -> truthy s = true.
Proof. destruct s; [discriminate | reflexivity]. Qed.

Lemma clean_comment_fixed c c' :
  clean_comment c = Some c' -> clean_comment c' = Some c'.
Proof.
  unfold clean_comment. destruct c as [a [t|] up down]; simpl; [|discriminate].
  destruct (negb (truthy (clean_text t))) eqn:Ht; [discriminate|].
  intros [= <-]. simpl. rewrite clean_text_idempotent, Ht.
  do 2 f_equal.
  - destruct up; simpl; [rewrite int_or_zero_idempotent|]; reflexivity.
  - destruct down; simpl; [rewrite int_or_zero_idempotent|]; reflexivity.
Qed.

Lemma omap_fixed {A} (f : A -> option A) (l : list A) :
  (forall x, x ∈ l -> f x = Some x) -> omap f l = l.
Proof.
  induction l as [|x l IH]; intros Hf; [reflexivity|].
  rewrite omap_cons, (Hf x) by apply list_elem_of_here.
  f_equal. apply IH. intros y Hy. apply Hf. apply list_elem_of_further, Hy.
Qed.

Lemma omap_idempotent {A} (f : A -> option A) (l : list A) :
  (forall x y, f x = Some y -> f y = Some y) -> omap f (omap f l) = omap f l.
Proof.
  intros Hf. apply omap_fixed. intros y Hy.
  apply list_elem_of_omap in Hy. destruct Hy as (x & _ & Hx). eauto.
Qed.

Lemma clean_comments_idempotent cs :
  _clean_comments (_clean_comments cs) = _clean_comments cs.
Proof. apply omap_idempotent, clean_comment_fixed. Qed.

End Cleaner.

Opaque helpers.clean_text.
Arguments data_cleaner._clean_comments : simpl never.

Section CleanerPython.
Context `{PyLib}.
Import helpers data_cleaner props.

(** [post['comments']] after [clean_post_comments]. *)
Lemma clean_post_comments_eq p st :
  (clean_post_comments p st).1 =
  mk_post (url p) (platform p) (title p) (content p) (author p)
          (created_at p) (cleaned_comment_list (comments p)).
Proof.
  destruct p as [u pl t c a ca [[|c0 cs]|]]; reflexivity.
Qed.

Lemma cleaned_comment_list_idempotent cm :
  cleaned_comment_list (cleaned_comment_list cm) = cleaned_comment_list cm.
Proof.
  destruct cm as [[|c0 cs]|]; try reflexivity.
  change (cleaned_comment_list (Some (c0 :: cs)))
    with (Some (_clean_comments (c0 :: cs))).
  destruct (_clean_comments (c0 :: cs)) as [|c1 cs1] eqn:Hcs; [reflexivity|].
  unfold cleaned_comment_list. rewrite <- Hcs, clean_comments_idempotent.
  reflexivity.
Qed.

Lemma clean_fields_eq p :
  clean_fields p =
  mk_post (url p) (platform p) (clean_text <$> title p)
          (clean_text <$> content p) (author p) (created_at p) (comments p).
Proof. destruct p as [u pl [t|] [c|] a ca cm]; reflexivity. Qed.

(** The second loop on one record, field by field. *)
Lemma cleaned_post_eq p :
  cleaned_post p =
  match title p with
  | Some t =>
    if truthy (clean_text t) && truthy (url_of p)
    then Some (mk_post (url p) (platform p) (Some (clean_text t))
                       (clean_text <$> content p) (author p) (created_at p)
                       (cleaned_comment_list (comments p)))
    else None
  | None => None
  end.
Proof.
  unfold cleaned_post. rewrite clean_post_comments_eq, clean_fields_eq.
  unfold missing_required, url_of. cbn [title url platform content author
    created_at comments].
  destruct (title p) as [t|];
    cbn [fmap option_fmap option_map get_str default id]; [|reflexivity].
  unfold get_str.
  destruct (truthy (clean_text t)), (truthy (default [] (url p))); reflexivity.
Qed.

(** A record the second loop accepts is returned in a form the loop
    leaves alone, and keeps its url. *)
Lemma cleaned_post_fixed p q :
  cleaned_post p = Some q ->
  cleaned_post q = Some q /\ url_of q = url_of p /\ truthy (url_of q) = true.
Proof.
  rewrite cleaned_post_eq. destruct (title p) as [t|]; [|discriminate].
  destruct (truthy (clean_text t)) eqn:Ht; [|discriminate].
  destruct (truthy (url_of p)) eqn:Hu; [|discriminate].
  intros [= <-]. rewrite cleaned_post_eq. unfold url_of in *.
  cbn [title url platform content author created_at comments].
  rewrite clean_text_idempotent, Ht, Hu, cleaned_comment_list_idempotent.
  split; [|split; reflexivity].
  cbn [andb]. do 2 f_equal.
  destruct (content p); cbn; [rewrite clean_text_idempotent|]; reflexivity.
Qed.

Lemma dedup_rec_sound seen l :
  NoDup (map url_of (dedup_rec seen l))
  /\ forall q, q ∈ dedup_rec seen l ->
       truthy (url_of q) = true /\ url_of q ∉ seen.
Proof.
  revert seen. induction l as [|p l IH]; intros seen.
  - split; [constructor | intros q Hq; inversion Hq].
  - cbn [dedup_rec].
    destruct (truthy (url_of p) && bool_decide (url_of p ∉ seen)) eqn:Hk;
      [|apply IH].
    apply andb_true_iff in Hk. destruct Hk as [Ht Hs].
    apply bool_decide_eq_true in Hs.
    destruct (IH ({[url_of p]} ∪ seen)) as [Hnd Hin].
    split.
    + cbn [map]. apply NoDup_cons. split; [|exact Hnd].
      intros Hp. apply elem_of_list_map in Hp. destruct Hp as (q & Hq & Hql).
      apply Hin in Hql. destruct Hql as [_ Hql]. apply Hql.
      apply elem_of_union_l, elem_of_singleton. symmetry. exact Hq.
    + intros q Hq. apply elem_of_cons in Hq. destruct Hq as [->|Hq]; [auto|].
      apply Hin in Hq. destruct Hq as [Hq1 Hq2]. split; [exact Hq1|].
      intros Hq3. apply Hq2, elem_of_union_r, Hq3.
Qed.

Lemma dedup_rec_fixed l seen :
  NoDup (map url_of l) ->
  (forall q, q ∈ l -> truthy (url_of q) = true /\ url_of q ∉ seen) ->
  dedup_rec seen l = l.
Proof.
  revert seen. induction l as [|p l IH]; intros seen Hnd Hin; [reflexivity|].
  cbn [dedup_rec]. cbn [map] in Hnd. apply NoDup_cons in Hnd.
  destruct Hnd as [Hp Hnd].
  destruct (Hin p) as [Ht Hs]; [apply list_elem_of_here|].
  rewrite Ht, (bool_decide_true _ Hs). cbn [andb]. f_equal.
  apply IH; [exact Hnd|]. intros q Hq.
  destruct (Hin q) as [Hq1 Hq2]; [apply list_elem_of_further, Hq|].
  split; [exact Hq1|]. intros Hq3.
  apply elem_of_union in Hq3. destruct Hq3 as [Hq3|Hq3]; [|auto].
  apply elem_of_singleton in Hq3. apply Hp. apply elem_of_list_map.
  exists q. split; [symmetry; exact Hq3 | exact Hq].
Qed.

Lemma cleaned_posts_urls l :
  NoDup (map url_of l) -> NoDup (map url_of (omap cleaned_post l)).
Proof.
  induction l as [|p l IH]; intros Hnd; [constructor|].
  cbn [map] in Hnd. apply NoDup_cons in Hnd. destruct Hnd as [Hp Hnd].
  rewrite omap_cons. destruct (cleaned_post p) as [q|] eqn:Hq; [|auto].
  cbn [map]. apply NoDup_cons. split; [|auto].
  destruct (cleaned_post_fixed p q Hq) as (_ & -> & _).
  intros Hin. apply Hp. apply elem_of_list_map in Hin.
  destruct Hin as (q' & Hq' & Hin). apply list_elem_of_omap in Hin.
  destruct Hin as (p' & Hp' & Hc).
  destruct (cleaned_post_fixed p' q' Hc) as (_ & Hu & _).
  apply elem_of_list_map. exists p'. split; [congruence | exact Hp'].
Qed.

(** Conservation on the pure-Python path, for a cleaner whose counters
    start at [st]: what [clean_posts] adds to the two counters of dropped
    records, plus the records it returns, is the size of the batch. *)
Lemma python_conservation posts st :
  let r := _clean_with_python posts (set_total_posts st (length posts)) in
  total_posts r.2 + removed_duplicates st + invalid_removed st
  = length r.1 + removed_duplicates r.2 + invalid_removed r.2.
Proof.
  destruct (clean_with_python_spec posts (set_total_posts st (length posts)))
    as (_ & Ht & Hr & Hi).
  cbv zeta. simpl in *. lia.
Qed.

(** Running the pure-Python path on its own output returns the same
    records. *)
Lemma python_idempotent posts st st' :
  (_clean_with_python (_clean_with_python posts st).1 st').1
  = (_clean_with_python posts st).1.
Proof.
  destruct (clean_with_python_spec posts st) as (Hout & _).
  set (out := (_clean_with_python posts st).1) in *.
  destruct (clean_with_python_spec out st') as (Hout' & _).
  rewrite Hout'.
  destruct (dedup_rec_sound ∅ posts) as [Hnd Hin].
  assert (Hfix : forall q, q ∈ out -> cleaned_post q = Some q
                            /\ truthy (url_of q) = true).
  { intros q Hq. rewrite Hout in Hq. apply list_elem_of_omap in Hq.
    destruct Hq as (p & _ & Hp).
    destruct (cleaned_post_fixed p q Hp) as (? & _ & ?). auto. }
  rewrite (dedup_rec_fixed out ∅).
  - apply omap_fixed. intros q Hq. apply Hfix, Hq.
  - rewrite Hout. apply cleaned_posts_urls, Hnd.
  - intros q Hq. split; [apply Hfix, Hq | apply not_elem_of_empty].
Qed.

End CleanerPython.

(** ** Python numbers *)

Section Numbers.

Lemma py_min_spec a b :
  (b < a /\ py_min a b = b)%Q \/ (a <= b /\ py_min a b = a)%Q.
Proof.
  unfold py_min. destruct (b ?= a)%Q eqn:Hc.
  - right. split; [|reflexivity]. apply Qeq_alt in Hc. rewrite Hc. apply Qle_refl.
  - left. split; [|reflexivity]. apply Qlt_alt, Hc.
  - right. split; [|reflexivity]. apply Qgt_alt in Hc. apply Qlt_le_weak, Hc.
Qed.

Lemma py_min_le_l a b : (py_min a b <= a)%Q.
Proof.
  destruct (py_min_spec a b) as [[Hlt ->]|[_ ->]];
    [apply Qlt_le_weak, Hlt | apply Qle_refl].
Qed.

Lemma py_min_le_r a b : (py_min a b <= b)%Q.
Proof.
  destruct (py_min_spec a b) as [[_ ->]|[Hle ->]]; [apply Qle_refl | exact Hle].
Qed.

Lemma py_min_glb a b c : (c <= a -> c <= b -> c <= py_min a b)%Q.
Proof. intros Ha Hb. destruct (py_min_spec a b) as [[_ ->]|[_ ->]]; assumption. Qed.



Lemma Qnat_plus n m : (Qnat (n + m) == Qnat n + Qnat m)%Q.
Proof. unfold Qnat. rewrite Nat2Z.inj_add, inject_Z_plus. reflexivity. Qed.

Lemma Qnat_nonneg n : (0 <= Qnat n)%Q.
Proof. unfold Qnat. change 0%Q with (inject_Z 0). rewrite <- Zle_Qle. lia. Qed.

Lemma Qnat_le n m : n <= m -> (Qnat n <= Qnat m)%Q.
Proof. intros Hle. unfold Qnat. rewrite <- Zle_Qle. lia. Qed.

Lemma Qnat_pos n : 0 < n -> (0 < Qnat n)%Q.
Proof. intros Hlt. unfold Qnat. change 0%Q with (inject_Z 0). rewrite <- Zlt_Qlt. lia. Qed.

End Numbers.

(** ** Relevance of one post *)

Section Relevance.
Context `{PyLib}.
Import relevance_evaluator.

Lemma count_if_cons {A} (f : A -> bool) x (l : list A) :
  count_if f (x :: l) = if f x then S (count_if f l) else count_if f l.
Proof.
  unfold count_if. rewrite filter_cons. destruct (f x) eqn:Hf.
  - rewrite decide_True by reflexivity. reflexivity.
  - rewrite decide_False by discriminate. reflexivity.
Qed.

(** Each matching loop appends the matching keywords in order and adds
    its weight once for each of them. *)
Lemma fold_match_step weight text kws ms sc :
  let r := fold_left (match_step weight text) kws (ms, sc) in
  r.1 = ms ++ filter (fun kw => kw_in text kw = true) kws
  /\ (r.2 == sc + weight * Qnat (count_if (kw_in text) kws))%Q.
Proof.
  revert ms sc. induction kws as [|kw kws IH]; intros ms sc.
  - cbn. rewrite app_nil_r. split; [reflexivity|]. unfold Qnat. cbn. ring.
  - cbn [fold_left]. rewrite count_if_cons, filter_cons.
    unfold match_step at 2 4. cbn [fst snd].
    destruct (kw_in text kw) eqn:Hkw.
    + rewrite decide_True by reflexivity.
      destruct (IH (ms ++ [kw]) (sc + weight)%Q) as [Hm Hs].
      cbv zeta. split.
      * rewrite Hm, <- app_assoc. reflexivity.
      * rewrite Hs. replace (S (count_if (kw_in text) kws))
          with (1 + count_if (kw_in text) kws) by reflexivity.
        rewrite Qnat_plus. unfold Qnat at 2. cbn. ring.
    + rewrite decide_False by discriminate. apply IH.
Qed.

Lemma find_existsb {A} (f : A -> bool) (l : list A) :
  existsb f l = false -> find f l = None.
Proof.
  induction l as [|x l IH]; [reflexivity|]. cbn.
  destruct (f x); [discriminate | exact IH].
Qed.

Lemma existsb_find {A} (f : A -> bool) (l : list A) :
  existsb f l = true -> exists x, find f l = Some x /\ x ∈ l /\ f x = true.
Proof.
  induction l as [|x l IH]; [discriminate|]. cbn.
  destruct (f x) eqn:Hx.
  - intros _. exists x. repeat split; [apply list_elem_of_here | exact Hx].
  - intros Hl. destruct (IH Hl) as (y & Hy & Hin & Hfy).
    exists y. repeat split; [exact Hy | apply list_elem_of_further, Hin | exact Hfy].
Qed.

(** C2. Whenever some exclude keyword occurs, lowered, in the lowered
    title and content joined by a space, the evaluation is score 0, not
    relevant, confidence 0.9, whatever the primary and secondary keywords
    do; its single reason names an exclude keyword that occurs. *)
Theorem exclude_dominance self post_data :
  existsb (kw_in (full_text post_data)) (exclude_keywords self) = true ->
  let r := evaluate_post_simple self post_data in
  score r = 0%Q /\ is_relevant r = false /\ confidence r = 0.9%Q
  /\ exists kw, kw ∈ exclude_keywords self
       /\ kw_in (full_text post_data) kw = true
       /\ reasons r = [utf8 "包含排除关键词: " ++ kw].
Proof.
  intros Hex. destruct (existsb_find _ _ Hex) as (kw & Hfind & Hin & Hkw).
  unfold evaluate_post_simple. rewrite Hfind.
  cbn [score is_relevant confidence reasons].
  repeat split. exists kw. repeat split; assumption.
Qed.


End Relevance.

Lemma exclude_dominance_witness :
  let r := relevance_evaluator.evaluate_post_simple (H := ascii_lib)
             relevance_evaluator.__init__ samples.advert in
  existsb (relevance_evaluator.kw_in (H := ascii_lib)
             (relevance_evaluator.full_text (H := ascii_lib) samples.advert))
          (relevance_evaluator.exclude_keywords relevance_evaluator.__init__) = true
  /\ relevance_evaluator.score r = 0%Q
  /\ relevance_evaluator.is_relevant r = false.
Proof.
  split; [vm_compute; reflexivity|].
  destruct (exclude_dominance (H := ascii_lib) relevance_evaluator.__init__
              samples.advert) as (Hs & Hr & _); [vm_compute; reflexivity|].
  split; assumption.
Defined.


(** ** Rounding *)

Section Rounding.



(** Rounding to an integer stays between the integers that enclose the
    argument. *)
Lemma round_half_even_bounds x a b :
  (inject_Z a <= x)%Q -> (x <= inject_Z b)%Q ->
  (a <= round_half_even x <= b)%Z.
Proof.
  intros Ha Hb.
  pose proof (Qfloor_le x) as Hf1. pose proof (Qlt_floor x) as Hf2.
  assert (Haf : (a <= Qfloor x)%Z).
  { assert (Hlt : (inject_Z a < inject_Z (Qfloor x + 1))%Q)
      by (eapply Qle_lt_trans; eassumption).
    rewrite <- Zlt_Qlt in Hlt. lia. }
  assert (Hfb : (Qfloor x <= b)%Z).
  { rewrite Zle_Qle. eapply Qle_trans; eassumption. }
  assert (Hup : (inject_Z (Qfloor x) < x)%Q -> (Qfloor x + 1 <= b)%Z).
  { intros Hlt. assert (Hlt' : (inject_Z (Qfloor x) < inject_Z b)%Q)
      by (eapply Qlt_le_trans; eassumption).
    rewrite <- Zlt_Qlt in Hlt'. lia. }
  unfold round_half_even.
  destruct (x - inject_Z (Qfloor x) ?= 1 # 2)%Q eqn:Hc.
  - apply Qeq_alt in Hc.
    assert (Hlt : (inject_Z (Qfloor x) < x)%Q) by lra.
    destruct (Z.even (Qfloor x)); specialize (Hup Hlt); lia.
  - lia.
  - apply Qgt_alt in Hc.
    assert (Hlt : (inject_Z (Qfloor x) < x)%Q) by lra.
    specialize (Hup Hlt). lia.
Qed.

(** The error of rounding to an integer is at most one half. *)
Lemma round_half_even_error x :
  (x - (1 # 2) <= inject_Z (round_half_even x) <= x + (1 # 2))%Q.
Proof.
  pose proof (Qfloor_le x) as Hf1. pose proof (Qlt_floor x) as Hf2.
  rewrite inject_Z_plus in Hf2. change (inject_Z 1) with 1%Q in Hf2.
  unfold round_half_even.
  destruct (x - inject_Z (Qfloor x) ?= 1 # 2)%Q eqn:Hc.
  - apply Qeq_alt in Hc.
    destruct (Z.even (Qfloor x));
      rewrite ?inject_Z_plus; change (inject_Z 1) with 1%Q; lra.
  - apply Qlt_alt in Hc. lra.
  - apply Qgt_alt in Hc. rewrite inject_Z_plus.
    change (inject_Z 1) with 1%Q. lra.
Qed.


End Rounding.

(** ** Quality of a corpus *)

Section Quality.
Import config quality_analyzer.

Lemma count_if_le {A} (f : A -> bool) (l : list A) : count_if f l <= length l.
Proof. apply length_filter. Qed.

(** A percentage lies between 0 and 100. *)
Lemma percentage_bounds cond posts :
  (0 <= percentage cond posts /\ percentage cond posts <= 100)%Q.
Proof.
  unfold percentage. destruct posts as [|p posts]; [lra|].
  set (l := p :: posts).
  assert (Hn : (0 < Qnat (length l))%Q) by (apply Qnat_pos; simpl; lia).
  pose proof (Qnat_nonneg (count_if cond l)) as Hc0.
  pose proof (Qnat_le _ _ (count_if_le cond l)) as Hcn.
  assert (H0 : (0 <= Qnat (count_if cond l) / Qnat (length l))%Q)
    by (apply Qle_shift_div_l; lra).
  assert (H1 : (Qnat (count_if cond l) / Qnat (length l) <= 1)%Q)
    by (apply Qle_shift_div_r; lra).
  lra.
Qed.

(** The cap at 20 is never reached from above: a percentage scaled by 0.2
    is at most 20. *)
Lemma scaled_percentage cond posts :
  (py_min (percentage cond posts * 0.2) 20 == percentage cond posts * 0.2)%Q.
Proof.
  destruct (percentage_bounds cond posts) as [_ Hle].
  destruct (py_min_spec (percentage cond posts * 0.2) 20) as [[Hlt _]|[_ ->]];
    [lra | reflexivity].
Qed.

(** The unrounded sum the score is computed from. *)
Lemma quality_score_sum posts :
  let c := _perform_quality_checks posts in
  exists raw,
    overall_quality_score c = py_round raw 2
    /\ (raw == (if meets_min_posts c then 30 else 0)
              + (if meets_min_comments c then 30 else 0)
              + py_min (has_time_info c * 0.2) 20
              + py_min (has_author_info c * 0.2) 20)%Q.
Proof.
  cbv zeta. eexists. split; [reflexivity|].
  unfold _perform_quality_checks.
  cbn [meets_min_posts meets_min_comments has_time_info has_author_info].
  destruct (MIN_POSTS_REQUIRED <=? length posts)%nat,
    (MIN_POSTS_REQUIRED <=? count_if enough_comments posts)%nat; ring.
Qed.


End Quality.



(** ** Sentiment of one document *)

Section Sentiment.
Context `{PyLib}.
Import text_analysis props.

Lemma Qltb_lt a b : Qltb a b = true <-> (a < b)%Q.
Proof.
  unfold Qltb. rewrite Qlt_alt. destruct (a ?= b)%Q; split; congruence.
Qed.

Lemma hits_le words text : hits words text <= length words.
Proof. apply length_filter. Qed.

Lemma positive_words_bound language :
  length (dict_get SENTIMENT_WORDS_positive language) <= 48.
Proof.
  cbn [dict_get SENTIMENT_WORDS_positive].
  repeat case_bool_decide; vm_compute; lia.
Qed.

Lemma negative_words_bound language :
  length (dict_get SENTIMENT_WORDS_negative language) <= 57.
Proof.
  cbn [dict_get SENTIMENT_WORDS_negative].
  repeat case_bool_decide; vm_compute; lia.
Qed.

(** Checked for every pair of counts the lexicons allow. *)
Lemma rounding_keeps_label_all :
  forallb (fun p => forallb (rounding_keeps_label p) (seq 0 58)) (seq 0 49)
  = true.
Proof. vm_compute. reflexivity. Qed.

Lemma rounding_keeps_label_bounded p n :
  p <= 48 -> n <= 57 -> rounding_keeps_label p n = true.
Proof.
  intros Hp Hn. pose proof rounding_keeps_label_all as Hall.
  rewrite forallb_forall in Hall.
  specialize (Hall p). rewrite forallb_forall in Hall.
  apply Hall; apply in_seq; lia.
Qed.

(** C7, as the code has it. The two counts are the numbers of lexicon
    words of the language that occur in the lowered text. Without any hit
    the score is 0 and the label neutral. Otherwise the returned score is
    (p - n) / (p + n) rounded to three decimals; the label is positive
    when the quotient exceeds 0.2, negative when it is below -0.2, neutral
    in between, and the rounded score passes the same two tests. Equal
    arguments give equal results. *)
Theorem sentiment_score_rounded text language :
  let r := analyze_sentiment text language in
  let p := hits (dict_get SENTIMENT_WORDS_positive language) (lower text) in
  let n := hits (dict_get SENTIMENT_WORDS_negative language) (lower text) in
  let q := ((Qnat p - Qnat n) / Qnat (p + n))%Q in
  positive_count r = p /\ negative_count r = n
  /\ (p + n = 0 -> s_score r = py_round 0 3 /\ (s_score r == 0)%Q
                   /\ s_label r = neutral)
  /\ (p + n <> 0 ->
      s_score r = py_round q 3
      /\ (s_label r = positive <-> (0.2 < q)%Q)
      /\ (s_label r = negative <-> (q < -0.2)%Q)
      /\ (s_label r = neutral <-> (-0.2 <= q /\ q <= 0.2)%Q)
      /\ (s_label r = positive <-> (0.2 < s_score r)%Q)
      /\ (s_label r = negative <-> (s_score r < -0.2)%Q))
  /\ (forall text' language',
        text' = text -> language' = language ->
        analyze_sentiment text' language' = r).
Proof.
  cbv zeta. unfold analyze_sentiment.
  set (p := hits (dict_get SENTIMENT_WORDS_positive language) (lower text)).
  set (n := hits (dict_get SENTIMENT_WORDS_negative language) (lower text)).
  set (q := ((Qnat p - Qnat n) / Qnat (p + n))%Q).
  assert (Hkeep : rounding_keeps_label p n = true).
  { apply rounding_keeps_label_bounded.
    - etransitivity; [apply hits_le | apply positive_words_bound].
    - etransitivity; [apply hits_le | apply negative_words_bound]. }
  unfold rounding_keeps_label in Hkeep. fold q in Hkeep.
  destruct (p + n =? 0)%nat eqn:Hz.
  - apply Nat.eqb_eq in Hz. cbn [s_score s_label positive_count negative_count].
    split; [reflexivity|]. split; [reflexivity|].
    split; [intros _; repeat split; vm_compute; reflexivity|].
    split; [intros Hne; contradiction|].
    intros ? ? -> ->. fold p n. rewrite (proj2 (Nat.eqb_eq _ _) Hz). reflexivity.
  - apply Nat.eqb_neq in Hz. cbn [orb] in Hkeep.
    apply andb_true_iff in Hkeep. destruct Hkeep as [Hpos Hneg].
    apply eqb_prop in Hpos. apply eqb_prop in Hneg.
    assert (Hpos' : (0.2 < q)%Q <-> (0.2 < py_round q 3)%Q)
      by (rewrite <- !Qltb_lt, Hpos; reflexivity).
    assert (Hneg' : (q < -0.2)%Q <-> (py_round q 3 < -0.2)%Q)
      by (rewrite <- !Qltb_lt, Hneg; reflexivity).
    split; [|split; [|split; [intros Hz'; contradiction|split]]].
    + destruct (Qlt_le_dec 0.2 q); [|destruct (Qlt_le_dec q (-0.2))]; reflexivity.
    + destruct (Qlt_le_dec 0.2 q); [|destruct (Qlt_le_dec q (-0.2))]; reflexivity.
    + intros _.
      destruct (Qlt_le_dec 0.2 q) as [Hgt|Hle];
        [|destruct (Qlt_le_dec q (-0.2)) as [Hlt|Hge]];
        cbn [s_score s_label]; (split; [reflexivity|]);
        rewrite <- Hpos', <- Hneg';
        repeat split; try discriminate; try (intros; lra);
        try (intros _; assumption); try (intros [? ?]; lra);
        try (intros _; split; lra).
    + intros ? ? -> ->. fold p n q.
      rewrite (proj2 (Nat.eqb_neq _ _) Hz). reflexivity.
Qed.

End Sentiment.

(** The returned score is the rounded quotient, not the quotient: two
    positive hits and one negative hit give 0.333, not 1/3. *)
Lemma sentiment_score_not_the_quotient :
  let r := text_analysis.analyze_sentiment (H := ascii_lib)
             samples.mixed_feelings (utf8 "en") in
  text_analysis.positive_count r = 2
  /\ text_analysis.negative_count r = 1
  /\ (text_analysis.s_score r == 0.333)%Q
  /\ ~ (text_analysis.s_score r == (2 - 1) / (2 + 1))%Q.
Proof.
  split; [vm_compute; reflexivity|]. split; [vm_compute; reflexivity|].
  split; [vm_compute; reflexivity|].
  intros Heq. vm_compute in Heq. discriminate Heq.
Qed.

Lemma sentiment_score_rounded_witness :
  let text_lower := lower (PyLib := ascii_lib) samples.mixed_feelings in
  let p := text_analysis.hits
             (text_analysis.dict_get text_analysis.SENTIMENT_WORDS_positive
                (utf8 "en")) text_lower in
  let n := text_analysis.hits
             (text_analysis.dict_get text_analysis.SENTIMENT_WORDS_negative
                (utf8 "en")) text_lower in
  p + n <> 0
  /\ text_analysis.s_label
       (text_analysis.analyze_sentiment (H := ascii_lib)
          samples.mixed_feelings (utf8 "en")) = text_analysis.positive.
Proof.
  cbv zeta.
  assert (Hne : text_analysis.hits
                  (text_analysis.dict_get text_analysis.SENTIMENT_WORDS_positive
                     (utf8 "en"))
                  (lower (PyLib := ascii_lib) samples.mixed_feelings)
                + text_analysis.hits
                    (text_analysis.dict_get
                       text_analysis.SENTIMENT_WORDS_negative (utf8 "en"))
                    (lower (PyLib := ascii_lib) samples.mixed_feelings) <> 0)
    by (vm_compute; discriminate).
  split; [exact Hne|].
  destruct (sentiment_score_rounded (H := ascii_lib) samples.mixed_feelings
              (utf8 "en")) as (_ & _ & _ & Hsome & _).
  destruct (Hsome Hne) as (_ & Hpos & _).
  apply Hpos. vm_compute. reflexivity.
Defined.

(** ** Keyword sentiment of a corpus *)

Section Distribution.
Context `{PyLib}.
Import text_analyzer.




End Distribution.


(** ** The Post model *)

Section PostModel.
Context `{PyLib}.
Import models.

(** C9, as the code has it. [update_metadata] sets the stored count to
    the number of comments and touches nothing else; applied twice it
    gives what it gives applied once, and equal posts give equal
    results. *)
Theorem update_metadata_recomputes (self : Post) :
  comment_count (metadata (update_metadata self))
  = Z.of_nat (length (comments self))
  /\ comments (update_metadata self) = comments self
  /\ view_count (metadata (update_metadata self)) = view_count (metadata self)
  /\ follow_count (metadata (update_metadata self)) = follow_count (metadata self)
  /\ upvote_count (metadata (update_metadata self)) = upvote_count (metadata self)
  /\ update_metadata (update_metadata self) = update_metadata self
  /\ (forall other, other = self -> update_metadata other = update_metadata self).
Proof.
  repeat split; try reflexivity. intros other ->. reflexivity.
Qed.

(** After [update_metadata] the count stays right only until the comments
    change again. *)
Lemma update_metadata_then_append (self : Post) (c : Comment) :
  let after := append_comment (update_metadata self) c in
  comment_count (metadata after) = Z.of_nat (length (comments self))
  /\ length (comments after) = S (length (comments self)).
Proof.
  cbv zeta. split; [reflexivity|]. cbn. rewrite length_app. cbn. lia.
Qed.

End PostModel.

Lemma comment_count_goes_stale :
  let c := models.mk_Comment (utf8 "me too") (utf8 "alice") None None 3 0
             None (Some (utf8 "2小时前")) false None None None in
  exists p,
    models.new_Post (H := ascii_lib) (utf8 "2025-01-10T08:00:00") (utf8 "V2EX")
      (utf8 "topic") (utf8 "https://www.v2ex.com/t/1008") (utf8 "AI and jobs")
      [c] = Some p
    /\ models.comment_count (models.metadata p) = 0%Z
    /\ length (models.comments p) = 1
    /\ models.comment_count (models.metadata (models.append_comment p c)) = 0%Z
    /\ length (models.comments (models.append_comment p c)) = 2.
Proof.
  cbv zeta. eexists. split; [vm_compute; reflexivity|].
  repeat split.
Qed.

(** ** Date normalisation *)

Section Dates.
Import data_merge_and_clean_v3 props.
Context `{PyLib} `{DateLib}.

Lemma try_formats_str s fmts :
  try_formats (PyStr s) fmts =
  Returned ((fun dt => strftime dt (utf8 "%Y-%m-%d"))
            <$> first_some (strptime_str s) fmts).
Proof.
  induction fmts as [|fmt fmts IH]; [reflexivity|].
  cbn [try_formats first_some strptime].
  destruct (strptime_str s fmt); [reflexivity | exact IH].
Qed.

Lemma first_some_none {A B} (f : A -> option B) (l : list A) :
  (forall x, x ∈ l -> f x = None) -> first_some f l = None.
Proof.
  induction l as [|x l IH]; intros Hf; [reflexivity|]. cbn.
  rewrite (Hf x) by apply list_elem_of_here.
  apply IH. intros y Hy. apply Hf, list_elem_of_further, Hy.
Qed.

(** C8, as the code has it. On [None] and on the empty string
    [parse_date] returns the empty string. On every other string it
    returns, without raising: the canonical date of the first of the five
    formats that parses; failing that, the zero-padded date read from the
    leftmost substring shaped like a date; failing that, the string
    itself. No relative-time pattern is tried. *)
Theorem parse_date_on_strings (s : list N) :
  parse_date PyNone = Returned []
  /\ parse_date (PyStr []) = Returned []
  /\ (s <> [] -> parse_date (PyStr s) = Returned (normalized s))
  /\ (s <> [] -> (forall fmt, fmt ∈ formats -> strptime_str s fmt = None) ->
      search_ymd s = None -> parse_date (PyStr s) = Returned s)
  /\ exists out, parse_date (PyStr s) = Returned out.
Proof.
  assert (Hne : s <> [] -> parse_date (PyStr s) = Returned (normalized s)).
  { intros Hs. unfold parse_date, normalized.
    destruct s as [|c s]; [contradiction|]. cbn [py_truthy truthy negb].
    rewrite try_formats_str.
    destruct (first_some (strptime_str (c :: s)) formats);
      cbn [fmap option_fmap option_map]; [reflexivity|].
    destruct (search_ymd (c :: s)) as [[[y m] d]|]; reflexivity. }
  split; [reflexivity|]. split; [reflexivity|]. split; [exact Hne|]. split.
  - intros Hs Hfmt Hre. rewrite (Hne Hs). unfold normalized.
    rewrite (first_some_none _ _ Hfmt), Hre. reflexivity.
  - destruct s as [|c s]; [exists []; reflexivity|].
    eexists. apply Hne. discriminate.
Qed.

End Dates.

(** A number where the date should be makes [parse_date] raise. *)
Lemma parse_date_raises_on_number :
  data_merge_and_clean_v3.parse_date (H := ascii_lib)
    (H0 := data_merge_and_clean_v3.ascii_dates) (PyInt 1718000000)
  = data_merge_and_clean_v3.Raised data_merge_and_clean_v3.TypeError.
Proof. vm_compute. reflexivity. Qed.

(** A relative date comes back as it went in. *)
Lemma parse_date_on_strings_witness :
  utf8 "3天前" <> []
  /\ data_merge_and_clean_v3.parse_date (H := ascii_lib)
       (H0 := data_merge_and_clean_v3.ascii_dates) (PyStr (utf8 "3天前"))
     = data_merge_and_clean_v3.Returned (utf8 "3天前").
Proof.
  split; [vm_compute; discriminate|].
  destruct (parse_date_on_strings (H := ascii_lib)
              (H0 := data_merge_and_clean_v3.ascii_dates) (utf8 "3天前"))
    as (_ & _ & _ & Hsame & _).
  apply Hsame.
  - vm_compute; discriminate.
  - intros fmt Hfmt.
    repeat (apply elem_of_cons in Hfmt; destruct Hfmt as [->|Hfmt];
            [vm_compute; reflexivity|]).
    apply elem_of_nil in Hfmt. contradiction.
  - vm_compute. reflexivity.
Defined.

(** ** The cleaner: the statements about a whole batch *)

Section CleanerBatch.
Context `{PyLib}.
Import helpers data_cleaner props.

(** What [first_occurrence] says, position by position. *)
Lemma first_occurrence_spec (posts : list post) i p :
  first_occurrence posts i p = true <->
  url_of p <> []
  /\ forall j q, j < i -> posts !! j = Some q -> url_of q <> url_of p.
Proof.
  unfold first_occurrence. rewrite andb_true_iff, bool_decide_eq_true.
  assert (Ht : truthy (url_of p) = true <-> url_of p <> []).
  { destruct (url_of p); cbn; split; try discriminate; try reflexivity.
    intros Hne. contradiction. }
  rewrite Ht. apply and_iff_compat_l. split.
  - intros Hnot j q Hj Hq Heq. apply Hnot. apply elem_of_list_map.
    exists q. split; [symmetry; exact Heq|].
    apply list_elem_of_lookup. exists j. rewrite lookup_take_lt by exact Hj.
    exact Hq.
  - intros Hall Hin. apply elem_of_list_map in Hin.
    destruct Hin as (q & Heq & Hq). apply list_elem_of_lookup in Hq.
    destruct Hq as (j & Hj). apply lookup_take_Some in Hj.
    destruct Hj as [Hj Hlt]. apply (Hall j q Hlt Hj). symmetry. exact Heq.
Qed.

(** C4, as the code has it. On the pure-Python path of a fresh cleaner the
    key is the url as it stands: the records that pass the first loop are
    the first occurrences of the urls that are not empty, in the order of
    the batch; [removed_duplicates] is the number of all other records
    (later occurrences, and records without url); the result is what the
    second loop makes of the first occurrences. *)
Theorem dedup_keeps_first_occurrences (posts : list post) :
  exists out st,
    clean_posts false posts __init__ = Some (out, st)
    /\ out = omap cleaned_post (first_occurrences posts)
    /\ removed_duplicates st + length (first_occurrences posts) = length posts
    /\ NoDup (map url_of (first_occurrences posts))
    /\ forall i p, posts !! i = Some p ->
         (first_occurrence posts i p = true <->
          url_of p <> []
          /\ forall j q, j < i -> posts !! j = Some q -> url_of q <> url_of p).
Proof.
  unfold clean_posts.
  destruct (_clean_with_python posts (set_total_posts __init__ (length posts)))
    as [out st] eqn:Hrun.
  exists out, st.
  destruct (clean_with_python_spec posts (set_total_posts __init__ (length posts)))
    as (Hout & _ & Hrem & _).
  rewrite Hrun in Hout, Hrem. cbn [fst snd] in Hout, Hrem.
  rewrite dedup_rec_first_occurrences in Hout, Hrem.
  split; [reflexivity|]. split; [exact Hout|]. split; [exact Hrem|]. split.
  - rewrite <- dedup_rec_first_occurrences. apply dedup_rec_sound.
  - intros i p _. apply first_occurrence_spec.
Qed.

(** Conservation holds on the pure-Python path of a fresh cleaner. *)
Lemma python_conservation_fresh (posts : list post) :
  exists out st,
    clean_posts false posts __init__ = Some (out, st)
    /\ total_posts st = length posts
    /\ total_posts st = length out + removed_duplicates st + invalid_removed st.
Proof.
  unfold clean_posts.
  pose proof (python_conservation posts __init__) as Hcons. cbv zeta in Hcons.
  destruct (clean_with_python_spec posts (set_total_posts __init__ (length posts)))
    as (_ & Ht & _).
  destruct (_clean_with_python posts (set_total_posts __init__ (length posts)))
    as [out st].
  exists out, st. cbn in *. repeat split; lia.
Qed.

(** A cleaner that is used again keeps adding to its two counters of
    dropped records while [total_posts] starts afresh. *)
Lemma python_counters_accumulate (posts : list post) st :
  let r := _clean_with_python posts (set_total_posts st (length posts)) in
  total_posts r.2 = length posts
  /\ removed_duplicates st <= removed_duplicates r.2
  /\ invalid_removed st <= invalid_removed r.2.
Proof.
  destruct (clean_with_python_spec posts (set_total_posts st (length posts)))
    as (Hout & Ht & Hr & Hi).
  pose proof (dedup_rec_length ∅ posts) as Hle.
  pose proof (omap_length_le cleaned_post (dedup_rec ∅ posts)) as Hle'.
  cbv zeta. rewrite Hout in Hi. cbn in *. repeat split; lia.
Qed.

End CleanerBatch.

(** C1 on the Polars path: two records with one url. The frame is
    deduplicated and counts one duplicate, but both records are returned,
    so the three numbers do not add up to the size of the batch. *)
Theorem polars_breaks_conservation :
  exists st,
    data_cleaner.clean_posts (H := ascii_lib) true
      [samples.thread_a; samples.thread_b] data_cleaner.__init__
    = Some ([samples.thread_a; samples.thread_b], st)
    /\ data_cleaner.total_posts st = 2
    /\ data_cleaner.removed_duplicates st = 1
    /\ data_cleaner.invalid_removed st = 0
    /\ data_cleaner.total_posts st
       <> 2 + data_cleaner.removed_duplicates st
            + data_cleaner.invalid_removed st.
Proof.
  eexists. split; [vm_compute; reflexivity|].
  cbn. repeat split; lia.
Qed.

(** The same batch on the pure-Python path. *)
Lemma python_drops_the_duplicate :
  exists st,
    data_cleaner.clean_posts (H := ascii_lib) false
      [samples.thread_a; samples.thread_b] data_cleaner.__init__
    = Some ([samples.thread_a], st)
    /\ data_cleaner.removed_duplicates st = 1
    /\ data_cleaner.invalid_removed st = 0.
Proof. eexists. split; [vm_compute; reflexivity|]. split; reflexivity. Qed.

(** The key is not normalised: two urls that the specification would
    identify are kept as two records, on either path. *)
Lemma dedup_ignores_case_and_spaces :
  props.spec_dedup_key (props.url_of samples.thread_shouted)
  = props.spec_dedup_key (props.url_of samples.thread_a)
  /\ (exists st,
        data_cleaner.clean_posts (H := ascii_lib) false
          [samples.thread_a; samples.thread_shouted] data_cleaner.__init__
        = Some ([samples.thread_a; samples.thread_shouted], st)
        /\ data_cleaner.removed_duplicates st = 0)
  /\ (exists st,
        data_cleaner.clean_posts (H := ascii_lib) true
          [samples.thread_a; samples.thread_shouted] data_cleaner.__init__
        = Some ([samples.thread_a; samples.thread_shouted], st)
        /\ data_cleaner.removed_duplicates st = 0).
Proof.
  split; [vm_compute; reflexivity|].
  split; eexists; (split; [vm_compute; reflexivity | reflexivity]).
Qed.

(** C5 on the Polars path: a batch whose only record has a blank title is
    cleaned to the empty list, and cleaning the empty list fails, where
    the pure-Python path returns the empty list again. *)
Theorem polars_fails_on_its_empty_output :
  exists st,
    data_cleaner.clean_posts (H := ascii_lib) true [samples.untitled]
      data_cleaner.__init__ = Some ([], st)
    /\ data_cleaner.clean_posts (H := ascii_lib) true [] st = None
    /\ exists st', data_cleaner.clean_posts (H := ascii_lib) false [] st
                   = Some ([], st').
Proof.
  eexists. split; [vm_compute; reflexivity|].
  split; [reflexivity|]. eexists. reflexivity.
Qed.

(** ** The Polars path on batches that are not empty *)

Section CleanerPolars.
Context `{PyLib}.
Import helpers data_cleaner props.

Lemma fold_collect_step urls l acc st :
  (fold_left (collect_step urls) l (acc, st)).1 = acc ++ omap (collected urls) l.
Proof.
  revert acc st. induction l as [|p l IH]; intros acc st.
  - cbn. rewrite app_nil_r. reflexivity.
  - cbn [fold_left]. rewrite omap_cons. unfold collect_step at 2, collected.
    destruct (url p) as [u|]; [|apply IH].
    destruct (bool_decide (u ∈ urls)); [|apply IH].
    rewrite (clean_post_comments_post p __init__ st).
    destruct (clean_post_comments p st) as [p1 st1]. cbn [fst].
    rewrite IH, <- app_assoc. reflexivity.
Qed.

Lemma clean_with_polars_spec posts st :
  posts <> [] ->
  exists st', _clean_with_polars posts st
              = Some (omap (collected (cleaned_urls posts)) posts, st').
Proof.
  intros Hne. destruct posts as [|p posts]; [contradiction|].
  unfold _clean_with_polars. fold (cleaned_urls (p :: posts)).
  match goal with |- context [fold_left ?f ?l (?a, ?s)] =>
    pose proof (fold_collect_step (cleaned_urls (p :: posts)) l a s) as Hf;
    destruct (fold_left f l (a, s)) as [out st'] end.
  cbn [fst app] in Hf. subst out. exists st'. reflexivity.
Qed.

(** A url survives the frame operations when it is not empty and the
    first record that carries it has a title that is not blank. *)
Lemma cleaned_urls_from seen posts u :
  u ∈ map r_url (filter_valid (with_cleaned_columns
                                 (unique_first seen (basic_fields posts))))
  <-> (u ∉ seen) /\ u <> []
      /\ exists p, first_with_url u posts = Some p
                   /\ clean_cell (get_str (title p)) <> [].
Proof.
  revert seen. induction posts as [|p posts IH]; intros seen.
  - cbn. split; [intros Hin; inversion Hin|].
    intros (_ & _ & q & Hq & _). discriminate.
  - cbn [basic_fields map unique_first r_url]. fold (basic_fields posts).
    fold (url_of p). unfold first_with_url. cbn [find].
    fold (first_with_url u posts).
    destruct (bool_decide (url_of p ∈ seen)) eqn:Hseen.
    + apply bool_decide_eq_true in Hseen. rewrite IH.
      destruct (bool_decide (url_of p = u)) eqn:Hu.
      * apply bool_decide_eq_true in Hu. subst u. tauto.
      * tauto.
    + apply bool_decide_eq_false in Hseen.
      cbn [with_cleaned_columns map]. fold (with_cleaned_columns
        (unique_first (url_of p :: seen) (basic_fields posts))).
      unfold filter_valid. rewrite filter_cons. fold filter_valid.
      cbn [r_title r_url].
      assert (Hlen : forall s : list N, (0 <? length s)%nat = true <-> s <> []).
      { intros [|c s]; cbn; split; try discriminate; try reflexivity.
        intros Hs. contradiction. }
      assert (Hvalid :
        Is_true ((0 <? length (clean_cell (get_str (title p))))%nat
                 && (0 <? length (url_of p))%nat)
        <-> clean_cell (get_str (title p)) <> [] /\ url_of p <> []).
      { rewrite Is_true_true, andb_true_iff, !Hlen. reflexivity. }
      destruct (decide _) as [Hv|Hv]; rewrite Hvalid in Hv;
        cbn [map r_url]; rewrite ?elem_of_cons, IH, not_elem_of_cons;
        destruct (bool_decide (url_of p = u)) eqn:Hu;
        [apply bool_decide_eq_true in Hu | apply bool_decide_eq_false in Hu
        |apply bool_decide_eq_true in Hu | apply bool_decide_eq_false in Hu].
      * subst u. split; [|tauto]. intros _.
        split; [exact Hseen|]. split; [tauto|]. exists p. tauto.
      * assert (Hu' : u <> url_of p) by congruence. split.
        -- intros [Heq|Hr]; [congruence | tauto].
        -- tauto.
      * subst u. split; [tauto|].
        intros (_ & Hne & q & [= <-] & Hq). tauto.
      * assert (Hu' : u <> url_of p) by congruence. tauto.
Qed.

Lemma cleaned_urls_spec posts u :
  u ∈ cleaned_urls posts
  <-> u <> []
      /\ exists p, first_with_url u posts = Some p
                   /\ clean_cell (get_str (title p)) <> [].
Proof.
  unfold cleaned_urls. rewrite cleaned_urls_from.
  split; [tauto|]. intros Hr. split; [apply not_elem_of_nil | exact Hr].
Qed.

Lemma clean_post_comments_idempotent p st st' :
  (clean_post_comments (clean_post_comments p st).1 st').1
  = (clean_post_comments p st).1.
Proof.
  rewrite !clean_post_comments_eq. cbn [url platform title content author
    created_at comments].
  rewrite cleaned_comment_list_idempotent. reflexivity.
Qed.

Lemma collected_inv urls p q :
  collected urls p = Some q ->
  q = (clean_post_comments p __init__).1
  /\ exists u, url p = Some u /\ url q = Some u /\ u ∈ urls
               /\ title q = title p.
Proof.
  unfold collected. destruct (url p) as [u|] eqn:Hu; [|discriminate].
  destruct (bool_decide (u ∈ urls)) eqn:Hin; [|discriminate].
  apply bool_decide_eq_true in Hin. intros [= <-]. split; [reflexivity|].
  exists u. rewrite clean_post_comments_eq.
  cbn [url title]. auto.
Qed.

(** The last loop keeps, for a surviving url, the first record that
    carries it in first place among the records with that url. *)
Lemma first_with_url_collected urls u posts :
  u ∈ urls -> u <> [] ->
  first_with_url u (omap (collected urls) posts)
  = (fun p => (clean_post_comments p __init__).1) <$> first_with_url u posts.
Proof.
  intros Hin Hne. induction posts as [|p posts IH]; [reflexivity|].
  rewrite omap_cons. unfold first_with_url at 2. cbn [find].
  fold (first_with_url u posts).
  destruct (bool_decide (url_of p = u)) eqn:Hu.
  - apply bool_decide_eq_true in Hu.
    assert (Hurl : url p = Some u).
    { unfold url_of, get_str in Hu. destruct (url p); cbn in Hu; congruence. }
    unfold collected. rewrite Hurl, (bool_decide_true _ Hin).
    unfold first_with_url. cbn [find].
    assert (Hu' : url_of (clean_post_comments p __init__).1 = u).
    { rewrite clean_post_comments_eq. unfold url_of. cbn [url].
      rewrite Hurl. reflexivity. }
    rewrite (bool_decide_true _ Hu'). reflexivity.
  - apply bool_decide_eq_false in Hu.
    destruct (collected urls p) as [q|] eqn:Hq; [|exact IH].
    apply collected_inv in Hq. destruct Hq as (_ & v & Hv & Hv' & _).
    unfold first_with_url. cbn [find].
    assert (Hq' : url_of q <> u).
    { unfold url_of in *. rewrite Hv'. rewrite Hv in Hu. exact Hu. }
    rewrite (bool_decide_false _ Hq'). exact IH.
Qed.

Lemma cleaned_urls_stable posts u :
  u ∈ cleaned_urls posts ->
  u ∈ cleaned_urls (omap (collected (cleaned_urls posts)) posts).
Proof.
  intros Hin. pose proof Hin as Hin'.
  apply cleaned_urls_spec in Hin'. destruct Hin' as (Hne & p & Hp & Hvalid).
  apply cleaned_urls_spec. split; [exact Hne|].
  exists (clean_post_comments p __init__).1. split.
  - rewrite (first_with_url_collected _ _ _ Hin Hne), Hp. reflexivity.
  - rewrite clean_post_comments_eq. cbn [title]. exact Hvalid.
Qed.

(** On the Polars path, a run on the output of a run returns that output
    again, provided the output is not empty. *)
Lemma polars_idempotent_nonempty posts st out st1 st' :
  _clean_with_polars posts st = Some (out, st1) ->
  out <> [] ->
  exists st2, _clean_with_polars out st' = Some (out, st2).
Proof.
  intros Hrun Hout.
  assert (Hposts : posts <> []) by (intros ->; discriminate Hrun).
  destruct (clean_with_polars_spec posts st Hposts) as (st1' & Hspec).
  rewrite Hspec in Hrun. injection Hrun as <- _.
  destruct (clean_with_polars_spec _ st' Hout) as (st2 & Hspec2).
  exists st2. rewrite Hspec2. do 2 f_equal.
  apply omap_fixed. intros q Hq.
  apply list_elem_of_omap in Hq. destruct Hq as (p & _ & Hp).
  apply collected_inv in Hp. destruct Hp as (-> & u & Hu & Hu' & Hin & _).
  unfold collected. rewrite Hu'.
  rewrite (bool_decide_true _ (cleaned_urls_stable posts u Hin)).
  rewrite clean_post_comments_idempotent. reflexivity.
Qed.

End CleanerPolars.

Lemma polars_idempotent_example :
  exists st st',
    data_cleaner._clean_with_polars (H := ascii_lib)
      [samples.thread_a; samples.untitled; samples.thread_b] data_cleaner.__init__
    = Some ([samples.thread_a; samples.thread_b], st)
    /\ data_cleaner._clean_with_polars (H := ascii_lib)
         [samples.thread_a; samples.thread_b] st
       = Some ([samples.thread_a; samples.thread_b], st').
Proof.
  eexists. eexists. split; vm_compute; reflexivity.
Qed.


(** ** The shipped configuration and the scenarios of the specification *)

(** The keyword lists of [config.py] have no repeated entry, so that the
    number of entries that match is the number of distinct keywords that
    match. *)
Lemma configured_keywords_distinct :
  NoDup config.KEYWORDS_primary /\ NoDup config.KEYWORDS_secondary
  /\ NoDup config.KEYWORDS_exclude.
Proof.
  repeat split; apply (bool_decide_unpack _); vm_compute; exact I.
Qed.

Lemma count_if_distinct (f : list N -> bool) (kws : list (list N)) :
  NoDup kws ->
  count_if f kws
  = size (list_to_set (filter (fun kw => f kw = true) kws) : gset (list N)).
Proof.
  intros Hnd. unfold count_if. symmetry.
  apply size_list_to_set, NoDup_filter, Hnd.
Qed.

(** [helpers.calculate_relevance_score] weighs the share of the keywords
    that match, not their number: the post that [evaluate_post_simple]
    scores 0.9 gets 6/55 + 1/40 from it. *)
Lemma calculate_relevance_score_differs :
  (relevance_evaluator.calculate_relevance_score (H := ascii_lib)
     (relevance_evaluator.full_text (H := ascii_lib) samples.on_topic)
     config.KEYWORDS_primary config.KEYWORDS_secondary
     (Some config.KEYWORDS_exclude) == 59 # 440)%Q.
Proof. vm_compute. reflexivity. Qed.

(** A record whose title is blank after cleaning is dropped and counted
    as invalid. *)
Lemma blank_title_is_invalid :
  exists st,
    data_cleaner.clean_posts (H := ascii_lib) false
      [samples.thread_a; samples.untitled] data_cleaner.__init__
    = Some ([samples.thread_a], st)
    /\ data_cleaner.invalid_removed st = 1
    /\ data_cleaner.removed_duplicates st = 0.
Proof. eexists. split; [vm_compute; reflexivity|]. split; reflexivity. Qed.

(** Twenty posts, nineteen of them with fifty comments, all with an
    author and none with a date: 30 + 30 + 0 + 20. *)
Lemma quality_score_eighty :
  let c := quality_analyzer._perform_quality_checks samples.twenty_posts in
  quality_analyzer.meets_min_posts c = true
  /\ quality_analyzer.meets_min_comments c = true
  /\ (quality_analyzer.overall_quality_score c == 80)%Q.
Proof. repeat split; vm_compute; reflexivity. Qed.

(** The dates the sample library parses, the date it finds by the loose
    pattern, and the text it leaves alone. *)
Lemma parse_date_examples :
  let parse s := data_merge_and_clean_v3.parse_date (H := ascii_lib)
                   (H0 := data_merge_and_clean_v3.ascii_dates)
                   (PyStr (utf8 s)) in
  let ok s := data_merge_and_clean_v3.Returned (utf8 s) in
  parse "2024-01-15T10:30:00.123Z"%string = ok "2024-01-15"%string
  /\ parse "2024-01-15 10:30:00"%string = ok "2024-01-15"%string
  /\ parse "2024/1/5"%string = ok "2024-01-05"%string
  /\ parse "2024-02-30"%string = ok "2024-02-30"%string
  /\ parse "posted 2023/4/5 at noon"%string = ok "2023-04-05"%string
  /\ parse "3 days ago"%string = ok "3 days ago"%string.
Proof. repeat split; vm_compute; reflexivity. Qed.

(** ** More on text cleaning and truncation *)

Section CleanTextMore.
Import helpers props.

Lemma clean_text_unfold t :
  clean_text t
  = if negb (truthy t) then [] else strip (sub_spaces false (sub_tags t)).
Proof. reflexivity. Qed.

(** In normalised text every white-space character is a plain space. *)
Lemma ws_normal_spaces s :
  ws_normal s -> Forall (fun c => isspace c = true -> c = SPACE) s.
Proof.
  induction s as [|c s IH]; [constructor|]. intros [Hc Hs].
  constructor; [|auto]. intros Hsp. apply Hc, Hsp.
Qed.

Lemma replace_char_absent old new s :
  Forall (fun c => c <> old) s -> replace_char old new s = s.
Proof.
  induction 1 as [|c s Hc _ IH]; [reflexivity|].
  unfold replace_char in *. cbn [flat_map].
  rewrite IH. apply N.eqb_neq in Hc. rewrite Hc. reflexivity.
Qed.

Lemma sub_spaces_no_newlines s :
  let t := sub_spaces false s in
  replace_char 13 [] (replace_char 10 [SPACE] t) = t.
Proof.
  cbv zeta. destruct (sub_spaces_normal s false) as [Hn _].
  apply ws_normal_spaces in Hn.
  rewrite (replace_char_absent 10).
  - apply replace_char_absent. eapply Forall_impl; [exact Hn|].
    intros c Hc ->. specialize (Hc eq_refl). discriminate Hc.
  - eapply Forall_impl; [exact Hn|].
    intros c Hc ->. specialize (Hc eq_refl). discriminate Hc.
Qed.

Lemma clean_text_remove_newlines_eq text flag :
  clean_text_remove_newlines text flag = clean_text text.
Proof.
  rewrite clean_text_unfold. unfold clean_text_remove_newlines.
  destruct (negb (truthy text)); [reflexivity|].
  destruct flag; [|reflexivity].
  rewrite sub_spaces_no_newlines. reflexivity.
Qed.

(** X1. The option [remove_newlines] of [clean_text] changes nothing: the
    replacement of white-space runs has already turned every newline and
    carriage return into a space. *)
Theorem clean_text_remove_newlines_no_effect (text : list N) :
  clean_text_remove_newlines text true = clean_text_remove_newlines text false.
Proof.
  unfold clean_text_remove_newlines.
  destruct (negb (truthy text)); [reflexivity|]. cbv zeta.
  destruct (sub_spaces_normal (sub_tags text) false) as [Hnormal _].
  apply ws_normal_spaces in Hnormal.
  assert (Hkeep : forall old new, isspace old = true -> old <> SPACE ->
            replace_char old new (sub_spaces false (sub_tags text))
            = sub_spaces false (sub_tags text)).
  { intros old new Hws Hold. apply replace_char_absent.
    eapply Forall_impl; [exact Hnormal|].
    intros c Hc ->. apply Hold, Hc, Hws. }
  rewrite (Hkeep 10%N [SPACE]) by (try reflexivity; discriminate).
  rewrite (Hkeep 13%N []) by (try reflexivity; discriminate).
  reflexivity.
Qed.

Lemma clean_text_ws_normal t : ws_normal (clean_text t).
Proof.
  rewrite clean_text_unfold. destruct (negb (truthy t)); [exact I|].
  apply ws_normal_strip, sub_spaces_normal.
Qed.

Lemma clean_text_tagfree t : tagfree (clean_text t).
Proof.
  rewrite clean_text_unfold. destruct (negb (truthy t)); [exact I|].
  apply tagfree_strip, tagfree_sub_spaces, tagfree_sub_tags.
Qed.

Lemma strip_starts_solid s : starts_solid (strip s).
Proof.
  unfold strip. destruct (rstrip_prefix (lstrip s)) as [w Hw].
  pose proof (lstrip_solid s) as Hs. rewrite Hw in Hs.
  destruct (rstrip (lstrip s)); [exact I | exact Hs].
Qed.

Lemma rstrip_ends_solid s c : last (rstrip s) = Some c -> isspace c = false.
Proof.
  unfold rstrip. pose proof (lstrip_solid (rev s)) as Hs.
  destruct (lstrip (rev s)) as [|d r]; [discriminate|].
  cbn [rev]. rewrite last_snoc. intros [= <-]. exact Hs.
Qed.

Lemma ws_normal_no_double s i :
  ws_normal s -> s !! i = Some SPACE -> s !! S i <> Some SPACE.
Proof.
  revert i. induction s as [|c s IH]; intros i Hn.
  { rewrite lookup_nil. discriminate. }
  destruct Hn as [Hc Hs]. destruct i as [|i].
  - cbn. intros [= ->]. destruct (Hc eq_refl) as [_ Hsolid].
    destruct s as [|d s]; [discriminate|]. cbn. intros [= ->].
    discriminate Hsolid.
  - cbn. apply IH, Hs.
Qed.

(** X2. The white space of a cleaned text: none at either end, nothing
    but plain spaces, and never two in a row. *)
Theorem clean_text_white_space (text : list N) :
  let out := clean_text text in
  (forall c, head out = Some c -> isspace c = false)
  /\ (forall c, last out = Some c -> isspace c = false)
  /\ (forall c, c ∈ out -> isspace c = true -> c = SPACE)
  /\ (forall i, out !! i = Some SPACE -> out !! S i <> Some SPACE).
Proof.
  cbv zeta. split; [|split; [|split]].
  - rewrite clean_text_unfold. destruct (negb (truthy text)); [discriminate|].
    pose proof (strip_starts_solid (sub_spaces false (sub_tags text))) as Hs.
    intros c. destruct (strip _); [discriminate|]. cbn. intros [= <-]. exact Hs.
  - rewrite clean_text_unfold. destruct (negb (truthy text)); [discriminate|].
    intros c. apply rstrip_ends_solid.
  - intros c Hc. pose proof (ws_normal_spaces _ (clean_text_ws_normal text)) as Hf.
    rewrite Forall_forall in Hf. apply Hf, Hc.
  - intros i. apply ws_normal_no_double, clean_text_ws_normal.
Qed.

Lemma after_gt_found mid post :
  exists r, after_gt (mid ++ GT :: post) = Some r.
Proof.
  induction mid as [|c mid [r IH]]; cbn [app after_gt].
  - rewrite N.eqb_refl. eauto.
  - destruct (c =? GT)%N; eauto.
Qed.

(** X3. No tag is left in a cleaned text: no ['<'] is followed by one or
    more characters other than ['>'] and then a ['>']. *)
Theorem clean_text_leaves_no_tag (text pre mid post : list N) :
  clean_text text = pre ++ LT :: mid ++ GT :: post ->
  mid = [] \/ GT ∈ mid.
Proof.
  intros Hout. pose proof (clean_text_tagfree text) as Hfree.
  rewrite Hout in Hfree. apply tagfree_app_r in Hfree.
  destruct Hfree as [Hm _].
  destruct mid as [|d mid]; [left; reflexivity|]. right.
  unfold tag_match in Hm. rewrite N.eqb_refl in Hm. cbn in Hm.
  destruct (d =? GT)%N eqn:Ed.
  - apply N.eqb_eq in Ed. subst d. apply list_elem_of_here.
  - destruct (after_gt_found mid post) as [r Hr]. congruence.
Qed.

(** X4. Cleaning is idempotent, whatever the options of the two calls. *)
Theorem clean_text_twice (text : list N) (flag flag' : bool) :
  clean_text_remove_newlines (clean_text_remove_newlines text flag) flag'
  = clean_text_remove_newlines text flag.
Proof.
  rewrite !clean_text_remove_newlines_eq. apply clean_text_idempotent.
Qed.

End CleanTextMore.

Lemma clean_text_leaves_no_tag_witness :
  helpers.clean_text (utf8 "a <>b> c")
  = utf8 "a " ++ helpers.LT :: utf8 ">b" ++ helpers.GT :: utf8 " c"
  /\ (utf8 ">b" = [] \/ helpers.GT ∈ utf8 ">b").
Proof.
  split; [vm_compute; reflexivity|].
  apply (clean_text_leaves_no_tag (utf8 "a <>b> c") (utf8 "a ") (utf8 ">b")
           (utf8 " c")).
  vm_compute. reflexivity.
Defined.

Section Truncate.
Import helpers.

Lemma truncate_text_long text max_length suffix :
  text <> [] ->
  (max_length < Z.of_nat (length text))%Z ->
  truncate_text text max_length suffix
  = slice_to text (max_length - Z.of_nat (length suffix)) ++ suffix.
Proof.
  intros Hne Hlong. unfold truncate_text.
  destruct text as [|c text]; [contradiction|].
  cbn [truthy negb orb].
  destruct (Z.of_nat (length (c :: text)) <=? max_length)%Z eqn:E; [lia|].
  reflexivity.
Qed.

(** X5. With room for the suffix, [truncate_text] never returns more than
    [max_length] characters, and a text that is too long is cut to exactly
    [max_length] characters, the suffix included. *)
Theorem truncate_text_fits (text : list N) (max_length : Z) (suffix : list N) :
  (Z.of_nat (length suffix) <= max_length)%Z ->
  let out := truncate_text text max_length suffix in
  (Z.of_nat (length out) <= max_length)%Z
  /\ ((max_length < Z.of_nat (length text))%Z ->
      out = take (Z.to_nat max_length - length suffix) text ++ suffix
      /\ Z.of_nat (length out) = max_length).
Proof.
  intros Hroom. cbv zeta.
  assert (Hlong : (max_length < Z.of_nat (length text))%Z ->
    truncate_text text max_length suffix
    = take (Z.to_nat max_length - length suffix) text ++ suffix
    /\ Z.of_nat (length (truncate_text text max_length suffix)) = max_length).
  { intros Hlt. rewrite truncate_text_long;
      [|intros ->; cbn in Hlt; lia | exact Hlt].
    unfold slice_to.
    destruct (max_length - Z.of_nat (length suffix) <? 0)%Z eqn:E; [lia|].
    replace (Z.to_nat (max_length - Z.of_nat (length suffix)))
      with (Z.to_nat max_length - length suffix) by lia.
    split; [reflexivity|].
    rewrite length_app, length_take. lia. }
  split; [|exact Hlong].
  destruct (Z_lt_le_dec max_length (Z.of_nat (length text))) as [Hlt|Hle].
  - destruct (Hlong Hlt) as [_ ->]. lia.
  - unfold truncate_text.
    destruct (Z.of_nat (length text) <=? max_length)%Z eqn:E; [|lia].
    rewrite orb_true_r. exact Hle.
Qed.

(** X6. Without room for the suffix ([max_length < len(suffix)]) the slice
    index turns negative and the result of cutting a text that is too long
    is longer than [max_length]: it still ends with the whole suffix. *)
Theorem truncate_text_overflows (text : list N) (max_length : Z)
  (suffix : list N) :
  text <> [] ->
  (max_length < Z.of_nat (length text))%Z ->
  (max_length < Z.of_nat (length suffix))%Z ->
  let out := truncate_text text max_length suffix in
  (max_length < Z.of_nat (length out))%Z
  /\ out = take (length text
                 - Z.to_nat (Z.of_nat (length suffix) - max_length)) text
           ++ suffix.
Proof.
  intros Hne Hlong Hsmall. cbv zeta.
  rewrite truncate_text_long by assumption. split.
  - rewrite length_app. lia.
  - unfold slice_to.
    destruct (max_length - Z.of_nat (length suffix) <? 0)%Z eqn:E; [|lia].
    do 2 f_equal. lia.
Qed.

End Truncate.

Lemma truncate_text_fits_witness :
  (Z.of_nat (length (utf8 "...")) <= 10)%Z
  /\ helpers.truncate_text (utf8 "large language models") 10 (utf8 "...")
     = utf8 "large l...".
Proof.
  split; [vm_compute; discriminate|].
  destruct (truncate_text_fits (utf8 "large language models") 10 (utf8 "..."))
    as [_ Hcut]; [vm_compute; discriminate|].
  destruct Hcut as [-> _]; [vm_compute; reflexivity|].
  vm_compute. reflexivity.
Defined.

Lemma truncate_text_overflows_witness :
  utf8 "abcdefgh" <> []
  /\ (2 < Z.of_nat (length (utf8 "abcdefgh")))%Z
  /\ (2 < Z.of_nat (length (utf8 "...")))%Z
  /\ helpers.truncate_text (utf8 "abcdefgh") 2 (utf8 "...") = utf8 "abcdefg...".
Proof.
  split; [vm_compute; discriminate|].
  split; [vm_compute; reflexivity|]. split; [vm_compute; reflexivity|].
  destruct (truncate_text_overflows (utf8 "abcdefgh") 2 (utf8 "..."))
    as [_ ->];
    [vm_compute; discriminate | vm_compute; reflexivity
     | vm_compute; reflexivity |].
  vm_compute. reflexivity.
Defined.

(** ** More on the cleaner *)

Section CleanerMore.
Context `{PyLib}.
Import helpers data_cleaner props.

Lemma dedup_rec_sublist seen l : dedup_rec seen l `sublist_of` l.
Proof.
  revert seen. induction l as [|p l IH]; intros seen; [constructor|].
  cbn [dedup_rec].
  destruct (truthy (url_of p) && bool_decide (url_of p ∉ seen)).
  - apply sublist_skip, IH.
  - apply sublist_cons, IH.
Qed.

Lemma sublist_map {A B} (f : A -> B) (l1 l2 : list A) :
  l1 `sublist_of` l2 -> map f l1 `sublist_of` map f l2.
Proof. induction 1; cbn [map]; constructor; assumption. Qed.

Lemma cleaned_posts_urls_sublist l :
  map url_of (omap cleaned_post l) `sublist_of` map url_of l.
Proof.
  induction l as [|p l IH]; [constructor|].
  rewrite omap_cons. destruct (cleaned_post p) as [q|] eqn:Hq.
  - destruct (cleaned_post_fixed p q Hq) as (_ & Hu & _).
    cbn [map]. rewrite Hu. apply sublist_skip, IH.
  - cbn [map]. apply sublist_cons, IH.
Qed.

(** X7. What the pure-Python path returns: every record has a url and a
    title that are not empty, the title is in cleaned form, no two
    records share a url, and the urls come in the order of the batch. *)
Theorem python_path_output (posts : list post) (st : stats) :
  let out := (_clean_with_python posts st).1 in
  (forall q, q ∈ out ->
     url_of q <> []
     /\ exists t, title q = Some t /\ t <> [] /\ clean_text t = t)
  /\ NoDup (map url_of out)
  /\ map url_of out `sublist_of` map url_of posts.
Proof.
  destruct (clean_with_python_spec posts st) as (Hout & _).
  cbv zeta. rewrite Hout. split; [|split].
  - intros q Hq. apply list_elem_of_omap in Hq. destruct Hq as (p & _ & Hp).
    destruct (cleaned_post_fixed p q Hp) as (_ & _ & Hu).
    split; [intros E; rewrite E in Hu; discriminate|].
    rewrite cleaned_post_eq in Hp. destruct (title p) as [t|]; [|discriminate].
    destruct (truthy (clean_text t)) eqn:Ht; [|discriminate].
    destruct (truthy (url_of p)); [|discriminate].
    injection Hp as <-. exists (clean_text t). cbn [title].
    split; [reflexivity|]. split; [|apply clean_text_idempotent].
    intros E. rewrite E in Ht. discriminate.
  - apply cleaned_posts_urls, dedup_rec_sound.
  - etransitivity; [apply cleaned_posts_urls_sublist|].
    apply sublist_map, dedup_rec_sublist.
Qed.

(** X8. The counters of a cleaner that is used a second time (pure-Python
    path): [total_posts] is the size of the second batch only, while the
    two counters of dropped records still hold what the first batch
    dropped. *)
Theorem python_counters_on_reuse (batch1 batch2 : list post) :
  exists out1 st1 out2 st2,
    clean_posts false batch1 __init__ = Some (out1, st1)
    /\ clean_posts false batch2 st1 = Some (out2, st2)
    /\ total_posts st2 = length batch2
    /\ length out2 + removed_duplicates st2 + invalid_removed st2
       = length batch2 + (length batch1 - length out1).
Proof.
  unfold clean_posts.
  pose proof (python_conservation batch1 __init__) as H1. cbv zeta in H1.
  destruct (clean_with_python_spec batch1
              (set_total_posts __init__ (length batch1))) as (_ & Ht1 & _).
  destruct (_clean_with_python batch1
              (set_total_posts __init__ (length batch1))) as [out1 st1].
  pose proof (python_conservation batch2 st1) as H2. cbv zeta in H2.
  destruct (clean_with_python_spec batch2
              (set_total_posts st1 (length batch2))) as (_ & Ht2 & _).
  destruct (_clean_with_python batch2
              (set_total_posts st1 (length batch2))) as [out2 st2] eqn:E2.
  exists out1, st1, out2, st2. rewrite E2. cbn in *. repeat split; lia.
Qed.

(** X9. The Polars path returns the records of the batch with their
    [title] and [content] as they came: the cleaned columns of the frame
    only decide which urls are kept, and nothing but the comments of a
    returned record is cleaned. *)
Theorem polars_path_keeps_raw_text (posts : list post) (st : stats)
  (out : list post) (st' : stats) :
  _clean_with_polars posts st = Some (out, st') ->
  forall q, q ∈ out ->
    exists p, p ∈ posts
      /\ q = mk_post (url p) (platform p) (title p) (content p) (author p)
                     (created_at p) (cleaned_comment_list (comments p)).
Proof.
  intros Hrun q Hq.
  assert (Hposts : posts <> []) by (intros ->; discriminate Hrun).
  destruct (clean_with_polars_spec posts st Hposts) as (st1 & Hspec).
  rewrite Hspec in Hrun. injection Hrun as <- _.
  apply list_elem_of_omap in Hq. destruct Hq as (p & Hp & Hc).
  exists p. split; [exact Hp|].
  apply collected_inv in Hc. destruct Hc as (-> & _).
  apply clean_post_comments_eq.
Qed.

(** X10. What [_clean_comments] returns: no more comments than it was
    given, each with a content that is not empty and in cleaned form, and
    with integer vote counts wherever the keys exist. *)
Theorem clean_comments_output (cs : list comment) :
  let out := _clean_comments cs in
  length out <= length cs
  /\ forall c, c ∈ out ->
       (exists t, c_content c = Some t /\ t <> [] /\ clean_text t = t)
       /\ (forall v, c_upvotes c = Some v -> exists z, v = PyInt z)
       /\ (forall v, c_downvotes c = Some v -> exists z, v = PyInt z).
Proof.
  cbv zeta. split; [apply omap_length_le|].
  intros c Hc. unfold _clean_comments in Hc. apply list_elem_of_omap in Hc.
  destruct Hc as (c0 & _ & Hc). unfold clean_comment in Hc.
  destruct c0 as [a [t|] up down]; cbn in Hc; [|discriminate].
  destruct (negb (truthy (clean_text t))) eqn:Ht; [discriminate|].
  injection Hc as <-. cbn [c_content c_upvotes c_downvotes]. split; [|split].
  - exists (clean_text t). split; [reflexivity|].
    split; [|apply clean_text_idempotent].
    intros E. rewrite E in Ht. discriminate.
  - intros v. destruct up as [u|]; [|discriminate]. cbn. intros [= <-].
    destruct u; cbn; eauto.
  - intros v. destruct down as [u|]; [|discriminate]. cbn. intros [= <-].
    destruct u; cbn; eauto.
Qed.

Lemma clean_post_comments_count p st :
  cleaned_comments (clean_post_comments p st).2
  = cleaned_comments st + length (get_comments (clean_post_comments p st).1).
Proof.
  unfold clean_post_comments, get_comments.
  destruct (comments p) as [[|c cs]|] eqn:Hc; cbn; rewrite ?Hc; cbn; lia.
Qed.

Lemma comments_total_app l1 l2 :
  comments_total (l1 ++ l2) = comments_total l1 + comments_total l2.
Proof. unfold comments_total. rewrite map_app, list_sum_app. reflexivity. Qed.

Lemma fold_clean_step_comments l acc st :
  let r := fold_left clean_step l (acc, st) in
  cleaned_comments r.2 + comments_total acc
  = cleaned_comments st + comments_total r.1.
Proof.
  revert acc st. induction l as [|p l IH]; intros acc st; [reflexivity|].
  cbn [fold_left]. rewrite clean_step_eq.
  destruct (cleaned_post p) as [q|] eqn:Hq.
  - specialize (IH (acc ++ [q]) (clean_post_comments (clean_fields p) st).2).
    cbv zeta in *. rewrite comments_total_app in IH.
    pose proof (clean_post_comments_count (clean_fields p) st) as Hc.
    assert (Hq' : q = (clean_post_comments (clean_fields p) st).1).
    { unfold cleaned_post in Hq.
      destruct (missing_required (clean_fields p)); [discriminate|].
      injection Hq as <-. apply clean_post_comments_post. }
    rewrite <- Hq' in Hc. unfold comments_total at 2 in IH. cbn in IH. lia.
  - specialize (IH acc (set_invalid_removed st (invalid_removed st + 1))).
    cbv zeta in *. cbn in IH. exact IH.
Qed.

Lemma fold_collect_step_comments urls l acc st :
  let r := fold_left (collect_step urls) l (acc, st) in
  cleaned_comments r.2 + comments_total acc
  = cleaned_comments st + comments_total r.1.
Proof.
  revert acc st. induction l as [|p l IH]; intros acc st; [reflexivity|].
  cbn [fold_left]. unfold collect_step at 2 4.
  destruct (url p) as [u|]; [|apply IH].
  destruct (bool_decide (u ∈ urls)); [|apply IH].
  pose proof (clean_post_comments_count p st) as Hc.
  destruct (clean_post_comments p st) as [p1 st1]. cbn [fst snd] in Hc.
  specialize (IH (acc ++ [p1]) st1). cbv zeta in *.
  rewrite comments_total_app in IH. unfold comments_total at 2 in IH.
  cbn in IH. lia.
Qed.

(** X11. On both paths the counter [cleaned_comments] grows by the number
    of comments that the returned records hold: it counts the comments
    that are kept, not the ones that are dropped. *)
Theorem cleaned_comments_counts_kept (POLARS_AVAILABLE : bool)
  (posts : list post) (st : stats) (out : list post) (st' : stats) :
  clean_posts POLARS_AVAILABLE posts st = Some (out, st') ->
  cleaned_comments st' = cleaned_comments st + comments_total out.
Proof.
  unfold clean_posts. destruct POLARS_AVAILABLE.
  - destruct posts as [|p posts]; [discriminate|].
    cbv beta iota zeta delta [_clean_with_polars].
    set (urls := map r_url _). set (st2 := set_invalid_removed _ _).
    pose proof (fold_collect_step_comments urls (p :: posts) [] st2) as Hf.
    cbv zeta in Hf.
    destruct (fold_left (collect_step urls) (p :: posts) ([], st2))
      as [out0 st0].
    intros [= <- <-]. cbn [fst snd] in Hf.
    change (comments_total []) with 0 in Hf.
    change (cleaned_comments st2) with (cleaned_comments st) in Hf. lia.
  - intros Hrun. injection Hrun as Hrun. unfold _clean_with_python in Hrun.
    pose proof (fold_dedup_step posts ∅ [] (set_total_posts st (length posts)))
      as Hd. cbv zeta in Hd.
    destruct (fold_left dedup_step posts
                (∅, [], set_total_posts st (length posts)))
      as [[seen unique] st1].
    cbn [fst snd] in Hd. destruct Hd as (_ & _ & _ & _ & Hc1).
    pose proof (fold_clean_step_comments unique [] st1) as Hc2.
    cbv zeta in Hc2. rewrite Hrun in Hc2. cbn [fst snd] in Hc2.
    change (comments_total []) with 0 in Hc2. cbn in Hc1. lia.
Qed.

End CleanerMore.
Lemma polars_path_keeps_raw_text_witness :
  data_cleaner._clean_with_polars (H := ascii_lib) [samples.marked_up]
    data_cleaner.__init__
  = Some ([samples.marked_up_kept], data_cleaner.mk_stats 0 0 1 0)
  /\ exists p, p ∈ [samples.marked_up]
       /\ samples.marked_up_kept
          = mk_post (url p) (platform p) (title p) (content p) (author p)
                    (created_at p)
                    (props.cleaned_comment_list (H := ascii_lib) (comments p)).
Proof.
  split; [vm_compute; reflexivity|].
  apply (polars_path_keeps_raw_text (H := ascii_lib) [samples.marked_up]
           data_cleaner.__init__ [samples.marked_up_kept]
           (data_cleaner.mk_stats 0 0 1 0)).
  - vm_compute. reflexivity.
  - apply list_elem_of_here.
Defined.

Lemma cleaned_comments_counts_kept_witness :
  data_cleaner.clean_posts (H := ascii_lib) true [samples.marked_up]
    data_cleaner.__init__
  = Some ([samples.marked_up_kept], data_cleaner.mk_stats 1 0 1 0)
  /\ data_cleaner.cleaned_comments (data_cleaner.mk_stats 1 0 1 0)
     = data_cleaner.cleaned_comments data_cleaner.__init__
       + props.comments_total [samples.marked_up_kept].
Proof.
  split; [vm_compute; reflexivity|].
  apply (cleaned_comments_counts_kept (H := ascii_lib) true [samples.marked_up]).
  vm_compute. reflexivity.
Defined.

(** ** More on the relevance evaluator *)

Section RelevanceMore.
Context `{PyLib}.
Import relevance_evaluator.

(** The evaluation when no exclude keyword occurs, with the score in
    closed form. *)
Lemma evaluate_post_simple_open self post_data :
  find (kw_in (full_text post_data)) (exclude_keywords self) = None ->
  let text := full_text post_data in
  let r := evaluate_post_simple self post_data in
  exists s2,
    (s2 == 0.4 * Qnat (count_if (kw_in text) (primary_keywords self))
           + 0.1 * Qnat (count_if (kw_in text) (secondary_keywords self)))%Q
    /\ score r = py_min s2 1
    /\ is_relevant r = Qle_bool 0.5 (py_min s2 1)
    /\ 1 <= length (reasons r) <= 2.
Proof.
  intros Hex. cbv zeta. unfold evaluate_post_simple. rewrite Hex.
  set (text := full_text post_data).
  pose proof (fold_match_step 0.4 text (primary_keywords self) [] 0%Q) as Hp.
  destruct (fold_left (match_step 0.4 text) (primary_keywords self) ([], 0%Q))
    as [pm s1].
  cbv zeta in Hp. cbn [fst snd] in Hp. destruct Hp as [_ Hs1].
  pose proof (fold_match_step 0.1 text (secondary_keywords self) [] s1) as Hs.
  destruct (fold_left (match_step 0.1 text) (secondary_keywords self) ([], s1))
    as [sm s2].
  cbv zeta in Hs. cbn [fst snd] in Hs. destruct Hs as [_ Hs2].
  exists s2. cbn [score is_relevant reasons].
  split; [rewrite Hs2, Hs1; ring|]. split; [reflexivity|].
  split; [reflexivity|].
  destruct pm, sm; cbn [length app]; lia.
Qed.

(** X12. Every evaluation is well formed: the score lies between 0 and 1,
    there are one or two reasons, and a post is only called relevant when
    no exclude keyword occurs and its score is at least 0.5. *)
Theorem evaluate_post_simple_well_formed (self : evaluation_criteria)
  (post_data : post) :
  let r := evaluate_post_simple self post_data in
  (0 <= score r <= 1)%Q
  /\ 1 <= length (reasons r) <= 2
  /\ (is_relevant r = true ->
      (0.5 <= score r)%Q
      /\ existsb (kw_in (full_text post_data)) (exclude_keywords self) = false).
Proof.
  cbv zeta.
  destruct (existsb (kw_in (full_text post_data)) (exclude_keywords self))
    eqn:Hex.
  - destruct (existsb_find _ _ Hex) as (kw & Hfind & _).
    unfold evaluate_post_simple. rewrite Hfind.
    cbn [score is_relevant reasons length].
    split; [split; discriminate|]. split; [lia | discriminate].
  - apply find_existsb in Hex.
    destruct (evaluate_post_simple_open self post_data Hex)
      as (s2 & Hs2 & -> & -> & Hlen).
    split; [split|split; [exact Hlen|]].
    + apply py_min_glb; [|discriminate]. rewrite Hs2.
      pose proof (Qnat_nonneg (count_if (kw_in (full_text post_data))
                                 (primary_keywords self))).
      pose proof (Qnat_nonneg (count_if (kw_in (full_text post_data))
                                 (secondary_keywords self))).
      lra.
    + apply py_min_le_r.
    + intros Hrel. split; [apply Qle_bool_iff, Hrel | reflexivity].
Qed.

Lemma Qnat_mult n m : (Qnat (n * m) == Qnat n * Qnat m)%Q.
Proof. unfold Qnat. rewrite Nat2Z.inj_mul, inject_Z_mult. reflexivity. Qed.

(** X13. The threshold in terms of matches: when no exclude keyword
    occurs, a post is relevant exactly when four times the number of
    primary keywords that occur plus the number of secondary keywords
    that occur is at least five. *)
Theorem relevant_iff_enough_matches (self : evaluation_criteria)
  (post_data : post) :
  existsb (kw_in (full_text post_data)) (exclude_keywords self) = false ->
  let text := full_text post_data in
  is_relevant (evaluate_post_simple self post_data) = true
  <-> 5 <= 4 * count_if (kw_in text) (primary_keywords self)
           + count_if (kw_in text) (secondary_keywords self).
Proof.
  intros Hex. apply find_existsb in Hex. cbv zeta.
  destruct (evaluate_post_simple_open self post_data Hex)
    as (s2 & Hs2 & _ & -> & _).
  set (p := count_if _ (primary_keywords self)) in *.
  set (s := count_if _ (secondary_keywords self)) in *.
  rewrite Qle_bool_iff.
  assert (Hint : (4 * Qnat p + Qnat s == Qnat (4 * p + s))%Q).
  { rewrite Qnat_plus, Qnat_mult. change (Qnat 4) with 4%Q. reflexivity. }
  assert (Hfive : (5 <= Qnat (4 * p + s))%Q <-> 5 <= 4 * p + s).
  { unfold Qnat. change 5%Q with (inject_Z 5). rewrite <- Zle_Qle. lia. }
  rewrite <- Hfive, <- Hint. split.
  - intros Hle. pose proof (py_min_le_l s2 1). lra.
  - intros Hle. apply py_min_glb; lra.
Qed.

Lemma fold_batch_step self method posts acc :
  fold_left (batch_step self method) posts acc
  = acc ++
    if bool_decide (method = utf8 "simple")
    then map (fun p => inl (evaluate_post_simple self p)) posts
    else if bool_decide (method = utf8 "ai_assisted")
    then map (fun p => inr (evaluate_post_ai_assisted p)) posts
    else [].
Proof.
  revert acc. induction posts as [|p posts IH]; intros acc.
  - cbn [fold_left map].
    destruct (bool_decide (method = utf8 "simple")),
             (bool_decide (method = utf8 "ai_assisted"));
      rewrite app_nil_r; reflexivity.
  - cbn [fold_left]. rewrite IH. unfold batch_step.
    destruct (bool_decide (method = utf8 "simple")).
    + rewrite <- app_assoc. reflexivity.
    + destruct (bool_decide (method = utf8 "ai_assisted")).
      * rewrite <- app_assoc. reflexivity.
      * reflexivity.
Qed.

(** X14. [batch_evaluate] answers one result for each post, in order, for
    the methods ['simple'] and ['ai_assisted']; for any other method it
    returns the empty list, whatever the posts. *)
Theorem batch_evaluate_by_method (self : evaluation_criteria)
  (posts : list post) (method : list N) :
  (method = utf8 "simple" ->
   batch_evaluate self posts method
   = map (fun p => inl (evaluate_post_simple self p)) posts)
  /\ (method = utf8 "ai_assisted" ->
      batch_evaluate self posts method
      = map (fun p => inr (evaluate_post_ai_assisted p)) posts)
  /\ (method <> utf8 "simple" -> method <> utf8 "ai_assisted" ->
      batch_evaluate self posts method = []).
Proof.
  unfold batch_evaluate. rewrite fold_batch_step. cbn [app].
  split; [|split].
  - intros ->. rewrite bool_decide_true by reflexivity. reflexivity.
  - intros ->. rewrite bool_decide_false by (vm_compute; discriminate).
    rewrite bool_decide_true by reflexivity. reflexivity.
  - intros H1 H2. rewrite !bool_decide_false by assumption. reflexivity.
Qed.

End RelevanceMore.

Lemma relevant_iff_enough_matches_witness :
  existsb (relevance_evaluator.kw_in (H := ascii_lib)
             (relevance_evaluator.full_text (H := ascii_lib) samples.on_topic))
          (relevance_evaluator.exclude_keywords relevance_evaluator.__init__)
  = false
  /\ relevance_evaluator.is_relevant
       (relevance_evaluator.evaluate_post_simple (H := ascii_lib)
          relevance_evaluator.__init__ samples.on_topic) = true.
Proof.
  split; [vm_compute; reflexivity|].
  apply (relevant_iff_enough_matches (H := ascii_lib)
           relevance_evaluator.__init__ samples.on_topic);
    [vm_compute; reflexivity|].
  apply Nat.leb_le. vm_compute. reflexivity.
Defined.

Lemma batch_evaluate_by_method_witness :
  utf8 "strict" <> utf8 "simple"
  /\ utf8 "strict" <> utf8 "ai_assisted"
  /\ relevance_evaluator.batch_evaluate (H := ascii_lib)
       relevance_evaluator.__init__ [samples.on_topic; samples.advert]
       (utf8 "strict") = [].
Proof.
  split; [vm_compute; discriminate|]. split; [vm_compute; discriminate|].
  apply (batch_evaluate_by_method (H := ascii_lib)
           relevance_evaluator.__init__ [samples.on_topic; samples.advert]
           (utf8 "strict")); vm_compute; discriminate.
Defined.

Section KeywordScore.
Context `{PyLib}.
Import relevance_evaluator.

Lemma ratio_le_one n len :
  0 < n -> n <= len -> (0 <= Qnat n / Qnat len <= 1)%Q.
Proof.
  intros Hpos Hle. assert (Hlen : (0 < Qnat len)%Q) by (apply Qnat_pos; lia).
  split.
  - apply Qle_shift_div_l; [exact Hlen|]. rewrite Qmult_0_l. apply Qnat_nonneg.
  - apply Qle_shift_div_r; [exact Hlen|]. rewrite Qmult_1_l.
    apply Qnat_le, Hle.
Qed.

Lemma py_min_inactive a b : (a <= b)%Q -> py_min a b = a.
Proof.
  intros Hle. destruct (py_min_spec a b) as [[Hlt _]|[_ ->]]; [|reflexivity].
  exfalso. apply (Qlt_not_le _ _ Hlt Hle).
Qed.

(** X15. The second keyword scorer, [calculate_relevance_score]: its
    result lies between 0 and 1, and on a text without exclude keyword it
    is 0.6 times the share of the primary keywords that occur plus 0.4
    times the share of the secondary keywords that occur; none of its
    three [min] calls ever cuts anything, and no division is by zero. *)
Theorem calculate_relevance_score_range (text : list N)
  (primary secondary : list (list N)) (exclude : option (list (list N))) :
  let r := calculate_relevance_score text primary secondary exclude in
  let pm := count_if (kw_in (lower text)) primary in
  let sm := count_if (kw_in (lower text)) secondary in
  (0 <= r <= 1)%Q
  /\ (0 < pm -> 0 < length primary)
  /\ (0 < sm -> 0 < length secondary)
  /\ (text <> [] ->
      existsb (kw_in (lower text)) (default [] exclude) = false ->
      (r == (if (0 <? pm)%nat
             then Qnat pm / Qnat (length primary) * 0.6 else 0)
            + (if (0 <? sm)%nat
               then Qnat sm / Qnat (length secondary) * 0.4 else 0))%Q).
Proof.
  cbv zeta.
  pose proof (count_if_le (kw_in (lower text)) primary) as Hp.
  pose proof (count_if_le (kw_in (lower text)) secondary) as Hs.
  set (pm := count_if (kw_in (lower text)) primary) in *.
  set (sm := count_if (kw_in (lower text)) secondary) in *.
  assert (Hopen :
    let s1 := if (0 <? pm)%nat
              then (py_min (Qnat pm / Qnat (length primary)) 1 * 0.6)%Q
              else 0%Q in
    let s2 := if (0 <? sm)%nat
              then (s1 + py_min (Qnat sm / Qnat (length secondary)) 1 * 0.4)%Q
              else s1 in
    (0 <= py_min s2 1 <= 1)%Q
    /\ (py_min s2 1
        == (if (0 <? pm)%nat
            then Qnat pm / Qnat (length primary) * 0.6 else 0)
           + (if (0 <? sm)%nat
              then Qnat sm / Qnat (length secondary) * 0.4 else 0))%Q).
  { cbv zeta.
    destruct (0 <? pm)%nat eqn:Ep; destruct (0 <? sm)%nat eqn:Es;
      try (apply Nat.ltb_lt in Ep; destruct (ratio_le_one pm (length primary))
             as [Hp0 Hp1]; [lia | lia |];
           rewrite (py_min_inactive (Qnat pm / Qnat (length primary)) 1)
             by exact Hp1);
      try (apply Nat.ltb_lt in Es; destruct (ratio_le_one sm (length secondary))
             as [Hs0 Hs1]; [lia | lia |];
           rewrite (py_min_inactive (Qnat sm / Qnat (length secondary)) 1)
             by exact Hs1);
      (rewrite py_min_inactive by lra); split; lra. }
  cbv zeta in Hopen. destruct Hopen as [Hrange Hval].
  split; [|split; [lia | split; [lia|]]].
  - unfold calculate_relevance_score.
    destruct (negb (truthy text)); [split; discriminate|].
    destruct (existsb (kw_in (lower text)) (default [] exclude));
      [split; discriminate|].
    exact Hrange.
  - intros Hne Hex. unfold calculate_relevance_score.
    destruct text as [|c text]; [contradiction|]. cbn [truthy negb].
    rewrite Hex. exact Hval.
Qed.

End KeywordScore.

(** ** More on the quality analysis *)

Section BasicStats.
Import config quality_analyzer.

Lemma fold_min_le (l : list nat) a :
  fold_left Nat.min l a <= a /\ Forall (fun x => fold_left Nat.min l a <= x) l.
Proof.
  revert a. induction l as [|x l IH]; intros a;
    [split; [cbn; lia | constructor]|].
  cbn [fold_left]. destruct (IH (Nat.min a x)) as [Ha Hl]. split; [lia|].
  constructor; [lia | exact Hl].
Qed.

Lemma fold_max_ge (l : list nat) a :
  a <= fold_left Nat.max l a /\ Forall (fun x => x <= fold_left Nat.max l a) l.
Proof.
  revert a. induction l as [|x l IH]; intros a;
    [split; [cbn; lia | constructor]|].
  cbn [fold_left]. destruct (IH (Nat.max a x)) as [Ha Hl]. split; [lia|].
  constructor; [lia | exact Hl].
Qed.

Lemma min_default_le (l : list nat) : Forall (fun x => min_default l <= x) l.
Proof.
  destruct l as [|a l]; [constructor|]. cbn [min_default].
  destruct (fold_min_le l a) as [Ha Hl]. constructor; assumption.
Qed.

Lemma max_default_ge (l : list nat) : Forall (fun x => x <= max_default l) l.
Proof.
  destruct l as [|a l]; [constructor|]. cbn [max_default].
  destruct (fold_max_ge l a) as [Ha Hl]. constructor; assumption.
Qed.

Lemma list_sum_cons x (l : list nat) : list_sum (x :: l) = x + list_sum l.
Proof. reflexivity. Qed.

Lemma list_sum_lower (l : list nat) a :
  Forall (fun x => a <= x) l -> a * length l <= list_sum l.
Proof.
  induction 1 as [|x l Hx _ IH]; [cbn; lia|].
  rewrite list_sum_cons. cbn [length]. lia.
Qed.

Lemma list_sum_upper (l : list nat) b :
  Forall (fun x => x <= b) l -> list_sum l <= b * length l.
Proof.
  induction 1 as [|x l Hx _ IH]; [cbn; lia|].
  rewrite list_sum_cons. cbn [length]. lia.
Qed.

Lemma valid_posts_weight (posts : list post) :
  MIN_COMMENTS_PER_POST * length (filter (fun p => enough_comments p = true) posts)
  <= list_sum (map n_comments posts).
Proof.
  induction posts as [|p posts IH]; [cbn; lia|].
  rewrite filter_cons. cbn [map]. rewrite list_sum_cons.
  destruct (decide (enough_comments p = true)) as [Hp|Hp].
  - unfold enough_comments in Hp. apply Nat.leb_le in Hp.
    cbn [length]. unfold n_comments at 1. lia.
  - lia.
Qed.

(** X16. The basic statistics are consistent with each other: the posts
    with enough comments are at most all posts and account for at least
    [MIN_COMMENTS_PER_POST] comments each, the total number of comments
    lies between the smallest and the largest count times the number of
    posts, and so the average lies between the minimum and the maximum. *)
Theorem basic_stats_consistent (posts : list post) :
  let s := _analyze_basic_stats posts in
  total_posts s = length posts
  /\ valid_posts s <= total_posts s
  /\ MIN_COMMENTS_PER_POST * valid_posts s <= total_comments s
  /\ min_comments s * total_posts s <= total_comments s
  /\ total_comments s <= max_comments s * total_posts s
  /\ (posts <> [] ->
      (Qnat (min_comments s) <= avg_comments_per_post s)%Q
      /\ (avg_comments_per_post s <= Qnat (max_comments s))%Q).
Proof.
  cbv zeta. unfold _analyze_basic_stats.
  cbn [total_posts valid_posts total_comments min_comments max_comments
       avg_comments_per_post].
  set (ns := map n_comments posts).
  assert (Hlen : length ns = length posts) by apply length_map.
  pose proof (list_sum_lower ns _ (min_default_le ns)) as Hlo.
  pose proof (list_sum_upper ns _ (max_default_ge ns)) as Hhi.
  rewrite Hlen in Hlo, Hhi.
  split; [reflexivity|]. split; [apply length_filter|].
  split; [apply valid_posts_weight|]. split; [exact Hlo|]. split; [exact Hhi|].
  intros Hne. assert (Hpos : 0 < length posts).
  { destruct posts; [contradiction | cbn; lia]. }
  apply Nat.ltb_lt in Hpos as Hb. rewrite Hb.
  assert (HQ : (0 < Qnat (length posts))%Q) by (apply Qnat_pos, Hpos).
  split.
  - apply Qle_shift_div_l; [exact HQ|]. rewrite <- Qnat_mult.
    apply Qnat_le, Hlo.
  - apply Qle_shift_div_r; [exact HQ|]. rewrite <- Qnat_mult.
    apply Qnat_le, Hhi.
Qed.

End BasicStats.

Section Counters.
Import config quality_analyzer props.

Lemma counter_get_add k c k' :
  counter_get (counter_add k c) k'
  = if bool_decide (k = k') then S (counter_get c k') else counter_get c k'.
Proof.
  induction c as [|[k0 n] c IH]; cbn [counter_add counter_get].
  - destruct (bool_decide (k = k')); reflexivity.
  - destruct (bool_decide (k0 = k)) eqn:E0; cbn [counter_get].
    + apply bool_decide_eq_true in E0. subst k0.
      destruct (bool_decide (k = k')); reflexivity.
    + apply bool_decide_eq_false in E0.
      destruct (bool_decide (k0 = k')) eqn:E1; [|exact IH].
      apply bool_decide_eq_true in E1. subst k0.
      rewrite bool_decide_false by congruence. reflexivity.
Qed.

Lemma counter_add_keys k c :
  map fst (counter_add k c)
  = if bool_decide (k ∈ map fst c) then map fst c else map fst c ++ [k].
Proof.
  induction c as [|[k0 n] c IH]; cbn [counter_add map fst app].
  - rewrite bool_decide_false by apply not_elem_of_nil. reflexivity.
  - destruct (bool_decide (k0 = k)) eqn:E0; cbn [map fst].
    + apply bool_decide_eq_true in E0. subst k0.
      rewrite bool_decide_true by apply list_elem_of_here. reflexivity.
    + apply bool_decide_eq_false in E0. rewrite IH.
      destruct (bool_decide (k ∈ map fst c)) eqn:E1.
      * apply bool_decide_eq_true in E1.
        rewrite bool_decide_true by (apply list_elem_of_further, E1).
        reflexivity.
      * apply bool_decide_eq_false in E1.
        rewrite bool_decide_false; [reflexivity|].
        intros Hin. apply elem_of_cons in Hin. destruct Hin; congruence.
Qed.

Lemma counter_add_NoDup k c :
  NoDup (map fst c) -> NoDup (map fst (counter_add k c)).
Proof.
  intros Hnd. rewrite counter_add_keys.
  destruct (bool_decide (k ∈ map fst c)) eqn:E; [exact Hnd|].
  apply bool_decide_eq_false in E. apply NoDup_app. split; [exact Hnd|].
  split; [|apply NoDup_singleton].
  intros x Hx Hk. apply list_elem_of_singleton in Hk. subst x. contradiction.
Qed.

Lemma counter_add_sum k c :
  list_sum (map snd (counter_add k c)) = S (list_sum (map snd c)).
Proof.
  induction c as [|[k0 n] c IH]; [reflexivity|]. cbn [counter_add].
  destruct (bool_decide (k0 = k)); cbn [map snd]; rewrite !list_sum_cons;
    [|rewrite IH]; lia.
Qed.

Lemma counter_add_positive k c :
  Forall (fun kv => 1 <= kv.2) c -> Forall (fun kv => 1 <= kv.2) (counter_add k c).
Proof.
  induction 1 as [|[k0 n] c Hn Hc IH]; cbn [counter_add].
  - repeat constructor.
  - destruct (bool_decide (k0 = k)); constructor; cbn in *; auto; lia.
Qed.

Lemma counter_get_elem c k n :
  NoDup (map fst c) -> (k, n) ∈ c -> counter_get c k = n.
Proof.
  induction c as [|[k0 n0] c IH]; intros Hnd Hin; [inversion Hin|].
  cbn [map fst] in Hnd. apply NoDup_cons in Hnd. destruct Hnd as [Hk0 Hnd].
  cbn [counter_get]. apply elem_of_cons in Hin. destruct Hin as [[= -> ->]|Hin].
  - rewrite bool_decide_true by reflexivity. reflexivity.
  - rewrite bool_decide_false; [apply IH; assumption|].
    intros ->. apply Hk0. apply elem_of_list_map. exists (k, n).
    split; [reflexivity | exact Hin].
Qed.

Lemma count_if_map {A B} (f : B -> bool) (g : A -> B) (l : list A) :
  count_if f (map g l) = count_if (fun x => f (g x)) l.
Proof.
  induction l as [|x l IH]; [reflexivity|].
  cbn [map]. rewrite !count_if_cons, IH. reflexivity.
Qed.

(** What a counter holds after counting the keys of [l] on top of [c]. *)
Lemma fold_counter_add l c :
  let r := fold_left (fun c k => counter_add k c) l c in
  (forall k, counter_get r k
             = counter_get c k + count_if (fun x => bool_decide (x = k)) l)
  /\ list_sum (map snd r) = list_sum (map snd c) + length l
  /\ (NoDup (map fst c) -> NoDup (map fst r))
  /\ (Forall (fun kv => 1 <= kv.2) c -> Forall (fun kv => 1 <= kv.2) r).
Proof.
  revert c. induction l as [|x l IH]; intros c.
  - cbn. repeat split; auto; lia.
  - cbn [fold_left]. destruct (IH (counter_add x c)) as (Hg & Hs & Hn & Hp).
    cbv zeta. split; [|split; [|split]].
    + intros k. rewrite Hg, counter_get_add, count_if_cons.
      destruct (bool_decide (x = k)); lia.
    + rewrite Hs, counter_add_sum. cbn [length]. lia.
    + intros Hc. apply Hn, counter_add_NoDup, Hc.
    + intros Hc. apply Hp, counter_add_positive, Hc.
Qed.

(** X17. The platform counts partition the corpus: every post is counted
    once, under its platform or under ['unknown'] when it has none; the
    counts add up to the number of posts; each platform is listed once,
    with the number of its posts, and that number is never zero. *)
Theorem platform_counts_partition (posts : list post) :
  let d := _analyze_platform_distribution posts in
  list_sum (map snd (platforms d)) = length posts
  /\ NoDup (map fst (platforms d))
  /\ (forall pl n, (pl, n) ∈ platforms d ->
        1 <= n
        /\ n = count_if (fun p => bool_decide (platform_of p = pl)) posts)
  /\ length (platform_percentages d) = length (platforms d).
Proof.
  cbv zeta. unfold _analyze_platform_distribution.
  cbn [platforms platform_percentages]. fold platform_of.
  unfold Counter.
  destruct (fold_counter_add (map platform_of posts) []) as (Hg & Hs & Hn & Hp).
  cbv zeta in *. set (c := fold_left _ (map platform_of posts) []) in *.
  split; [rewrite Hs, length_map; reflexivity|].
  split; [apply Hn; constructor|]. split.
  - intros pl n Hin. split.
    + assert (Hpos : Forall (fun kv : list N * nat => 1 <= kv.2) c)
        by (apply Hp; constructor).
      rewrite Forall_forall in Hpos. apply (Hpos (pl, n) Hin).
    + assert (Hnd : NoDup (map fst c)) by (apply Hn; constructor).
      rewrite <- (counter_get_elem c pl n Hnd Hin), Hg.
      cbn [counter_get]. rewrite Nat.add_0_l. exact (count_if_map (fun x => bool_decide (x = pl)) platform_of posts).
  - destruct posts; [|apply length_map].
    reflexivity.
Qed.

End Counters.

Section CommentStats.
Context `{PyLib}.
Import helpers data_cleaner config quality_analyzer props.

Lemma count_high_quality_some (cs : list comment) :
  Forall (fun c => exists b, high_quality c = Some b) cs ->
  exists n, count_high_quality cs = Some n /\ n <= length cs.
Proof.
  induction 1 as [|c cs [b Hb] _ (n & Hn & Hle)]; [exists 0; split; [reflexivity | cbn; lia]|].
  cbn [count_high_quality]. rewrite Hb, Hn. cbn.
  destruct b; eexists; (split; [reflexivity | cbn; lia]).
Qed.




Lemma cleaned_comment_list_elems cm c :
  c ∈ default [] (cleaned_comment_list cm) ->
  exists c0, clean_comment c0 = Some c.
Proof.
  destruct cm as [[|c1 cs]|]; cbn [cleaned_comment_list default];
    try (intros Hin; inversion Hin; fail).
  unfold _clean_comments. intros Hin. apply list_elem_of_omap in Hin.
  destruct Hin as (c0 & _ & Hc). eauto.
Qed.

Lemma clean_posts_comments (POLARS_AVAILABLE : bool) posts st out st' :
  clean_posts POLARS_AVAILABLE posts st = Some (out, st') ->
  forall q c, q ∈ out -> c ∈ get_comments q ->
    exists c0, clean_comment c0 = Some c.
Proof.
  unfold clean_posts. destruct POLARS_AVAILABLE; intros Hrun q c Hq Hc.
  - assert (Hposts : posts <> []) by (intros ->; discriminate Hrun).
    destruct (clean_with_polars_spec posts
                (set_total_posts st (length posts)) Hposts) as (st1 & Hspec).
    rewrite Hspec in Hrun. injection Hrun as <- _.
    apply list_elem_of_omap in Hq. destruct Hq as (p & _ & Hp).
    apply collected_inv in Hp. destruct Hp as (-> & _).
    rewrite clean_post_comments_eq in Hc.
    apply (cleaned_comment_list_elems (comments p)), Hc.
  - injection Hrun as Hrun.
    destruct (clean_with_python_spec posts (set_total_posts st (length posts)))
      as (Hout & _).
    rewrite Hrun in Hout. cbn [fst] in Hout. subst out.
    apply list_elem_of_omap in Hq. destruct Hq as (p & _ & Hp).
    rewrite cleaned_post_eq in Hp. destruct (title p) as [t|]; [|discriminate].
    destruct (truthy (clean_text t) && truthy (url_of p)); [|discriminate].
    injection Hp as <-.
    apply (cleaned_comment_list_elems (comments p)), Hc.
Qed.

Lemma clean_comment_scored c0 c :
  clean_comment c0 = Some c ->
  (exists b, high_quality c = Some b) /\ 1 <= length (get_str (c_content c)).
Proof.
  unfold clean_comment. destruct c0 as [a [t|] up down]; cbn; [|discriminate].
  destruct (negb (truthy (clean_text t))) eqn:Ht; [discriminate|].
  intros [= <-]. cbn. split.
  - unfold high_quality. cbn. destruct up as [[|z|s]|]; cbn; eauto.
  - destruct (clean_text t); [discriminate | cbn; lia].
Qed.

Lemma fold_min_glb (l : list nat) a x :
  a <= x -> Forall (fun y => a <= y) l -> a <= fold_left Nat.min l x.
Proof.
  intros Hx Hl. revert x Hx. induction Hl as [|y l Hy _ IH]; intros x Hx; [exact Hx|].
  cbn [fold_left]. apply IH. lia.
Qed.

Lemma comments_total_flat (l : list post) :
  length (flat_map get_comments l) = comments_total l.
Proof.
  unfold comments_total. induction l as [|p l IH]; [reflexivity|].
  cbn [flat_map map]. rewrite length_app, list_sum_cons, IH. reflexivity.
Qed.

(** X18. The comment statistics of a cleaned corpus: on what either path
    of [clean_posts] returns, [_analyze_comment_stats] does not raise, it
    counts the comments the returned records hold, the high-quality
    comments are among them, and the shortest comment has at least one
    character. *)
Theorem comment_stats_after_cleaning (POLARS_AVAILABLE : bool)
  (posts : list post) (st : stats) (out : list post) (st' : stats) :
  clean_posts POLARS_AVAILABLE posts st = Some (out, st') ->
  exists cs, _analyze_comment_stats out = Some cs
    /\ cs_total_comments cs = comments_total out
    /\ high_quality_count cs <= cs_total_comments cs
    /\ forall m, min_length cs = Some m -> 1 <= m.
Proof.
  intros Hrun. pose proof (clean_posts_comments _ _ _ _ _ Hrun) as Hclean.
  pose proof (comments_total_flat out) as Htotal.
  unfold _analyze_comment_stats.
  assert (Hall : Forall (fun c => (exists b, high_quality c = Some b)
                                  /\ 1 <= length (get_str (c_content c)))
                        (flat_map get_comments out)).
  { apply Forall_forall. intros c Hc.
    apply list_elem_of_In, in_flat_map in Hc. destruct Hc as (q & Hq & Hc).
    apply list_elem_of_In in Hq, Hc.
    destruct (Hclean q c Hq Hc) as (c0 & Hc0).
    apply (clean_comment_scored c0 c Hc0). }
  destruct (flat_map get_comments out) as [|c0 rest] eqn:Hflat.
  - eexists. split; [reflexivity|].
    cbn [cs_total_comments high_quality_count min_length].
    split; [exact Htotal|]. split; [lia | discriminate].
  - destruct (count_high_quality_some (c0 :: rest)) as (n & Hn & Hle).
    { eapply Forall_impl; [exact Hall|]. intros c [Hb _]. exact Hb. }
    rewrite Hn. eexists. split; [reflexivity|].
    cbn [cs_total_comments high_quality_count min_length].
    split; [exact Htotal|]. split; [exact Hle|].
    intros m [= <-]. cbn [map min_default].
    apply Forall_cons in Hall. destruct Hall as [[_ H0] Hrest].
    apply fold_min_glb; [exact H0|].
    apply Forall_forall. intros y Hy. apply elem_of_list_map in Hy.
    destruct Hy as (c & -> & Hc). rewrite Forall_forall in Hrest.
    apply (Hrest c Hc).
Qed.

End CommentStats.

Lemma comment_stats_after_cleaning_witness :
  data_cleaner.clean_posts (H := ascii_lib) true [samples.marked_up]
    data_cleaner.__init__
  = Some ([samples.marked_up_kept], data_cleaner.mk_stats 1 0 1 0)
  /\ exists cs,
       quality_analyzer._analyze_comment_stats [samples.marked_up_kept] = Some cs
       /\ quality_analyzer.cs_total_comments cs
          = props.comments_total [samples.marked_up_kept]
       /\ quality_analyzer.high_quality_count cs
          <= quality_analyzer.cs_total_comments cs
       /\ forall m, quality_analyzer.min_length cs = Some m -> 1 <= m.
Proof.
  split; [vm_compute; reflexivity|].
  apply (comment_stats_after_cleaning (H := ascii_lib) true [samples.marked_up]
           data_cleaner.__init__ [samples.marked_up_kept]
           (data_cleaner.mk_stats 1 0 1 0)).
  vm_compute. reflexivity.
Defined.

Section KeywordCoverage.
Context `{PyLib}.
Import config quality_analyzer props.
Import relevance_evaluator (kw_in).

Lemma incr_keys kw d : map fst (incr kw d) = map fst d.
Proof.
  induction d as [|[k n] d IH]; [reflexivity|]. cbn [incr].
  destruct (bool_decide (k = kw)); cbn [map fst]; [|rewrite IH]; reflexivity.
Qed.

Lemma counter_get_incr kw d k :
  kw ∈ map fst d ->
  counter_get (incr kw d) k
  = if bool_decide (kw = k) then S (counter_get d k) else counter_get d k.
Proof.
  induction d as [|[k0 n] d IH]; intros Hin; [inversion Hin|].
  cbn [incr]. destruct (bool_decide (k0 = kw)) eqn:E0; cbn [counter_get].
  - apply bool_decide_eq_true in E0. subst k0.
    destruct (bool_decide (kw = k)); reflexivity.
  - apply bool_decide_eq_false in E0. cbn [map fst] in Hin.
    apply elem_of_cons in Hin. destruct Hin as [->|Hin]; [contradiction|].
    destruct (bool_decide (k0 = k)) eqn:E1; [|apply IH, Hin].
    apply bool_decide_eq_true in E1. subst k0.
    rewrite bool_decide_false by congruence. reflexivity.
Qed.

Lemma count_matches_spec text ks d :
  (forall kw, kw ∈ ks -> kw ∈ map fst d) ->
  map fst (count_matches text ks d) = map fst d
  /\ forall k, counter_get (count_matches text ks d) k
               = counter_get d k
                 + count_if (fun kw => bool_decide (kw = k) && kw_in text kw) ks.
Proof.
  unfold count_matches. revert d. induction ks as [|kw ks IH]; intros d Hks.
  - split; [reflexivity|]. intros k. cbn. lia.
  - cbn [fold_left]. fold (kw_in text kw).
    assert (Hkw : kw ∈ map fst d) by apply Hks, list_elem_of_here.
    destruct (IH (if kw_in text kw then incr kw d else d)) as [Hkeys Hget].
    { intros kw' Hin. destruct (kw_in text kw); [rewrite incr_keys|];
        apply Hks, list_elem_of_further, Hin. }
    split.
    + rewrite Hkeys. destruct (kw_in text kw); [apply incr_keys | reflexivity].
    + intros k. rewrite Hget, count_if_cons.
      destruct (kw_in text kw) eqn:Hh.
      * rewrite (counter_get_incr kw d k Hkw).
        destruct (bool_decide (kw = k)); cbn [andb]; lia.
      * rewrite andb_false_r. reflexivity.
Qed.

Lemma count_if_single (ks : list (list N)) k (f : list N -> bool) :
  NoDup ks -> k ∈ ks ->
  count_if (fun kw => bool_decide (kw = k) && f kw) ks = if f k then 1 else 0.
Proof.
  induction ks as [|k0 ks IH]; intros Hnd Hin; [inversion Hin|].
  apply NoDup_cons in Hnd. destruct Hnd as [Hk0 Hnd]. rewrite count_if_cons.
  assert (Hout : forall l, k ∉ l ->
            count_if (fun kw => bool_decide (kw = k) && f kw) l = 0).
  { clear. induction l as [|x l IHl]; intros Hk; [reflexivity|].
    rewrite count_if_cons, bool_decide_false.
    - apply IHl. intros Hl. apply Hk, list_elem_of_further, Hl.
    - intros ->. apply Hk, list_elem_of_here. }
  apply elem_of_cons in Hin. destruct Hin as [->|Hin].
  - rewrite bool_decide_true by reflexivity. cbn [andb].
    rewrite (Hout ks Hk0). destruct (f k0); reflexivity.
  - rewrite bool_decide_false by (intros ->; contradiction). cbn [andb].
    apply IH; assumption.
Qed.

Lemma counter_entries d :
  NoDup (map fst d) -> d = map (fun k => (k, counter_get d k)) (map fst d).
Proof.
  induction d as [|[k n] d IH]; intros Hnd; [reflexivity|].
  cbn [map fst] in *. apply NoDup_cons in Hnd. destruct Hnd as [Hk Hnd].
  cbn [counter_get]. rewrite bool_decide_true by reflexivity. f_equal.
  rewrite (IH Hnd) at 1. apply map_ext_in. intros k' Hk'.
  rewrite bool_decide_false; [reflexivity|].
  intros ->. apply Hk, list_elem_of_In, Hk'.
Qed.

(** The counts of one list of keywords after the loop over the posts. *)
Lemma coverage_counts (kws : list (list N)) posts d :
  NoDup kws -> map fst d = kws ->
  let r := fold_left (fun m p => count_matches (post_text p) kws m) posts d in
  map fst r = kws
  /\ forall k, k ∈ kws ->
       counter_get r k
       = counter_get d k + count_if (fun p => kw_in (post_text p) k) posts.
Proof.
  intros Hnd. revert d. induction posts as [|p posts IH]; intros d Hd.
  - cbn. split; [exact Hd|]. intros k _. lia.
  - cbn [fold_left].
    destruct (count_matches_spec (post_text p) kws d) as [Hkeys Hget].
    { intros kw Hin. rewrite Hd. exact Hin. }
    destruct (IH (count_matches (post_text p) kws d)) as [Hk Hg];
      [rewrite Hkeys; exact Hd|].
    cbv zeta. split; [exact Hk|]. intros k Hin.
    rewrite (Hg k Hin), Hget, (count_if_single kws k _ Hnd Hin), count_if_cons.
    destruct (kw_in (post_text p) k); lia.
Qed.

Lemma fold_left_pair {A B C} (F : C -> A -> A) (G : C -> B -> B) (l : list C)
  a b :
  fold_left (fun '(x, y) p => (F p x, G p y)) l (a, b)
  = (fold_left (fun x p => F p x) l a, fold_left (fun y p => G p y) l b).
Proof.
  revert a b. induction l as [|p l IH]; intros a b; [reflexivity|].
  cbn [fold_left]. apply IH.
Qed.

Lemma count_if_positive {A} (f : A -> bool) (l : list A) :
  (0 <? count_if f l) = existsb f l.
Proof.
  induction l as [|x l IH]; [reflexivity|].
  rewrite count_if_cons. cbn [existsb]. destruct (f x); [reflexivity | exact IH].
Qed.

Lemma coverage_of_list (kws : list (list N)) (posts : list post) :
  NoDup kws ->
  let r := fold_left (fun m p => count_matches (post_text p) kws m) posts
                     (map (fun kw => (kw, 0)) kws) in
  r = map (fun kw => (kw, count_if (fun p => kw_in (post_text p) kw) posts)) kws
  /\ count_if (fun kv => (0 <? kv.2)%nat) r
     = count_if (fun kw => existsb (fun p => kw_in (post_text p) kw) posts) kws.
Proof.
  intros Hnd. cbv zeta.
  assert (Hkeys0 : map fst (map (fun kw : list N => (kw, 0)) kws) = kws).
  { rewrite map_map. cbn. apply map_id. }
  destruct (coverage_counts kws posts _ Hnd Hkeys0) as [Hkeys Hget].
  cbv zeta in *.
  set (r := fold_left _ posts _) in *.
  assert (Hr : r = map (fun kw =>
                 (kw, count_if (fun p => kw_in (post_text p) kw) posts)) kws).
  { rewrite (counter_entries r) by (rewrite Hkeys; exact Hnd).
    rewrite Hkeys. apply map_ext_in. intros k Hk. f_equal.
    rewrite Hget by (apply list_elem_of_In, Hk).
    assert (H0 : counter_get (map (fun kw : list N => (kw, 0)) kws) k = 0).
    { clear. induction kws as [|k0 kws IH]; [reflexivity|].
      cbn [map counter_get]. destruct (bool_decide (k0 = k)); auto. }
    rewrite H0. reflexivity. }
  split; [exact Hr|]. rewrite Hr. rewrite count_if_map. cbn [snd].
  clear. induction kws as [|k kws IH]; [reflexivity|].
  rewrite !count_if_cons, count_if_positive, IH. reflexivity.
Qed.

(** X20. [posts_with_primary] and [posts_with_secondary] count keywords,
    not posts: each is the number of keywords of its list that occur in
    at least one post, so it never exceeds the length of the list (11
    and 16), however many posts there are; and the entry of a keyword is
    the number of posts in which it occurs. *)
Theorem keyword_coverage_counts_keywords (posts : list post) :
  let r := _analyze_keyword_coverage posts in
  let occurs kw p := kw_in (post_text p) kw in
  primary_keyword_matches r
  = map (fun kw => (kw, count_if (occurs kw) posts)) KEYWORDS_primary
  /\ secondary_keyword_matches r
     = map (fun kw => (kw, count_if (occurs kw) posts)) KEYWORDS_secondary
  /\ posts_with_primary r
     = count_if (fun kw => existsb (occurs kw) posts) KEYWORDS_primary
  /\ posts_with_secondary r
     = count_if (fun kw => existsb (occurs kw) posts) KEYWORDS_secondary
  /\ posts_with_primary r <= 11
  /\ posts_with_secondary r <= 16.
Proof.
  cbv zeta. unfold _analyze_keyword_coverage.
  rewrite (fold_left_pair
             (fun p m => count_matches (post_text p) KEYWORDS_primary m)
             (fun p m => count_matches (post_text p) KEYWORDS_secondary m)).
  assert (Hp : NoDup KEYWORDS_primary)
    by (apply (bool_decide_unpack _); vm_compute; exact I).
  assert (Hs : NoDup KEYWORDS_secondary)
    by (apply (bool_decide_unpack _); vm_compute; exact I).
  destruct (coverage_of_list KEYWORDS_primary posts Hp) as [Hp1 Hp2].
  destruct (coverage_of_list KEYWORDS_secondary posts Hs) as [Hs1 Hs2].
  cbv zeta in *.
  cbn [primary_keyword_matches secondary_keyword_matches posts_with_primary
       posts_with_secondary].
  split; [exact Hp1|]. split; [exact Hs1|]. split; [exact Hp2|].
  split; [exact Hs2|]. rewrite Hp2, Hs2. split.
  - etransitivity; [apply count_if_le|]. apply Nat.eq_le_incl. reflexivity.
  - etransitivity; [apply count_if_le|]. apply Nat.eq_le_incl. reflexivity.
Qed.

End KeywordCoverage.

Section QualityMore.
Import config quality_analyzer.

Lemma py_round_2_le x (b : Z) :
  (0 <= x)%Q -> (x <= inject_Z b)%Q -> (py_round x 2 <= inject_Z b)%Q.
Proof.
  intros H0 Hb. unfold py_round.
  change (inject_Z (10 ^ Z.of_nat 2)) with 100%Q.
  destruct (round_half_even_bounds (x * 100) 0 (b * 100)) as [_ Hhi].
  - change (inject_Z 0) with 0%Q. lra.
  - rewrite inject_Z_mult. change (inject_Z 100) with 100%Q. lra.
  - rewrite Zle_Qle, inject_Z_mult in Hhi.
    change (inject_Z 100) with 100%Q in Hhi.
    apply Qle_shift_div_r; lra.
Qed.

(** X21. The two boolean checks are ordered, and the score shows them:
    enough posts with enough comments implies enough posts; a score above
    40 needs enough posts, and a score above 70 (so every score of 80 or
    more, which the summary calls good) needs both checks. *)
Theorem quality_score_needs_the_checks (posts : list post) :
  let c := _perform_quality_checks posts in
  (meets_min_comments c = true -> meets_min_posts c = true)
  /\ ((40 < overall_quality_score c)%Q -> meets_min_posts c = true)
  /\ ((70 < overall_quality_score c)%Q ->
      meets_min_posts c = true /\ meets_min_comments c = true).
Proof.
  cbv zeta. destruct (quality_score_sum posts) as (raw & Hraw & Hsum).
  cbv zeta in Hraw, Hsum. rewrite Hraw. clear Hraw.
  pose proof (py_min_le_r (has_time_info (_perform_quality_checks posts) * 0.2)
                20) as Ht.
  pose proof (py_min_le_r (has_author_info (_perform_quality_checks posts) * 0.2)
                20) as Ha.
  destruct (percentage_bounds has_created_at posts) as [Ht0 _].
  destruct (percentage_bounds has_author posts) as [Ha0 _].
  pose proof (py_min_glb (percentage has_created_at posts * 0.2) 20 0
                ltac:(lra) ltac:(lra)) as Ht1.
  pose proof (py_min_glb (percentage has_author posts * 0.2) 20 0
                ltac:(lra) ltac:(lra)) as Ha1.
  assert (Hord : meets_min_comments (_perform_quality_checks posts) = true ->
                 meets_min_posts (_perform_quality_checks posts) = true).
  { unfold _perform_quality_checks. cbn [meets_min_comments meets_min_posts].
    intros Hc. apply Nat.leb_le in Hc. apply Nat.leb_le.
    pose proof (count_if_le enough_comments posts). lia. }
  unfold _perform_quality_checks in Hsum, Ht, Ha, Hord |- *.
  cbn [meets_min_posts meets_min_comments has_time_info has_author_info]
    in Hsum, Ht, Ha, Hord |- *.
  split; [exact Hord|].
  destruct (MIN_POSTS_REQUIRED <=? length posts)%nat;
    destruct (MIN_POSTS_REQUIRED <=? count_if enough_comments posts)%nat;
    try (specialize (Hord eq_refl); discriminate Hord).
  - split; intros _; auto.
  - split; [reflexivity|]. intros Hgt. exfalso.
    pose proof (py_round_2_le raw 70 ltac:(lra)
                  ltac:(change (inject_Z 70) with 70%Q; lra)) as Hle.
    change (inject_Z 70) with 70%Q in Hle. lra.
  - assert (Hle : (py_round raw 2 <= 40)%Q).
    { pose proof (py_round_2_le raw 40 ltac:(lra)
                    ltac:(change (inject_Z 40) with 40%Q; lra)) as Hle.
      exact Hle. }
    split; intros Hgt; exfalso; lra.
Qed.

End QualityMore.

(** ** More on the lexicon sentiment and the topics *)

Section SentimentMore.
Context `{PyLib}.
Import text_analysis props.

Lemma py_round_3_unit x :
  (-1 <= x)%Q -> (x <= 1)%Q -> (-1 <= py_round x 3 /\ py_round x 3 <= 1)%Q.
Proof.
  intros Hlo Hhi. unfold py_round.
  change (inject_Z (10 ^ Z.of_nat 3)) with 1000%Q.
  destruct (round_half_even_bounds (x * 1000) (-1000) 1000) as [Ha Hb].
  - change (inject_Z (-1000)) with (-1000)%Q. lra.
  - change (inject_Z 1000) with 1000%Q. lra.
  - rewrite Zle_Qle in Ha, Hb.
    change (inject_Z (-1000)) with (-1000)%Q in Ha.
    change (inject_Z 1000) with 1000%Q in Hb.
    split; [apply Qle_shift_div_l | apply Qle_shift_div_r]; lra.
Qed.

Lemma Qnat_lt_iff n m : (Qnat n < Qnat m)%Q <-> n < m.
Proof. unfold Qnat. rewrite <- Zlt_Qlt. lia. Qed.

(** The quotient of the hit counts against the two thresholds, in whole
    numbers. *)
Lemma quotient_thresholds (p n : nat) :
  0 < p + n ->
  let q := ((Qnat p - Qnat n) / Qnat (p + n))%Q in
  (-1 <= q <= 1)%Q
  /\ ((0.2 < q)%Q <-> 3 * n < 2 * p)
  /\ ((q < -0.2)%Q <-> 3 * p < 2 * n).
Proof.
  intros Hpos. cbv zeta.
  assert (Ht : (0 < Qnat (p + n))%Q) by (apply Qnat_pos, Hpos).
  pose proof (Qnat_nonneg p) as Hp. pose proof (Qnat_nonneg n) as Hn.
  pose proof (Qnat_plus p n) as Hsum.
  assert (Hq : ((Qnat p - Qnat n) / Qnat (p + n) * Qnat (p + n)
                == Qnat p - Qnat n)%Q)
    by (field; lra).
  set (q := ((Qnat p - Qnat n) / Qnat (p + n))%Q) in *.
  assert (H3n : (Qnat (3 * n) == 3 * Qnat n)%Q)
    by (rewrite Qnat_mult; reflexivity).
  assert (H2p : (Qnat (2 * p) == 2 * Qnat p)%Q)
    by (rewrite Qnat_mult; reflexivity).
  assert (H3p : (Qnat (3 * p) == 3 * Qnat p)%Q)
    by (rewrite Qnat_mult; reflexivity).
  assert (H2n : (Qnat (2 * n) == 2 * Qnat n)%Q)
    by (rewrite Qnat_mult; reflexivity).
  split; [split|split].
  - apply Qle_shift_div_l; [exact Ht | lra].
  - apply Qle_shift_div_r; [exact Ht | lra].
  - rewrite <- Qnat_lt_iff, H3n, H2p. split.
    + intros Hgt. assert ((0.2 * Qnat (p + n) < q * Qnat (p + n))%Q)
        by (apply Qmult_lt_compat_r; assumption). lra.
    + intros Hlt. apply Qlt_shift_div_l; [exact Ht | lra].
  - rewrite <- Qnat_lt_iff, H3p, H2n. split.
    + intros Hgt. assert ((q * Qnat (p + n) < -0.2 * Qnat (p + n))%Q)
        by (apply Qmult_lt_compat_r; assumption). lra.
    + intros Hlt. apply Qlt_shift_div_r; [exact Ht | lra].
Qed.

(** X22. The sentiment score lies between -1 and 1, and the label is the
    sign test on the hit counts in whole numbers: positive exactly when
    twice the positive hits exceed three times the negative hits,
    negative exactly when twice the negative hits exceed three times the
    positive hits. *)
Theorem sentiment_label_by_counts (text language : list N) :
  let r := analyze_sentiment text language in
  (-1 <= s_score r <= 1)%Q
  /\ (s_label r = positive
      <-> 3 * negative_count r < 2 * positive_count r)
  /\ (s_label r = negative
      <-> 3 * positive_count r < 2 * negative_count r).
Proof.
  cbv zeta. unfold analyze_sentiment.
  set (p := hits _ (lower text)). set (n := hits _ (lower text)).
  destruct (p + n =? 0) eqn:Etot.
  - apply Nat.eqb_eq in Etot. cbn [s_score s_label positive_count negative_count].
    split; [vm_compute; split; discriminate|].
    split; (split; [discriminate | intros ?; exfalso; lia]).
  - apply Nat.eqb_neq in Etot.
    destruct (quotient_thresholds p n ltac:(lia)) as ([Hlo Hhi] & Hpos & Hneg).
    cbv zeta in *. set (q := ((Qnat p - Qnat n) / Qnat (p + n))%Q) in *.
    destruct (Qlt_le_dec 0.2 q) as [Hq|Hq];
      [|destruct (Qlt_le_dec q (-0.2)) as [Hq'|Hq']];
      cbn [s_score s_label positive_count negative_count];
      (split; [apply py_round_3_unit; assumption|]).
    + apply Hpos in Hq. split; (split; intros Hx);
        try reflexivity; try discriminate Hx; try lia; exfalso; lia.
    + apply Hneg in Hq'. split; (split; intros Hx);
        try reflexivity; try discriminate Hx; try lia; exfalso; lia.
    + split; (split; [discriminate|]); intros Hc.
      * apply Hpos in Hc. exfalso. apply (Qlt_not_le _ _ Hc Hq).
      * apply Hneg in Hc. exfalso. apply (Qlt_not_le _ _ Hc Hq').
Qed.

Lemma dict_get_unknown (d : list (list N * list (list N))) key :
  key ∉ map fst d -> dict_get d key = [].
Proof.
  induction d as [|[k v] d IH]; [reflexivity|]. cbn [map fst dict_get].
  intros Hk. rewrite bool_decide_false.
  - apply IH. intros Hin. apply Hk, list_elem_of_further, Hin.
  - intros ->. apply Hk, list_elem_of_here.
Qed.

(** X23. For a language other than ['en'] and ['zh'] both lexicons are
    empty: every text is neutral, with score 0 and no hits. *)
Theorem sentiment_unknown_language (text language : list N) :
  language <> utf8 "en" -> language <> utf8 "zh" ->
  let r := analyze_sentiment text language in
  (s_score r == 0)%Q /\ s_label r = neutral
  /\ positive_count r = 0 /\ negative_count r = 0.
Proof.
  intros Hen Hzh. cbv zeta. unfold analyze_sentiment.
  assert (Hkey : forall d, map fst d = [utf8 "en"; utf8 "zh"] ->
                           dict_get d language = []).
  { intros d Hd. apply dict_get_unknown. rewrite Hd.
    intros Hin. apply elem_of_cons in Hin. destruct Hin as [->|Hin]; [auto|].
    apply list_elem_of_singleton in Hin. auto. }
  rewrite (Hkey SENTIMENT_WORDS_positive eq_refl),
          (Hkey SENTIMENT_WORDS_negative eq_refl).
  cbn. repeat split; reflexivity.
Qed.

End SentimentMore.

Lemma sentiment_unknown_language_witness :
  utf8 "fr" <> utf8 "en" /\ utf8 "fr" <> utf8 "zh"
  /\ text_analysis.s_label
       (text_analysis.analyze_sentiment (H := ascii_lib)
          (utf8 "good news, great day") (utf8 "fr"))
     = text_analysis.neutral.
Proof.
  split; [vm_compute; discriminate|]. split; [vm_compute; discriminate|].
  apply (sentiment_unknown_language (H := ascii_lib)
           (utf8 "good news, great day") (utf8 "fr"));
    vm_compute; discriminate.
Defined.

Section Topics.
Context `{PyLib}.
Import text_analysis.

Lemma fold_count_topics (texts : list (list N)) topics :
  fold_left (fun topics text => count_topics (lower text) topics) texts topics
  = map (fun '(name, data) =>
           (name,
            mk_topic (keywords data)
              (count data
               + count_if (fun text =>
                             existsb (fun kw => str_in kw (lower text))
                                     (keywords data)) texts)))
        topics.
Proof.
  revert topics. induction texts as [|text texts IH]; intros topics.
  - cbn [fold_left]. rewrite <- (map_id topics) at 1. apply map_ext.
    intros [name [kws c]]. cbn. rewrite Nat.add_0_r. reflexivity.
  - cbn [fold_left]. rewrite IH. unfold count_topics. rewrite map_map.
    apply map_ext. intros [name [kws c]]. cbn [keywords count].
    rewrite count_if_cons.
    destruct (existsb (fun kw => str_in kw (lower text)) kws);
      cbn [keywords count]; do 2 f_equal; lia.
Qed.

(** X24. The count of a topic is the number of texts that contain at
    least one of its keywords (a text counts once, however many keywords
    it contains), so it is at most the number of texts; and every language
    other than ['en'] is analysed with the Chinese keywords. *)
Theorem extract_topics_counts (texts : list (list N)) (language : list N) :
  let table := if bool_decide (language = utf8 "en")
               then topic_keywords_en else topic_keywords_zh in
  extract_topics texts language
  = map (fun '(name, kws) =>
           (name,
            mk_topic kws
              (count_if (fun text =>
                           existsb (fun kw => str_in kw (lower text)) kws)
                        texts)))
        table
  /\ (forall name data, (name, data) ∈ extract_topics texts language ->
        count data <= length texts)
  /\ (language <> utf8 "en" ->
      extract_topics texts language = extract_topics texts (utf8 "zh")).
Proof.
  cbv zeta.
  assert (Hform : extract_topics texts language
    = map (fun '(name, kws) =>
             (name,
              mk_topic kws
                (count_if (fun text =>
                             existsb (fun kw => str_in kw (lower text)) kws)
                          texts)))
          (if bool_decide (language = utf8 "en")
           then topic_keywords_en else topic_keywords_zh)).
  { unfold extract_topics, initial_topics. rewrite fold_count_topics, map_map.
    apply map_ext. intros [name kws]. reflexivity. }
  split; [exact Hform|]. split.
  - intros name data Hin. rewrite Hform in Hin.
    apply elem_of_list_map in Hin. destruct Hin as ([name' kws] & [= -> ->] & _).
    cbn [count]. apply count_if_le.
  - intros Hne. unfold extract_topics, initial_topics.
    rewrite (bool_decide_false _ Hne).
    rewrite (bool_decide_false (utf8 "zh" = utf8 "en"))
      by (vm_compute; discriminate).
    reflexivity.
Qed.

End Topics.

(** ** More on the models *)

Section CommentModel.
Import helpers models.

Lemma lstrip_nil_iff s : lstrip s = [] <-> Forall (fun c => isspace c = true) s.
Proof.
  induction s as [|c s IH]; [split; [constructor | reflexivity]|].
  cbn [lstrip]. destruct (isspace c) eqn:Ec.
  - rewrite IH. split; [intros Hs; constructor; assumption|].
    intros Hs. apply Forall_cons in Hs. tauto.
  - split; [discriminate|]. intros Hs. apply Forall_cons in Hs.
    destruct Hs as [Hc _]. congruence.
Qed.

Lemma strip_nil_iff s : strip s = [] <-> Forall (fun c => isspace c = true) s.
Proof.
  unfold strip, rstrip. split.
  - intros Hs. apply lstrip_nil_iff.
    assert (Hrev : lstrip (rev (lstrip s)) = []).
    { apply (f_equal (@rev N)) in Hs. rewrite rev_involutive in Hs. exact Hs. }
    apply lstrip_nil_iff in Hrev.
    pose proof (lstrip_solid s) as Hsolid.
    destruct (lstrip s) as [|d r]; [reflexivity|]. exfalso.
    assert (Hd : isspace d = true).
    { rewrite Forall_forall in Hrev. apply Hrev.
      apply list_elem_of_In, in_rev. rewrite rev_involutive. left. reflexivity. }
    cbn in Hsolid. congruence.
  - intros Hs. apply lstrip_nil_iff in Hs. rewrite Hs. reflexivity.
Qed.

(** X25. The validator of a comment's content refuses exactly the texts
    that consist of white space only (the empty text among them); what it
    accepts is stored stripped, is not empty, has no white space at
    either end, and validates to itself. *)
Theorem validate_content_accepts (v : list N) :
  (validate_content v = None <-> Forall (fun c => isspace c = true) v)
  /\ forall w, validate_content v = Some w ->
       w = strip v /\ w <> []
       /\ (forall c, head w = Some c -> isspace c = false)
       /\ (forall c, last w = Some c -> isspace c = false)
       /\ validate_content w = Some w.
Proof.
  unfold validate_content. split.
  - rewrite <- strip_nil_iff.
    destruct (strip v) as [|c r]; cbn; split; try discriminate; reflexivity.
  - intros w. destruct (strip v) as [|c r] eqn:Hs; cbn [length Nat.eqb];
      [discriminate|].
    intros [= <-]. split; [reflexivity|]. split; [discriminate|].
    pose proof (strip_starts_solid v) as Hhead.
    pose proof (rstrip_ends_solid (lstrip v)) as Hlast.
    fold (strip v) in Hlast. rewrite Hs in Hhead, Hlast.
    split; [intros d [= <-]; exact Hhead|]. split; [exact Hlast|].
    rewrite <- Hs, strip_idempotent, Hs. reflexivity.
Qed.

End CommentModel.

(** ** The merge script: its own text cleaning *)

Section ScriptCleanText.
Import helpers props.
Import data_merge_and_clean_v3 (is_control).

Lemma filter_controls_plain s :
  Forall (fun c => isspace c = true -> c = SPACE) s ->
  plain_text (filter (fun c => is_control c = false) s).
Proof.
  induction 1 as [|c s Hc _ IH]; [constructor|].
  rewrite filter_cons. destruct (decide (is_control c = false)); [|exact IH].
  constructor; [split; assumption | exact IH].
Qed.

Lemma filter_controls_id s :
  plain_text s -> filter (fun c => is_control c = false) s = s.
Proof.
  induction 1 as [|c s [Hc _] _ IH]; [reflexivity|].
  rewrite filter_cons, decide_True by exact Hc. f_equal. exact IH.
Qed.

Lemma plain_strip s : plain_text s -> plain_text (strip s).
Proof.
  intros Hs. unfold strip, plain_text in *.
  destruct (lstrip_suffix s) as [w Hw]. rewrite Hw in Hs.
  apply Forall_app in Hs. destruct Hs as [_ Hs].
  destruct (rstrip_prefix (lstrip s)) as [w' Hw']. rewrite Hw' in Hs.
  apply Forall_app in Hs. tauto.
Qed.

Lemma plain_sub_spaces s b : plain_text s -> plain_text (sub_spaces b s).
Proof.
  intros Hs. revert b. induction Hs as [|c s [Hc Hw] _ IH]; intros b;
    [constructor|].
  cbn [sub_spaces]. destruct (isspace c) eqn:Ec.
  - destruct b; [apply IH|]. constructor; [|apply IH].
    split; [reflexivity | intros _; reflexivity].
  - constructor; [|apply IH]. split; [exact Hc | rewrite Ec; discriminate].
Qed.

Lemma script_clean_text_unfold t :
  data_merge_and_clean_v3.clean_text t
  = if negb (truthy t) then []
    else strip (filter (fun c => is_control c = false) (sub_spaces false t)).
Proof. reflexivity. Qed.

Lemma script_clean_text_plain t :
  plain_text (data_merge_and_clean_v3.clean_text t).
Proof.
  rewrite script_clean_text_unfold. destruct (negb (truthy t)); [constructor|].
  apply plain_strip, filter_controls_plain, ws_normal_spaces, sub_spaces_normal.
Qed.

(** On plain text the script's cleaning is white-space normalisation. *)
Lemma script_clean_text_on_plain s :
  plain_text s ->
  data_merge_and_clean_v3.clean_text s = strip (sub_spaces false s).
Proof.
  intros Hs. rewrite script_clean_text_unfold.
  destruct s as [|c s]; [reflexivity|]. cbn [truthy negb].
  rewrite filter_controls_id by (apply plain_sub_spaces, Hs). reflexivity.
Qed.

(** X26. What the script's [clean_text] returns: no control character of
    its class, no white space other than plain spaces, and none at either
    end. *)
Theorem script_clean_text_output (text : list N) :
  let out := data_merge_and_clean_v3.clean_text text in
  (forall c, c ∈ out -> is_control c = false)
  /\ (forall c, c ∈ out -> isspace c = true -> c = SPACE)
  /\ (forall c, head out = Some c -> isspace c = false)
  /\ (forall c, last out = Some c -> isspace c = false).
Proof.
  cbv zeta. pose proof (script_clean_text_plain text) as Hp.
  unfold plain_text in Hp. rewrite Forall_forall in Hp.
  split; [intros c Hc; apply (Hp c Hc)|].
  split; [intros c Hc; apply (Hp c Hc)|].
  rewrite script_clean_text_unfold.
  destruct (negb (truthy text)); [split; discriminate|]. split.
  - pose proof (strip_starts_solid
                  (filter (fun c => is_control c = false)
                          (sub_spaces false text))) as Hs.
    intros c. destruct (strip _); [discriminate|]. cbn. intros [= <-]. exact Hs.
  - intros c. apply rstrip_ends_solid.
Qed.

(** X27. Two passes of the script's [clean_text] reach a fixed point: a
    third pass changes nothing. *)
Theorem script_clean_text_settles (text : list N) :
  data_merge_and_clean_v3.clean_text (data_merge_and_clean_v3.clean_text (data_merge_and_clean_v3.clean_text text))
  = data_merge_and_clean_v3.clean_text (data_merge_and_clean_v3.clean_text text).
Proof.
  pose proof (script_clean_text_plain text) as Hp1.
  set (s1 := data_merge_and_clean_v3.clean_text text) in *.
  rewrite (script_clean_text_on_plain s1 Hp1).
  set (s3 := strip (sub_spaces false s1)).
  assert (Hp3 : plain_text s3) by (apply plain_strip, plain_sub_spaces, Hp1).
  assert (Hn3 : ws_normal s3) by (apply ws_normal_strip, sub_spaces_normal).
  rewrite (script_clean_text_on_plain s3 Hp3).
  rewrite (sub_spaces_ws_normal s3 Hn3). apply strip_idempotent.
Qed.

Lemma sub_spaces_word a r b :
  word a -> sub_spaces b (a ++ r) = a ++ sub_spaces false r.
Proof.
  intros [Hne Ha]. revert b. induction Ha as [|c a [Hc _] Ha IH]; intros b;
    [contradiction|].
  cbn [app sub_spaces]. rewrite Hc. f_equal.
  destruct a as [|d a]; [reflexivity|]. apply IH. discriminate.
Qed.

Lemma word_filter a : word a -> filter (fun c => is_control c = false) a = a.
Proof.
  intros [_ Ha]. induction Ha as [|c a [_ Hc] _ IH]; [reflexivity|].
  rewrite filter_cons, decide_True by exact Hc. f_equal. exact IH.
Qed.

Lemma strip_between_words a m b : word a -> word b -> strip (a ++ m ++ b) = a ++ m ++ b.
Proof.
  intros [Hna Ha] [Hnb Hb]. unfold strip.
  assert (Hl : lstrip (a ++ m ++ b) = a ++ m ++ b).
  { apply lstrip_starts_solid. destruct a as [|c a]; [contradiction|].
    apply Forall_cons in Ha. cbn. tauto. }
  rewrite Hl. unfold rstrip.
  rewrite (lstrip_starts_solid (rev (a ++ m ++ b))); [apply rev_involutive|].
  rewrite !rev_app_distr.
  destruct (rev b) as [|c rb] eqn:Hrb.
  - apply (f_equal (@rev N)) in Hrb. rewrite rev_involutive in Hrb.
    contradiction.
  - cbn. rewrite Forall_forall in Hb. apply (Hb c).
    apply list_elem_of_In, in_rev. rewrite Hrb. left. reflexivity.
Qed.

(** X28. The script's [clean_text] is not idempotent: a control character
    between two spaces is deleted after the white space has been
    normalised, which leaves two spaces in a row; only a second pass
    joins them. *)
Theorem script_clean_text_leaves_double_space (a b : list N) :
  word a -> word b ->
  data_merge_and_clean_v3.clean_text (a ++ [SPACE; 0%N; SPACE] ++ b)
  = a ++ [SPACE; SPACE] ++ b
  /\ data_merge_and_clean_v3.clean_text (a ++ [SPACE; SPACE] ++ b)
     = a ++ [SPACE] ++ b.
Proof.
  intros Ha Hb.
  assert (Hsb : forall x, sub_spaces x b = b).
  { intros x. rewrite <- (app_nil_r b) at 1.
    rewrite (sub_spaces_word b [] x Hb). cbn. apply app_nil_r. }
  assert (Hfilter : forall m, filter (fun c => is_control c = false) (a ++ m ++ b)
                    = a ++ filter (fun c => is_control c = false) m ++ b).
  { intros m. rewrite !filter_app, (word_filter a Ha), (word_filter b Hb).
    reflexivity. }
  assert (Htruthy : forall r, negb (truthy (a ++ r)) = false).
  { intros r. destruct Ha as [Hna _]. destruct a; [contradiction | reflexivity]. }
  split; rewrite script_clean_text_unfold, Htruthy, (sub_spaces_word a _ false Ha).
  - assert (Hrest : sub_spaces false ([SPACE; 0%N; SPACE] ++ b)
                    = [SPACE; 0%N; SPACE] ++ b).
    { cbn [app sub_spaces]. change (isspace SPACE) with true.
      change (isspace 0%N) with false. cbn iota. rewrite (Hsb true).
      reflexivity. }
    rewrite Hrest, Hfilter.
    apply (strip_between_words _ [SPACE; SPACE] _ Ha Hb).
  - assert (Hrest : sub_spaces false ([SPACE; SPACE] ++ b) = [SPACE] ++ b).
    { cbn [app sub_spaces]. change (isspace SPACE) with true.
      cbn iota. rewrite (Hsb true). reflexivity. }
    rewrite Hrest, Hfilter.
    apply (strip_between_words _ [SPACE] _ Ha Hb).
Qed.

End ScriptCleanText.

Lemma script_clean_text_leaves_double_space_witness :
  props.word (utf8 "AI") /\ props.word (utf8 "jobs")
  /\ data_merge_and_clean_v3.clean_text
       (utf8 "AI" ++ [helpers.SPACE; 0%N; helpers.SPACE] ++ utf8 "jobs")
     <> data_merge_and_clean_v3.clean_text
          (data_merge_and_clean_v3.clean_text
             (utf8 "AI" ++ [helpers.SPACE; 0%N; helpers.SPACE] ++ utf8 "jobs")).
Proof.
  assert (Ha : props.word (utf8 "AI"))
    by (split; [discriminate | repeat constructor]).
  assert (Hb : props.word (utf8 "jobs"))
    by (split; [discriminate | repeat constructor]).
  split; [exact Ha|]. split; [exact Hb|].
  destruct (script_clean_text_leaves_double_space (utf8 "AI") (utf8 "jobs")
              Ha Hb) as [H1 H2].
  rewrite H1, H2. vm_compute. discriminate.
Defined.

(** ** The merge script: standardised posts *)

Section Standardize.
Import data_merge_and_clean_v3 props.
Context `{PyLib} `{DateLib} (hash : list N -> Z).

Lemma parse_date_cases (v : option pyval) :
  (numeric_date v
   /\ parse_date (default (PyStr []) v) = Raised TypeError)
  \/ (~ numeric_date v
      /\ exists out, parse_date (default (PyStr []) v) = Returned out).
Proof.
  destruct v as [[|z|s]|]; cbn [default from_option id].
  - right. split; [intros (z & [=] & _) | exists []; reflexivity].
  - destruct (Z.eq_dec z 0%Z) as [->|Hz].
    + right. split; [intros (z & [= <-] & Hz); contradiction|].
      exists []. reflexivity.
    + left. split; [exists z; auto|].
      destruct z as [|p|p]; [contradiction | reflexivity | reflexivity].
  - right. split; [intros (z & [=] & _)|].
    unfold parse_date. destruct s as [|c s]; [exists []; reflexivity|].
    cbn [py_truthy truthy negb]. rewrite try_formats_str.
    destruct (first_some (strptime_str (c :: s)) formats);
      cbn [fmap option_fmap option_map]; [eauto|].
    destruct (search_ymd (c :: s)) as [[[y m] d]|]; eauto.
  - right. split; [intros (z & [=] & _) | exists []; reflexivity].
Qed.

Lemma standardize_comment_cases platform c :
  (numeric_date (rc_created_at c)
   /\ standardize_comment platform c = Raised TypeError)
  \/ (~ numeric_date (rc_created_at c)
      /\ exists sc, standardize_comment platform c = Returned sc
           /\ sc_content sc
              = data_merge_and_clean_v3.clean_text (get_str (rc_content c))
           /\ sc_platform sc = platform).
Proof.
  unfold standardize_comment.
  destruct (parse_date_cases (rc_created_at c)) as [[Hn ->]|[Hn [out ->]]].
  - left. split; [exact Hn | reflexivity].
  - right. split; [exact Hn|]. eexists. cbn [bind]. repeat split.
Qed.

Lemma standardize_comments_cases platform (cs : list raw_comment) :
  (Exists (fun c => numeric_date (rc_created_at c)) cs
   /\ map_result (standardize_comment platform) cs = Raised TypeError)
  \/ (Forall (fun c => ~ numeric_date (rc_created_at c)) cs
      /\ exists out, map_result (standardize_comment platform) cs = Returned out
           /\ map sc_content out
              = map (fun c => data_merge_and_clean_v3.clean_text
                                (get_str (rc_content c))) cs
           /\ Forall (fun sc => sc_platform sc = platform) out).
Proof.
  induction cs as [|c cs IH].
  - right. split; [constructor|]. exists []. repeat split. constructor.
  - cbn [map_result].
    destruct (standardize_comment_cases platform c)
      as [[Hn ->]|[Hn (sc & -> & Hc & Hp)]].
    + left. split; [apply Exists_cons_hd, Hn | reflexivity].
    + cbn [bind]. destruct IH as [[Hex ->]|[Hall (out & -> & Hout & Hpl)]].
      * left. split; [apply Exists_cons_tl, Hex | reflexivity].
      * right. split; [constructor; assumption|].
        exists (sc :: out). cbn [bind map]. rewrite Hc, Hout.
        repeat split. constructor; assumption.
Qed.

(** X29. The two [standardize] functions keep every comment: unless a
    [created_at] value is a number other than zero (then they raise
    [TypeError]), they return a post whose [comment_count] is the length
    of its list of comments, which has one entry for each comment of the
    input, in order, also for a comment whose content is empty once
    cleaned. *)
Theorem standardize_keeps_every_comment (post : raw_post) :
  let cs := default [] (rp_comments post) in
  let bad := numeric_date (rp_created_at post)
             \/ Exists (fun c => numeric_date (rc_created_at c)) cs in
  let kept platform out :=
    sp_comment_count out = length (sp_comments out)
    /\ length (sp_comments out) = length cs
    /\ map sc_content (sp_comments out)
       = map (fun c => data_merge_and_clean_v3.clean_text
                         (get_str (rc_content c))) cs
    /\ Forall (fun sc => sc_platform sc = platform) (sp_comments out)
    /\ sp_platform out = platform in
  (bad -> standardize_reddit_post hash post = Raised TypeError
          /\ standardize_v2ex_post hash post = Raised TypeError)
  /\ (~ bad ->
      exists r v,
        standardize_reddit_post hash post = Returned r
        /\ standardize_v2ex_post hash post = Returned v
        /\ kept (utf8 "reddit") r /\ kept (utf8 "v2ex") v).
Proof.
  cbv zeta. unfold standardize_reddit_post, standardize_v2ex_post.
  set (cs := default [] (rp_comments post)).
  destruct (standardize_comments_cases (utf8 "reddit") cs)
    as [[Hex ->]|[Hall (outr & -> & Hcr & Hpr)]].
  - destruct (standardize_comments_cases (utf8 "v2ex") cs)
      as [[_ ->]|[Hall _]].
    + split; [intros _; split; reflexivity|].
      intros Hbad. exfalso. apply Hbad. right. exact Hex.
    + exfalso. apply Exists_exists in Hex. destruct Hex as (c & Hc & Hn).
      rewrite Forall_forall in Hall. apply (Hall c Hc Hn).
  - destruct (standardize_comments_cases (utf8 "v2ex") cs)
      as [[Hex _]|[_ (outv & -> & Hcv & Hpv)]].
    + exfalso. apply Exists_exists in Hex. destruct Hex as (c & Hc & Hn).
      rewrite Forall_forall in Hall. apply (Hall c Hc Hn).
    + cbn [bind].
      destruct (parse_date_cases (rp_created_at post)) as [[Hn ->]|[Hn [d ->]]].
      * split; [intros _; split; reflexivity|].
        intros Hbad. exfalso. apply Hbad. left. exact Hn.
      * split.
        { intros [Hbad|Hbad]; [contradiction|]. exfalso.
          apply Exists_exists in Hbad. destruct Hbad as (c & Hc & Hb).
          rewrite Forall_forall in Hall. apply (Hall c Hc Hb). }
        intros _. cbn [bind]. eexists. eexists.
        split; [reflexivity|]. split; [reflexivity|].
        cbn [sp_comment_count sp_comments sp_platform].
        assert (Hlr : length outr = length cs).
        { rewrite <- (length_map sc_content outr), Hcr. apply length_map. }
        assert (Hlv : length outv = length cs).
        { rewrite <- (length_map sc_content outv), Hcv. apply length_map. }
        repeat split; assumption.
Qed.

End Standardize.

(** ** The two paths of the cleaner side by side *)

Section TwoPaths.
Context `{PyLib}.
Import helpers data_cleaner props.

Lemma dedup_rec_first_with_url seen l p :
  p ∈ dedup_rec seen l -> first_with_url (url_of p) l = Some p.
Proof.
  revert seen. induction l as [|h l IH]; intros seen Hin; [inversion Hin|].
  cbn [dedup_rec] in Hin. unfold first_with_url. cbn [find].
  fold (first_with_url (url_of p) l).
  destruct (truthy (url_of h) && bool_decide (url_of h ∉ seen)) eqn:Hk.
  - apply elem_of_cons in Hin. destruct Hin as [->|Hin].
    + rewrite bool_decide_true by reflexivity. reflexivity.
    + destruct (dedup_rec_sound ({[url_of h]} ∪ seen) l) as [_ Hs].
      destruct (Hs p Hin) as [_ Hnot].
      rewrite bool_decide_false; [apply (IH _ Hin)|].
      intros Heq. apply Hnot, elem_of_union_l, elem_of_singleton.
      symmetry. exact Heq.
  - destruct (dedup_rec_sound seen l) as [_ Hs].
    destruct (Hs p Hin) as [Ht Hnot].
    rewrite bool_decide_false; [apply (IH _ Hin)|].
    intros Heq. rewrite Heq, Ht in Hk. cbn [andb] in Hk.
    apply bool_decide_eq_false in Hk. apply Hk, Hnot.
Qed.

Lemma first_with_url_dedup_rec seen l u p :
  u <> [] -> u ∉ seen -> first_with_url u l = Some p -> p ∈ dedup_rec seen l.
Proof.
  intros Hne. revert seen. induction l as [|h l IH]; intros seen Hseen Hfirst;
    [discriminate|].
  unfold first_with_url in Hfirst. cbn [find] in Hfirst.
  fold (first_with_url u l) in Hfirst. cbn [dedup_rec].
  destruct (bool_decide (url_of h = u)) eqn:Hu.
  - apply bool_decide_eq_true in Hu. injection Hfirst as <-.
    assert (Ht : truthy (url_of h) = true).
    { rewrite Hu. destruct u; [contradiction | reflexivity]. }
    rewrite Ht, bool_decide_true by (rewrite Hu; exact Hseen).
    apply list_elem_of_here.
  - apply bool_decide_eq_false in Hu.
    destruct (truthy (url_of h) && bool_decide (url_of h ∉ seen)).
    + apply list_elem_of_further, IH; [|exact Hfirst].
      intros Hin. apply elem_of_union in Hin. destruct Hin as [Hin|Hin]; [|auto].
      apply elem_of_singleton in Hin. congruence.
    + apply IH; assumption.
Qed.

Lemma first_with_url_elem u l p :
  first_with_url u l = Some p -> p ∈ l /\ url_of p = u.
Proof.
  unfold first_with_url. intros Hf. apply find_some in Hf.
  destruct Hf as [Hin Hu]. apply bool_decide_eq_true in Hu.
  split; [apply list_elem_of_In, Hin | exact Hu].
Qed.

Lemma url_of_some p u : url_of p = u -> u <> [] -> url p = Some u.
Proof.
  unfold url_of, get_str. destruct (url p); cbn; intros <- Hne;
    [reflexivity | contradiction].
Qed.

(** A url is kept by the pure-Python path exactly when it survives the
    frame operations of the Polars path. *)
Lemma python_urls_spec posts u :
  u ∈ map url_of (omap cleaned_post (dedup_rec ∅ posts))
  <-> u ∈ cleaned_urls posts.
Proof.
  rewrite cleaned_urls_spec. split.
  - intros Hin. apply elem_of_list_map in Hin. destruct Hin as (q & -> & Hq).
    apply list_elem_of_omap in Hq. destruct Hq as (p & Hp & Hc).
    destruct (cleaned_post_fixed p q Hc) as (_ & Hu & Ht).
    assert (Hne : url_of q <> []) by (intros E; rewrite E in Ht; discriminate).
    split; [exact Hne|]. exists p. rewrite Hu. split.
    + apply (dedup_rec_first_with_url ∅ posts p Hp).
    + rewrite cleaned_post_eq in Hc. destruct (title p) as [t|]; [|discriminate].
      destruct (truthy (clean_text t)) eqn:Hct; [|discriminate].
      cbn [get_str default from_option id]. unfold clean_cell.
      destruct t as [|c t]; [discriminate Hct|]. cbn [truthy].
      intros E. rewrite E in Hct. discriminate.
  - intros (Hne & p & Hfirst & Hvalid).
    destruct (first_with_url_elem u posts p Hfirst) as [_ Hu].
    assert (Hp : p ∈ dedup_rec ∅ posts)
      by (apply (first_with_url_dedup_rec ∅ posts u p Hne);
          [apply not_elem_of_empty | exact Hfirst]).
    assert (Hc : exists q, cleaned_post p = Some q).
    { rewrite cleaned_post_eq. unfold clean_cell in Hvalid.
      destruct (title p) as [t|]; cbn [get_str default from_option id] in Hvalid;
        [|contradiction].
      destruct t as [|c t]; [contradiction|]. cbn [truthy] in Hvalid.
      destruct (clean_text (c :: t)) eqn:Hct; [contradiction|].
      rewrite Hu. destruct u; [contradiction|]. cbn. eauto. }
    destruct Hc as (q & Hc).
    destruct (cleaned_post_fixed p q Hc) as (_ & Hq & _).
    apply elem_of_list_map. exists q. split; [congruence|].
    apply list_elem_of_omap. exists p. auto.
Qed.

Lemma polars_urls_spec posts u :
  u ∈ map url_of (omap (collected (cleaned_urls posts)) posts)
  <-> u ∈ cleaned_urls posts.
Proof.
  split.
  - intros Hin. apply elem_of_list_map in Hin. destruct Hin as (q & -> & Hq).
    apply list_elem_of_omap in Hq. destruct Hq as (p & _ & Hc).
    apply collected_inv in Hc. destruct Hc as (_ & v & _ & Hv & Hin & _).
    unfold url_of. rewrite Hv. exact Hin.
  - intros Hin. pose proof Hin as Hspec. apply cleaned_urls_spec in Hspec.
    destruct Hspec as (Hne & p & Hfirst & _).
    destruct (first_with_url_elem u posts p Hfirst) as [Hp Hu].
    pose proof (url_of_some p u Hu Hne) as Hurl.
    apply elem_of_list_map. exists (clean_post_comments p __init__).1. split.
    + rewrite clean_post_comments_eq. unfold url_of. cbn [url].
      rewrite Hurl. reflexivity.
    + apply list_elem_of_omap. exists p. split; [exact Hp|].
      unfold collected. rewrite Hurl, (bool_decide_true _ Hin). reflexivity.
Qed.

(** X30. The two paths keep the same urls: on a batch that is not empty,
    a url occurs in the result of the pure-Python path exactly when it
    occurs in the result of the Polars path, and the Polars path, which
    also returns the later records of a kept url, returns at least as
    many records. *)
Theorem paths_keep_the_same_urls (posts : list post) (st st' : stats) :
  posts <> [] ->
  exists out_python st_python out_polars st_polars,
    clean_posts false posts st = Some (out_python, st_python)
    /\ clean_posts true posts st' = Some (out_polars, st_polars)
    /\ (forall u, u ∈ map url_of out_python <-> u ∈ map url_of out_polars)
    /\ length out_python <= length out_polars.
Proof.
  intros Hne. unfold clean_posts.
  destruct (clean_with_python_spec posts (set_total_posts st (length posts)))
    as (Hpy & _).
  destruct (_clean_with_python posts (set_total_posts st (length posts)))
    as [out_python st_python].
  cbn [fst] in Hpy. subst out_python.
  destruct (clean_with_polars_spec posts (set_total_posts st' (length posts))
              Hne) as (st_polars & Hpl).
  rewrite Hpl. do 4 eexists. split; [reflexivity|]. split; [reflexivity|].
  assert (Hsame : forall u,
    u ∈ map url_of (omap cleaned_post (dedup_rec ∅ posts))
    <-> u ∈ map url_of (omap (collected (cleaned_urls posts)) posts)).
  { intros u. rewrite python_urls_spec, polars_urls_spec. reflexivity. }
  split; [exact Hsame|].
  rewrite <- (length_map url_of (omap cleaned_post _)),
          <- (length_map url_of (omap (collected _) _)).
  apply submseteq_length, NoDup_submseteq.
  - apply cleaned_posts_urls, dedup_rec_sound.
  - intros u Hu. apply Hsame, Hu.
Qed.

End TwoPaths.

Lemma paths_keep_the_same_urls_witness :
  [samples.thread_a; samples.thread_b] <> []
  /\ exists out_python st_python out_polars st_polars,
       data_cleaner.clean_posts (H := ascii_lib) false
         [samples.thread_a; samples.thread_b] data_cleaner.__init__
       = Some (out_python, st_python)
       /\ data_cleaner.clean_posts (H := ascii_lib) true
            [samples.thread_a; samples.thread_b] data_cleaner.__init__
          = Some (out_polars, st_polars)
       /\ (forall u, u ∈ map props.url_of out_python
                     <-> u ∈ map props.url_of out_polars)
       /\ length out_python <= length out_polars.
Proof.
  split; [discriminate|].
  apply (paths_keep_the_same_urls (H := ascii_lib)
           [samples.thread_a; samples.thread_b]).
  discriminate.
Defined.
